(** * Sourcerer: the RAG core and the conversation truncator

    A shallow embedding of parts of the Python backend:

    - [backend/chat/truncation.py]  ([ConversationTruncator]),
    - [backend/chat/session.py]     (what [ChatSessionHandler] does with the
      truncated conversation, and [get_messages]),
    - [backend/rag/storage.py]      ([VectorStore]),
    - [backend/rag/embeddings.py]   ([EmbeddingManager]),
    - [backend/rag/engine.py]       ([RAGEngine]),
    - [backend/rag/retrieval.py]    ([RetrievalEngine]),
    - [backend/utils/file_utils.py] ([read_jsonl]).

    Conventions of the embedding.

    - A Python call that may raise returns a [result]: [Ok v] or [Raise e].
      [try_except] is the [try: ... except Exception: ...] block.  Logging is
      a no-op.
    - Python [str] is modelled by [string], one character per element (so
      [len] is [String.length]), a character being its code point; the model
      covers the code points below 256.  Python [int] is modelled by [Z].
    - The tokenizer, the LLM adapter, the clock and the date formatter are
      library code outside the repository; they are fields of an environment
      record and every theorem quantifies over them.
    - numpy and FAISS arithmetic is modelled in exact real arithmetic ([R]) in
      [VectorStore]; rounding of float32 is not modelled there.
      [Normalization] gives the normalisation for any arithmetic.  The one
      float expression of the truncator, [target_tokens * 0.7], is modelled
      exactly as an IEEE-754 binary64 product (see [float_mul_07]).
    - The metadata dictionaries handed to [VectorStore] are modelled by
      value, as [RAGEngine] builds a fresh dictionary for every call, and
      every one of them carries the key ['item_id'].  [ObjectStore] is the
      store without these two assumptions: its dictionaries are objects on a
      heap, and ['item_id'] may be missing. *)

From Stdlib Require Import ZArith List String Ascii Lia Reals Lra Sorted.
From stdpp Require Import gmap strings list pretty.

Local Open Scope Z_scope.

(** * The embedding *)

(** ** Exceptions *)

Inductive PyException : Type :=
  | ValueError (msg : string)
  | AssertionError (msg : string)
  | RuntimeError (msg : string)
  | KeyError (key : string).

Inductive result (A : Type) : Type :=
  | Ok (a : A)
  | Raise (e : PyException).

Arguments Ok {A} a.
Arguments Raise {A} e.

Definition rbind {A B : Type} (c : result A) (k : A -> result B) : result B :=
  match c with
  | Ok a => k a
  | Raise e => Raise e
  end.

#[global] Instance result_bind : MBind result := fun A B k c => rbind c k.
#[global] Instance result_ret : MRet result := @Ok.

(** [try: body  except Exception as e: handler e] *)
Definition try_except {A : Type} (body : result A) (handler : PyException -> result A)
  : result A :=
  match body with
  | Ok a => Ok a
  | Raise e => handler e
  end.

(** ** Small string helpers *)

Definition nl : string := String (ascii_of_nat 10) EmptyString.

(** Python's truthiness of an optional string: [None] and [""] are falsy. *)
Definition truthy (s : option string) : bool :=
  match s with
  | Some (String _ _) => true
  | _ => false
  end.

Definition str_truthy (s : string) : bool :=
  match s with String _ _ => true | EmptyString => false end.

Definition str_len (s : string) : Z := Z.of_nat (String.length s).

(** A string is the sequence of its characters, each given by its code
    point; the model covers the code points below 256.  Among those,
    [str.isspace] holds of 9 to 13, 28 to 32, 133 (U+0085) and 160 (U+00A0):
    the characters [str.strip()] and [str.split()] remove. *)
Definition is_py_space (c : ascii) : bool :=
  let n := nat_of_ascii c in
  (Nat.leb 9 n && Nat.leb n 13) || (Nat.leb 28 n && Nat.leb n 32)
  || Nat.eqb n 133 || Nat.eqb n 160.

Fixpoint lstrip_chars (l : list ascii) : list ascii :=
  match l with
  | c :: r => if is_py_space c then lstrip_chars r else l
  | [] => []
  end.

Definition strip (s : string) : string :=
  string_of_list_ascii
    (rev (lstrip_chars (rev (lstrip_chars (list_ascii_of_string s))))).

(** ** The binary64 product [target_tokens * 0.7]

    The literal [0.7] is the double [double_07_mantissa / 2^53].  For an
    integer [t] with [|t| < 2^53] the conversion of [t] to a double is exact
    and the product is the exact rational [t * double_07_mantissa / 2^53]
    rounded to nearest, ties to even, on a 53-bit significand.  Python
    compares an [int] with a [float] exactly. *)

Definition double_07_mantissa : Z := 6305039478318694.

(** [round53 N = (q, s)] stands for the double [q * 2^s / 2^53], the
    rounding of [N / 2^53] for [N >= 0]. *)
Definition round53 (N : Z) : Z * Z :=
  let b := Z.log2 N + 1 in
  if b <=? 53 then (N, 0)
  else
    let s := b - 53 in
    let q := N / 2 ^ s in
    let r := N mod 2 ^ s in
    let half := 2 ^ (s - 1) in
    let up := (half <? r) || ((r =? half) && Z.odd q) in
    (if up then q + 1 else q, s).

Definition float_mul_07 (t : Z) : Z * Z :=
  if 0 <=? t then round53 (t * double_07_mantissa)
  else let '(q, s) := round53 (- t * double_07_mantissa) in (- q, s).

(** [n <= t * 0.7] with [n], [t] Python ints. *)
Definition int_le_mul_07 (n t : Z) : bool :=
  let '(q, s) := float_mul_07 t in
  n * 2 ^ 53 <=? q * 2 ^ s.

(** ** backend/models/chat.py *)

Inductive MessageRole : Type := SYSTEM | USER | ASSISTANT.

Inductive MetaValue : Type :=
  | MBool (b : bool)
  | MInt (z : Z)
  | MStr (s : string).

(** A [datetime] is kept abstract: only formatting observes it. *)
Definition datetime : Type := Z.

Record ChatMessage : Type := mkChatMessage {
  id : string;
  role : MessageRole;
  content : string;
  timestamp : datetime;
  provider : option string;
  model : option string;
  usage : option (list (string * Z));
  metadata : list (string * MetaValue)
}.

Definition role_is_user (r : MessageRole) : bool :=
  match r with USER => true | _ => false end.

(** ** backend/chat/truncation.py *)

Module Truncation.

(** An encoding maps a text to its tokens, or raises. *)
Definition Encoding : Type := string -> result (list nat).

Record Config : Type := mkConfig {
  active_provider : option string;
  active_model : option string
}.

(** What the truncator reads from outside the repository's core. *)
Record Env : Type := mkEnv {
  (** [self.config_manager.config]; reading it may raise. *)
  config : result Config;
  (** [tiktoken.get_encoding(name)] *)
  tiktoken_get_encoding : string -> result Encoding;
  (** the provider adapter's [chat]: from provider, model and the user
      prompt to [response.content]; any failure on the way is a [Raise]. *)
  adapter_chat : string -> option string -> string -> result string;
  (** [datetime.now()] *)
  now : datetime;
  (** [ts.strftime('%Y-%m-%d %H:%M')] *)
  strftime_ymd_hm : datetime -> result string;
  (** [ts.isoformat()] *)
  isoformat : datetime -> string
}.

(** [d.get(key)] on a dictionary written as an association list. *)
Definition dict_get {V : Type} (d : list (string * V)) (key : string) : option V :=
  match List.find (fun kv => String.eqb (fst kv) key) d with
  | Some kv => Some (snd kv)
  | None => None
  end.

(** Token limits by provider. *)
Definition provider_limits : list (string * list (string * Z)) :=
  [("openai"%string,
    [("gpt-4"%string, 8192);
     ("gpt-4-32k"%string, 32768);
     ("gpt-3.5-turbo"%string, 4096);
     ("gpt-3.5-turbo-16k"%string, 16384)]);
   ("anthropic"%string,
    [("claude-3-sonnet"%string, 200000);
     ("claude-3-haiku"%string, 200000);
     ("claude-3-opus"%string, 200000)]);
   ("moonshot"%string,
    [("moonshot-v1-8k"%string, 8192);
     ("moonshot-v1-32k"%string, 32768);
     ("moonshot-v1-128k"%string, 131072)])].

Definition default_limit : Z := 4096.
Definition response_reserve : Z := 1000.
Definition system_reserve : Z := 500.
Definition min_keep_messages : nat := 4.

Definition _get_token_limit (env : Env) : result Z :=
  try_except
    (cfg ← config env;
     match active_provider cfg, active_model cfg with
     | Some p, Some m =>
         if str_truthy p && str_truthy m
         then
           let limits := default [] (dict_get provider_limits p) in
           Ok (default default_limit (dict_get limits m))
         else Ok default_limit
     | _, _ => Ok default_limit
     end)
    (fun _ => Ok default_limit).

Definition _get_encoding (env : Env) : result Encoding :=
  try_except
    (cfg ← config env;
     tiktoken_get_encoding env "cl100k_base")
    (fun _ => tiktoken_get_encoding env "cl100k_base").

(** [len(encoding.encode(text))] *)
Definition count_tokens (enc : Encoding) (text : string) : result Z :=
  toks ← enc text; Ok (Z.of_nat (length toks)).

(** The [for message in messages] loop of [_count_conversation_tokens]. *)
Fixpoint count_messages (enc : Encoding) (messages : list ChatMessage) (total : Z)
  : result Z :=
  match messages with
  | [] => Ok total
  | m :: rest =>
      n ← count_tokens enc (content m);
      count_messages enc rest (total + n + 4)
  end.

Definition char_count (messages : list ChatMessage) : Z :=
  fold_left (fun acc m => acc + str_len (content m)) messages 0.

(** The [except] branch of [_count_conversation_tokens]. *)
Definition char_estimate (messages : list ChatMessage) (new_message_content : string) : Z :=
  let c := char_count messages in
  let c := if str_truthy new_message_content then c + str_len new_message_content else c in
  c / 4.

(** The [try] branch of [_count_conversation_tokens]. *)
Definition tokenizer_count (env : Env) (messages : list ChatMessage)
    (new_message_content : string) : result Z :=
  enc ← _get_encoding env;
  total ← count_messages enc messages 0;
  if str_truthy new_message_content then
    n ← count_tokens enc new_message_content;
    Ok (total + n + 4)
  else Ok total.

Definition _count_conversation_tokens (env : Env) (messages : list ChatMessage)
    (new_message_content : string) : result Z :=
  try_except
    (tokenizer_count env messages new_message_content)
    (fun _ => Ok (char_estimate messages new_message_content)).

Definition summary_prompt (conversation_text : string) : string :=
  ("Please create a concise summary of this conversation that captures the key topics, decisions, and context that would be important for continuing the discussion:"
   ++ nl ++ nl ++ String.substring 0 2000 conversation_text
   ++ "  # Limit input to prevent token overflow" ++ nl ++ nl
   ++ "Provide a summary in 2-3 sentences that maintains the essential context.")%string.

Definition _generate_summary (env : Env) (conversation_text : string)
  : result (option string) :=
  try_except
    (cfg ← config env;
     match active_provider cfg with
     | Some p =>
         if str_truthy p then
           response ← adapter_chat env p (active_model cfg) (summary_prompt conversation_text);
           Ok (Some ("[Previous conversation summary: " ++ strip response ++ "]")%string)
         else Ok None
     | None => Ok None
     end)
    (fun _ => Ok None).

Definition conversation_text_of (messages : list ChatMessage) : string :=
  fold_left
    (fun text msg =>
       let role_prefix := if role_is_user (role msg) then "User: " else "Assistant: " in
       (text ++ role_prefix ++ content msg ++ nl ++ nl)%string)
    messages EmptyString.

(** The text used when no summary was generated. *)
Definition placeholder (count : nat) (t0 t1 : string) : string :=
  ("[Conversation summary: " ++ pretty count ++ " earlier messages from "
   ++ t0 ++ " to " ++ t1 ++ "]")%string.

Definition fallback_summary (env : Env) (messages : list ChatMessage) (first last_ : ChatMessage)
  : result string :=
  t0 ← strftime_ymd_hm env (timestamp first);
  t1 ← strftime_ymd_hm env (timestamp last_);
  Ok (placeholder (length messages) t0 t1).

Definition _create_conversation_summary (env : Env) (messages : list ChatMessage)
  : result (option ChatMessage) :=
  try_except
    (match messages with
     | [] => Ok None
     | first :: _ =>
         generated ← _generate_summary env (conversation_text_of messages);
         summary_content ←
           (if truthy generated then Ok (default EmptyString generated)
            else fallback_summary env messages first (List.last messages first));
         Ok (Some {| id := ("summary_" ++ isoformat env (now env))%string;
                     role := SYSTEM;
                     content := summary_content;
                     timestamp := now env;
                     provider := None;
                     model := None;
                     usage := None;
                     metadata := [("is_summary"%string, MBool true);
                                  ("summarized_count"%string,
                                   MInt (Z.of_nat (length messages)))] |})
     end)
    (fun _ => Ok None).

(** The backward walk of [_truncate_conversation]: [rev_messages] is the
    part of the history not yet visited, newest first. *)
Fixpoint walk_back (enc : Encoding) (target_tokens : Z) (rev_messages : list ChatMessage)
    (recent_messages : list ChatMessage) (recent_tokens : Z)
  : result (list ChatMessage * Z) :=
  match rev_messages with
  | [] => Ok (recent_messages, recent_tokens)
  | message :: rest =>
      n ← count_tokens enc (content message);
      let message_tokens := n + 4 in
      if int_le_mul_07 (recent_tokens + message_tokens) target_tokens
      then walk_back enc target_tokens rest (message :: recent_messages)
                     (recent_tokens + message_tokens)
      else Ok (recent_messages, recent_tokens)
  end.

(** [messages[-n:]] for [n > 0] *)
Definition last_n (n : nat) (messages : list ChatMessage) : list ChatMessage :=
  skipn (length messages - n)%nat messages.

Definition _truncate_conversation (env : Env) (messages : list ChatMessage)
    (target_tokens : Z) : result (list ChatMessage) :=
  match messages with
  | [] => Ok messages
  | _ =>
      if (length messages <=? min_keep_messages)%nat then Ok messages
      else
        enc ← _get_encoding env;
        w ← walk_back enc target_tokens (rev messages) [] 0;
        let recent_messages := fst w in
        if (length recent_messages <? min_keep_messages)%nat
        then Ok (last_n min_keep_messages messages)
        else
          let older_messages :=
            firstn (length messages - length recent_messages)%nat messages in
          match older_messages with
          | [] => Ok recent_messages
          | _ =>
              summary_message ← _create_conversation_summary env older_messages;
              match summary_message with
              | Some s => Ok (s :: recent_messages)
              | None => Ok recent_messages
              end
          end
  end.

Definition available_tokens (env : Env) : result Z :=
  token_limit ← _get_token_limit env;
  Ok (token_limit - response_reserve - system_reserve).

Definition truncate_if_needed (env : Env) (messages : list ChatMessage)
    (new_message_content : string) : result (list ChatMessage) :=
  try_except
    (available ← available_tokens env;
     total_tokens ← _count_conversation_tokens env messages new_message_content;
     if total_tokens <=? available then Ok messages
     else _truncate_conversation env messages available)
    (fun _ => Ok messages).

End Truncation.


(** ** backend/rag/storage.py *)

Module VectorStore.

Definition vector : Type := list R.

(** *** numpy *)

Fixpoint dot (u v : vector) : R :=
  match u, v with
  | x :: u', y :: v' => (x * y + dot u' v')%R
  | _, _ => 0%R
  end.

(** [np.linalg.norm] of one row *)
Definition l2norm (v : vector) : R := sqrt (dot v v).

(** One row of [_normalize_embeddings]: a zero norm is replaced by 1. *)
Definition normalize_row (v : vector) : vector :=
  let n := l2norm v in
  let n := if Req_dec_T n 0 then 1%R else n in
  map (fun x => (x / n)%R) v.

Definition _normalize_embeddings (embeddings : list vector) : list vector :=
  map normalize_row embeddings.

(** *** FAISS [IndexFlatIP]

    The index is the list of the vectors added so far; the position of a
    vector is its FAISS id.  [add] and [search] assert the dimension of
    their argument, and [search] asserts [k > 0]. *)

Definition index_add (d : nat) (idx : list vector) (rows : list vector)
  : result (list vector) :=
  if forallb (fun row => Nat.eqb (length row) d) rows
  then Ok (idx ++ rows)
  else Raise (AssertionError "d == self.d").

(** Insertion into a list ordered by descending score.  The order FAISS
    gives to equal scores is not specified; here the earlier (lower) id stays
    first. *)
Fixpoint insert_desc (c : R * nat) (l : list (R * nat)) : list (R * nat) :=
  match l with
  | [] => [c]
  | d :: l' =>
      if Rle_dec (fst d) (fst c) then c :: l else d :: insert_desc c l'
  end.

Definition sort_desc (l : list (R * nat)) : list (R * nat) :=
  fold_right insert_desc [] l.

(** The inner product of the query with every stored vector, paired with
    the vector's id; [i] is the id of the first vector of [idx]. *)
Fixpoint scores_from (i : nat) (idx : list vector) (q : vector) : list (R * nat) :=
  match idx with
  | [] => []
  | v :: rest => (dot q v, i) :: scores_from (S i) rest q
  end.

Definition scores (idx : list vector) (q : vector) : list (R * nat) :=
  scores_from 0 idx q.

(** [index.search(q, k)] for one query row and [k <= ntotal]: the [k]
    largest inner products, in descending order, with their ids. *)
Definition index_search (d : nat) (idx : list vector) (q : vector) (k : Z)
  : result (list (R * nat)) :=
  if negb (Nat.eqb (length q) d) then Raise (AssertionError "d == self.d")
  else if k <=? 0 then Raise (AssertionError "k > 0")
  else Ok (firstn (Z.to_nat k) (sort_desc (scores idx q))).

(** *** The store *)

(** A metadata dictionary: the key ['item_id'], the flag ['deleted']
    (absent reads as [False]) and the descriptive fields, which the store
    never inspects.  A dictionary without ['item_id'], for which
    [add_embeddings] raises [KeyError] after the vectors are in the index, is
    not a value of the model; nor is a dictionary that the caller shares with
    the store. *)
Record Metadata : Type := mkMetadata {
  item_id : string;
  deleted : bool;
  fields : list (string * string)
}.

Definition mark_deleted (m : Metadata) : Metadata :=
  {| item_id := item_id m; deleted := true; fields := fields m |}.

Record Store : Type := mkStore {
  dimension : nat;
  index : list vector;
  metadata : gmap nat Metadata;
  id_to_faiss : gmap string nat;
  faiss_to_id : gmap nat string;
  next_faiss_id : nat
}.

(** The store in memory and what [_save_index] last wrote ([None]: no
    files yet).  Writing is taken to succeed. *)
Record World : Type := mkWorld {
  mem : Store;
  disk : option Store
}.

Record SearchResult : Type := mkSearchResult {
  sr_metadata : Metadata;
  similarity : R
}.

Record Stats : Type := mkStats {
  total_embeddings : nat;
  active_embeddings : nat;
  deleted_embeddings : nat;
  stats_dimension : nat
}.

Definition ntotal (s : Store) : nat := length (index s).

Definition _create_new_index (d : nat) : Store :=
  {| dimension := d; index := []; metadata := ∅; id_to_faiss := ∅;
     faiss_to_id := ∅; next_faiss_id := 0 |}.

Definition _save_index (s : Store) : World :=
  {| mem := s; disk := Some s |}.

(** The [for i, metadata in enumerate(metadata_list)] loop of
    [add_embeddings]; [faiss_id] is [start_id + i]. *)
Fixpoint store_batch (s : Store) (faiss_id : nat) (metadata_list : list Metadata) : Store :=
  match metadata_list with
  | [] => s
  | m :: rest =>
      store_batch
        {| dimension := dimension s;
           index := index s;
           metadata := <[faiss_id := m]> (metadata s);
           id_to_faiss := <[item_id m := faiss_id]> (id_to_faiss s);
           faiss_to_id := <[faiss_id := item_id m]> (faiss_to_id s);
           next_faiss_id := next_faiss_id s |}
        (S faiss_id) rest
  end.

Definition set_index (s : Store) (idx : list vector) : Store :=
  {| dimension := dimension s; index := idx; metadata := metadata s;
     id_to_faiss := id_to_faiss s; faiss_to_id := faiss_to_id s;
     next_faiss_id := next_faiss_id s |}.

Definition bump_next (s : Store) (n : nat) : Store :=
  {| dimension := dimension s; index := index s; metadata := metadata s;
     id_to_faiss := id_to_faiss s; faiss_to_id := faiss_to_id s;
     next_faiss_id := (next_faiss_id s + n)%nat |}.

(** Returns what the call returns or raises, and the state it leaves. *)
Definition add_embeddings (w : World) (embeddings : list vector)
    (metadata_list : list Metadata) : result unit * World :=
  if negb (Nat.eqb (length embeddings) (length metadata_list)) then
    (Raise (ValueError "Number of embeddings must match number of metadata entries"), w)
  else if Nat.eqb (length embeddings) 0 then (Ok tt, w)
  else
    let s := mem w in
    let normalized_embeddings := _normalize_embeddings embeddings in
    let start_id := next_faiss_id s in
    match index_add (dimension s) (index s) normalized_embeddings with
    | Raise e => (Raise e, w)
    | Ok idx =>
        let s := store_batch (set_index s idx) start_id metadata_list in
        let s := bump_next s (length embeddings) in
        (Ok tt, _save_index s)
    end.

Definition remove_embedding (w : World) (item : string) : World :=
  let s := mem w in
  match id_to_faiss s !! item with
  | None => w
  | Some faiss_id =>
      _save_index
        {| dimension := dimension s;
           index := index s;
           metadata := alter mark_deleted faiss_id (metadata s);
           id_to_faiss := delete item (id_to_faiss s);
           faiss_to_id := faiss_to_id s;
           next_faiss_id := next_faiss_id s |}
  end.

Definition update_embedding (w : World) (item : string) (embedding : vector)
    (m : Metadata) : result unit * World :=
  let w :=
    match id_to_faiss (mem w) !! item with
    | Some _ => remove_embedding w item
    | None => w
    end in
  add_embeddings w [embedding] [m].

(** The loop of [search] over the raw candidates, [results] being the
    list built so far. *)
Fixpoint search_loop (md : gmap nat Metadata) (k : Z) (min_similarity : R)
    (candidates : list (R * nat)) (results : list SearchResult) : list SearchResult :=
  match candidates with
  | [] => results
  | (sim, faiss_id) :: rest =>
      if Rlt_dec sim min_similarity then
        search_loop md k min_similarity rest results
      else
        match md !! faiss_id with
        | Some m =>
            if deleted m then search_loop md k min_similarity rest results
            else
              let results := results ++ [{| sr_metadata := m; similarity := sim |}] in
              if Z.of_nat (length results) >=? k then results
              else search_loop md k min_similarity rest results
        | None =>
            if Z.of_nat (length results) >=? k then results
            else search_loop md k min_similarity rest results
        end
  end.

(** The raw candidates FAISS hands to the loop. *)
Definition candidates (s : Store) (query_embedding : vector) (k : Z)
  : result (list (R * nat)) :=
  index_search (dimension s) (index s) (normalize_row query_embedding)
               (Z.min (k * 2) (Z.of_nat (ntotal s))).

Definition search (s : Store) (query_embedding : vector) (k : Z) (min_similarity : R)
  : list SearchResult :=
  if Nat.eqb (ntotal s) 0 then []
  else
    match candidates s query_embedding k with
    | Ok cands => search_loop (metadata s) k min_similarity cands []
    | Raise _ => []
    end.

Definition get_embedding_metadata (s : Store) (item : string) : option Metadata :=
  match id_to_faiss s !! item with
  | None => None
  | Some faiss_id =>
      match metadata s !! faiss_id with
      | Some m => if deleted m then None else Some m
      | None => None
      end
  end.

Definition get_stats (s : Store) : Stats :=
  let values := map snd (map_to_list (metadata s)) in
  {| total_embeddings := ntotal s;
     active_embeddings := length (List.filter (fun m => negb (deleted m)) values);
     deleted_embeddings := length (List.filter deleted values);
     stats_dimension := dimension s |}.

(** *** Histories of calls *)

Inductive Op : Type :=
  | AddEmbeddings (embeddings : list vector) (metadata_list : list Metadata)
  | UpdateEmbedding (item : string) (embedding : vector) (m : Metadata)
  | RemoveEmbedding (item : string).

Definition step (w : World) (op : Op) : World :=
  match op with
  | AddEmbeddings e ml => snd (add_embeddings w e ml)
  | UpdateEmbedding i e m => snd (update_embedding w i e m)
  | RemoveEmbedding i => remove_embedding w i
  end.

Definition run (w : World) (ops : list Op) : World := fold_left step ops w.

Definition fresh_world (d : nat) : World :=
  {| mem := _create_new_index d; disk := None |}.

(** A guarded call: a batch carries pairwise distinct item ids for which
    [get_embedding_metadata] finds nothing (the check [index_items] makes
    for each item before it adds the batch), an update carries the metadata
    of the item it names, and no metadata arrives flagged [deleted]. *)
Definition guarded (w : World) (op : Op) : Prop :=
  match op with
  | AddEmbeddings _ ml =>
      NoDup (map item_id ml) /\
      Forall (fun m => get_embedding_metadata (mem w) (item_id m) = None
                       /\ deleted m = false) ml
  | UpdateEmbedding i _ m => item_id m = i /\ deleted m = false
  | RemoveEmbedding _ => True
  end.

Inductive reachable (d : nat) : World -> Prop :=
  | reachable_fresh : reachable d (fresh_world d)
  | reachable_step w op : reachable d w -> guarded w op -> reachable d (step w op).

(** No two records that are not deleted carry the same item id. *)
Definition unique_active (s : Store) : Prop :=
  forall i j mi mj,
    metadata s !! i = Some mi -> metadata s !! j = Some mj ->
    deleted mi = false -> deleted mj = false ->
    item_id mi = item_id mj -> i = j.

(** The item id of every record that is not deleted maps to its slot. *)
Definition active_mapped (s : Store) : Prop :=
  forall i m,
    metadata s !! i = Some m -> deleted m = false ->
    id_to_faiss s !! item_id m = Some i.

(** Slots in use lie below the slot counter. *)
Definition slots_bounded (s : Store) : Prop :=
  forall i m, metadata s !! i = Some m -> (i < next_faiss_id s)%nat.

(** Every mapped item id points to a record that carries it and is not
    deleted. *)
Definition mapped_live (s : Store) : Prop :=
  forall item i,
    id_to_faiss s !! item = Some i ->
    exists m, metadata s !! i = Some m /\ item_id m = item /\ deleted m = false.

(** What guarded calls keep true. *)
Definition store_inv (s : Store) : Prop :=
  slots_bounded s /\ active_mapped s /\ mapped_live s.

(** [slots] are distinct slots whose record is not deleted and whose
    vector has a similarity to the (normalised) query of at least
    [min_similarity]. *)
Definition qualifying (s : Store) (query_embedding : vector) (min_similarity : R)
    (slots : list nat) : Prop :=
  NoDup slots /\
  Forall (fun i => exists v m,
            index s !! i = Some v /\ metadata s !! i = Some m /\ deleted m = false
            /\ (min_similarity <= dot (normalize_row query_embedding) v)%R) slots.

End VectorStore.

(** ** backend/rag/retrieval.py *)

Module Retrieval.

(** A retrieved item: the keys [create_context_prompt] reads. *)
Record Item : Type := mkItem {
  item_similarity : option R;
  title : option string;
  url : option string;
  author : option string;
  item_content : option string;
  summary : option string
}.

Fixpoint join (sep : string) (parts : list string) : string :=
  match parts with
  | [] => EmptyString
  | [p] => p
  | p :: rest => (p ++ sep ++ join sep rest)%string
  end.

Definition header : string := "Based on the following relevant information:".

(** The running length before the first item:
    [len("\n".join(context_parts))] for the two opening parts. *)
Definition initial_length : Z := str_len (join nl [header; EmptyString]).

Section Prompt.

(** Python's [format(x, '.2f')] of a float. *)
Variable format_2f : R -> string.

Definition opt_line (label : string) (field : option string) : string :=
  if truthy field then (nl ++ label ++ default EmptyString field)%string
  else EmptyString.

(** The text built for one item, before the budget check. *)
Definition item_summary (max_context_length current_length : Z) (i : nat) (item : Item)
  : string :=
  let s := ("Source " ++ pretty i ++ " (similarity: "
            ++ format_2f (default 0%R (item_similarity item)) ++ "):")%string in
  let s := (s ++ opt_line "Title: " (title item))%string in
  let s := (s ++ opt_line "URL: " (url item))%string in
  let s := (s ++ opt_line "Author: " (author item))%string in
  let content :=
    if truthy (item_content item) then default EmptyString (item_content item)
    else default EmptyString (summary item) in
  let s :=
    if str_truthy content then
      let remaining_space := max_context_length - current_length - str_len s - 100 in
      if remaining_space >? 100 then
        let content :=
          if str_len content >? remaining_space
          then (String.substring 0 (Z.to_nat remaining_space) content ++ "...")%string
          else content in
        (s ++ nl ++ "Content: " ++ content)%string
      else s
    else s in
  (s ++ nl)%string.

(** The [for i, item in enumerate(retrieved_items, 1)] loop. *)
Fixpoint add_items (max_context_length : Z) (i : nat) (items : list Item)
    (context_parts : list string) (current_length : Z) : list string :=
  match items with
  | [] => context_parts
  | item :: rest =>
      let s := item_summary max_context_length current_length i item in
      if current_length + str_len s >? max_context_length then context_parts
      else add_items max_context_length (S i) rest (context_parts ++ [s])
                     (current_length + str_len s)
  end.

Definition create_context_prompt (query : string) (retrieved_items : list Item)
    (max_context_length : Z) : string :=
  match retrieved_items with
  | [] => EmptyString
  | _ =>
      let context_parts := [header; EmptyString] in
      let current_length := str_len (join nl context_parts) in
      let context_parts :=
        add_items max_context_length 1 retrieved_items context_parts current_length in
      join nl (context_parts ++ [("Query: " ++ query)%string; EmptyString])
  end.

(** The summaries of the first [n] items, each built at the running
    length left by those before it. *)
Fixpoint rendered (max_context_length : Z) (i : nat) (items : list Item)
    (current_length : Z) (n : nat) {struct n} : list string :=
  match n, items with
  | S n', item :: rest =>
      let s := item_summary max_context_length current_length i item in
      s :: rendered max_context_length (S i) rest (current_length + str_len s) n'
  | _, _ => []
  end.

Definition total_len (parts : list string) : Z :=
  fold_right (fun p acc => str_len p + acc) 0 parts.

End Prompt.

Definition ends_with (s suffix : string) : Prop :=
  exists prefix, s = (prefix ++ suffix)%string.

End Retrieval.

(** ** backend/chat/truncation.py: statistics *)

Module TruncationMore.

Import Truncation.

Record TruncationStats : Type := mkTruncationStats {
  token_limit : Z;
  stats_response_reserve : Z;
  stats_system_reserve : Z;
  stats_available_tokens : Z;
  stats_active_provider : option string;
  stats_active_model : option string
}.

(** The dictionary is built key by key: the limit is read twice, the
    configuration last, and reading the configuration may raise. *)
Definition get_truncation_stats (env : Env) : result TruncationStats :=
  limit ← _get_token_limit env;
  limit' ← _get_token_limit env;
  cfg ← config env;
  Ok {| token_limit := limit;
        stats_response_reserve := response_reserve;
        stats_system_reserve := system_reserve;
        stats_available_tokens := limit' - response_reserve - system_reserve;
        stats_active_provider := active_provider cfg;
        stats_active_model := active_model cfg |}.

(** Every call to the provider raises. *)
Definition provider_unreachable (env : Env) : Prop :=
  forall p m prompt, exists e, adapter_chat env p m prompt = Raise e.

End TruncationMore.

(** ** backend/chat/session.py *)

Module Session.

(** A message as the provider adapters take it. *)
Record LLMMessage : Type := mkLLMMessage {
  llm_role : string;
  llm_content : string
}.

(** [role.value] *)
Definition role_value (r : MessageRole) : string :=
  match r with
  | SYSTEM => "system"
  | USER => "user"
  | ASSISTANT => "assistant"
  end.

(** [content[:n] + "..."] when [content] is longer than [n]. *)
Definition excerpt (n : nat) (content : string) : string :=
  if (n <? String.length content)%nat
  then (String.substring 0 n content ++ "...")%string
  else content.

(** The text built for one context item in [_format_context_items]. *)
Definition context_part (i : nat) (item : Retrieval.Item) : string :=
  let part := (nl ++ "Source " ++ pretty i ++ ":")%string in
  let part := (part ++ Retrieval.opt_line "Title: " (Retrieval.title item))%string in
  let part := (part ++ Retrieval.opt_line "URL: " (Retrieval.url item))%string in
  let content :=
    if truthy (Retrieval.item_content item) then Retrieval.item_content item
    else Retrieval.summary item in
  if truthy content
  then (part ++ nl ++ "Content: " ++ excerpt 300 (default EmptyString content))%string
  else part.

(** [for i, item in enumerate(items, i)] *)
Fixpoint context_parts (i : nat) (items : list Retrieval.Item) : list string :=
  match items with
  | [] => []
  | item :: rest => context_part i item :: context_parts (S i) rest
  end.

Definition _format_context_items (context_items : list Retrieval.Item) : string :=
  match context_items with
  | [] => EmptyString
  | _ => Retrieval.join nl (context_parts 1 (firstn 3 context_items))
  end.

Definition is_dialogue (r : MessageRole) : bool :=
  match r with
  | USER | ASSISTANT => true
  | SYSTEM => false
  end.

(** [system_prompt] is [config.inference_defaults.system_prompt]. *)
Definition _prepare_llm_messages (system_prompt : string)
    (conversation_history : list ChatMessage) (context_items : list Retrieval.Item)
  : list LLMMessage :=
  let system_prompt :=
    match context_items with
    | [] => system_prompt
    | _ => (system_prompt ++ nl ++ nl ++ "Relevant context from your knowledge base:"
            ++ nl ++ _format_context_items context_items)%string
    end in
  {| llm_role := "system"; llm_content := system_prompt |}
  :: map (fun msg => {| llm_role := role_value (role msg); llm_content := content msg |})
       (List.filter (fun msg => is_dialogue (role msg)) conversation_history).

(** The test of [process_message] that decides whether the truncated
    conversation is written back:
    [len(truncated_history) < len(conversation_history)]. *)
Definition truncation_detected (conversation_history truncated_history : list ChatMessage)
  : bool :=
  (length truncated_history <? length conversation_history)%nat.

End Session.

(** ** backend/rag/storage.py: compaction, and what every history keeps *)

Module StoreMore.

Import VectorStore.

(** The item ids [cleanup_deleted] collects: those of the records that are
    not deleted and whose slot has a non-empty entry in [faiss_to_id].  The
    code walks the dictionary in insertion order; only whether the list is
    empty matters. *)
Definition active_items (s : Store) : list string :=
  omap (fun entry : nat * Metadata =>
          if deleted (snd entry) then None
          else match faiss_to_id s !! fst entry with
               | Some item => if str_truthy item then Some item else None
               | None => None
               end)
       (map_to_list (metadata s)).

(** [cleanup_deleted]: nothing to do without metadata; a fresh index when
    no active item is left; otherwise the request is only logged. *)
Definition cleanup_deleted (w : World) : World :=
  let s := mem w in
  match map_to_list (metadata s) with
  | [] => w
  | _ =>
      match active_items s with
      | [] => _save_index (_create_new_index (dimension s))
      | _ => w
      end
  end.

(** The slot counter is the size of the index, and the slots in use are
    exactly those below it. *)
Definition dense (s : Store) : Prop :=
  next_faiss_id s = ntotal s
  /\ size (metadata s) = next_faiss_id s
  /\ slots_bounded s.

(** The reverse mapping knows the item id of every record. *)
Definition records_indexed (s : Store) : Prop :=
  forall i m, metadata s !! i = Some m -> faiss_to_id s !! i = Some (item_id m).

Definition well_formed (s : Store) : Prop :=
  dense s /\ records_indexed s.

(** The similarities of a result list, in order. *)
Definition similarities (results : list SearchResult) : list R :=
  map similarity results.

(** [l] is in descending order. *)
Definition descending (l : list R) : Prop :=
  StronglySorted (fun a b => (b <= a)%R) l.

(** A checked call: a batch carries pairwise distinct item ids for which
    [get_embedding_metadata] finds nothing (the check [index_items] makes
    for each item before it adds the batch), and the metadata of an update
    carries the id the update names or, again, one for which
    [get_embedding_metadata] finds nothing.  Metadata may arrive flagged
    deleted. *)
Definition checked (w : World) (op : Op) : Prop :=
  match op with
  | AddEmbeddings _ ml =>
      NoDup (map item_id ml) /\
      Forall (fun m => get_embedding_metadata (mem w) (item_id m) = None) ml
  | UpdateEmbedding i _ m =>
      item_id m = i \/ get_embedding_metadata (mem w) (item_id m) = None
  | RemoveEmbedding _ => True
  end.

(** What checked calls keep true. *)
Definition kept (s : Store) : Prop := slots_bounded s /\ active_mapped s.

(** The states reached from an empty store by checked calls. *)
Inductive reachable_checked (d : nat) : World -> Prop :=
  | reachable_checked_fresh : reachable_checked d (fresh_world d)
  | reachable_checked_step w op :
      reachable_checked d w -> checked w op -> reachable_checked d (step w op).

(** What the search loop makes of one raw candidate, read off the spec's
    words (deleted and below-threshold candidates are filtered out): nothing
    for a score below the threshold, for a slot without a record and for a
    deleted record; otherwise the record with the candidate's own score. *)
Definition accept (md : gmap nat Metadata) (min_similarity : R) (c : R * nat)
  : option SearchResult :=
  if Rlt_dec (fst c) min_similarity then None
  else
    match md !! snd c with
    | Some m => if deleted m then None
                else Some {| sr_metadata := m; similarity := fst c |}
    | None => None
    end.

(** The candidates that pass, in the order FAISS returned them. *)
Definition accepted (md : gmap nat Metadata) (min_similarity : R)
    (cands : list (R * nat)) : list SearchResult :=
  omap (accept md min_similarity) cands.

(** A candidate at or above the threshold. *)
Definition not_below (min_similarity : R) (c : R * nat) : bool :=
  if Rlt_dec (fst c) min_similarity then false else true.

(** Candidates in descending order of score. *)
Definition by_score (a b : R * nat) : Prop := (fst b <= fst a)%R.

End StoreMore.

(** ** backend/rag/embeddings.py: similarity of two embeddings *)

Module Embeddings.

Import VectorStore.

(** [np.clip(x, lo, hi)] *)
Definition clip (x lo hi : R) : R :=
  if Rlt_dec x lo then lo else if Rlt_dec hi x then hi else x.

(** [compute_similarity]: [0.0] when a norm is zero; [np.dot] raises on
    vectors of different lengths and the handler returns [0.0]. *)
Definition compute_similarity (embedding1 embedding2 : vector) : R :=
  let norm1 := l2norm embedding1 in
  let norm2 := l2norm embedding2 in
  if Req_dec_T norm1 0 then 0%R
  else if Req_dec_T norm2 0 then 0%R
  else if negb (Nat.eqb (length embedding1) (length embedding2)) then 0%R
  else clip (dot embedding1 embedding2 / (norm1 * norm2)) (-1) 1.

(** [text.split()]: the maximal runs of characters that are not white
    space ([cur] is the run being read, last character first). *)
Fixpoint words (l : list ascii) (cur : list ascii) : list (list ascii) :=
  match l with
  | [] => match cur with [] => [] | _ => [rev cur] end
  | c :: r =>
      if is_py_space c then
        match cur with
        | [] => words r []
        | _ => rev cur :: words r []
        end
      else words r (c :: cur)
  end.

Definition split (text : string) : list string :=
  map string_of_list_ascii (words (list_ascii_of_string text) []).

Definition _clean_text (text : string) : string :=
  if negb (str_truthy text) then EmptyString
  else
    let cleaned := Retrieval.join " " (split text) in
    let max_chars := 8000 in
    if str_len cleaned >? max_chars
    then (String.substring 0 (Z.to_nat max_chars) cleaned ++ "...")%string
    else cleaned.

(** [np.zeros(n)] *)
Definition zeros (n : nat) : vector := repeat 0%R n.

Section Model.

(** [_load_model], which may raise; the dimension it leaves in
    [embedding_dim]; and [model.encode([text])[0]]. *)
Variable _load_model : result unit.
Variable embedding_dim : nat.
Variable model_encode : string -> result vector.

Definition encode_text (text : string) : result vector :=
  _ ← _load_model;
  if negb (str_truthy text) || negb (str_truthy (strip text)) then Ok (zeros embedding_dim)
  else
    try_except (model_encode (_clean_text text))
               (fun _ => Ok (zeros embedding_dim)).

End Model.

End Embeddings.

(** ** backend/rag/engine.py *)

Module Engine.

Import VectorStore.

(** [models.source.SourceItem]; [raw] is a dictionary of strings and the
    [embedding] field, which the engine never reads, is left out. *)
Record SourceItem : Type := mkSourceItem {
  id : string;
  title : string;
  url : string;
  published_at : datetime;
  summary : option string;
  content : option string;
  author : option string;
  tags : list string;
  raw : list (string * string)
}.

(** The text [index_items] and [update_item_index] embed for an item:
    title, summary and the first 5000 characters of the content, one per
    line, each only when present and non-empty. *)
Definition combined_text (item : SourceItem) : string :=
  let text_parts := [] in
  let text_parts :=
    if str_truthy (title item)
    then text_parts ++ [("Title: " ++ title item)%string] else text_parts in
  let text_parts :=
    if truthy (summary item)
    then text_parts ++ [("Summary: " ++ default EmptyString (summary item))%string]
    else text_parts in
  let text_parts :=
    if truthy (content item) then
      let c := default EmptyString (content item) in
      let c := if str_len c >? 5000 then String.substring 0 5000 c else c in
      text_parts ++ [("Content: " ++ c)%string]
    else text_parts in
  Retrieval.join nl text_parts.

Section Engine.

(** [EmbeddingManager.encode_batch] and [encode_text], which run the
    sentence-transformers model; loading the model can raise. *)
Variable encode_batch : list string -> result (list vector).
Variable encode_text : string -> result vector.

(** The descriptive fields of an item's metadata (text hash, source id,
    text length, creation time, title, url, publication date, author, tags). *)
Variable describe : SourceItem -> string -> list (string * string).

(** [create_embedding_metadata] followed by [metadata.update]: the item id
    is the item's, and no ['deleted'] key is set. *)
Definition item_metadata (item : SourceItem) (text : string) : Metadata :=
  {| item_id := id item; deleted := false; fields := describe item text |}.

(** The loop of [index_items] over the items: those already found by
    [get_embedding_metadata] and those without text are skipped. *)
Fixpoint collect (s : Store) (items : list SourceItem)
    (texts : list string) (metadata_list : list Metadata)
  : list string * list Metadata :=
  match items with
  | [] => (texts, metadata_list)
  | item :: rest =>
      match get_embedding_metadata s (id item) with
      | Some _ => collect s rest texts metadata_list
      | None =>
          let text := combined_text item in
          if negb (str_truthy (strip text)) then collect s rest texts metadata_list
          else collect s rest (texts ++ [text]) (metadata_list ++ [item_metadata item text])
      end
  end.

(** The items [collect] keeps, and the metadata it builds for one. *)
Definition wanted (s : Store) (item : SourceItem) : bool :=
  match get_embedding_metadata s (id item) with
  | Some _ => false
  | None => str_truthy (strip (combined_text item))
  end.

Definition metadata_of (item : SourceItem) : Metadata :=
  item_metadata item (combined_text item).

Definition index_items (w : World) (items : list SourceItem) : result unit * World :=
  match items with
  | [] => (Ok tt, w)
  | _ =>
      let (texts, metadata_list) := collect (mem w) items [] [] in
      match texts with
      | [] => (Ok tt, w)
      | _ =>
          match encode_batch texts with
          | Raise e => (Raise e, w)
          | Ok embeddings => add_embeddings w embeddings metadata_list
          end
      end
  end.

(** [update_item_index] logs what is raised and returns. *)
Definition update_item_index (w : World) (item : SourceItem) : World :=
  let text := combined_text item in
  if negb (str_truthy (strip text)) then w
  else
    match encode_text text with
    | Raise _ => w
    | Ok embedding =>
        snd (update_embedding w (id item) embedding (item_metadata item text))
    end.

Definition remove_item_index (w : World) (item : string) : World :=
  remove_embedding w item.

Definition cleanup_index (w : World) : World :=
  StoreMore.cleanup_deleted w.

(** Histories of calls on the engine. *)
Inductive Call : Type :=
  | IndexItems (items : list SourceItem)
  | UpdateItemIndex (item : SourceItem)
  | RemoveItemIndex (item : string)
  | CleanupIndex.

Definition call (w : World) (c : Call) : World :=
  match c with
  | IndexItems items => snd (index_items w items)
  | UpdateItemIndex item => update_item_index w item
  | RemoveItemIndex item => remove_item_index w item
  | CleanupIndex => cleanup_index w
  end.

Definition calls (w : World) (cs : list Call) : World := fold_left call cs w.

(** Every [index_items] call of a history is given items with pairwise
    distinct ids. *)
Definition distinct_batches (cs : list Call) : Prop :=
  Forall (fun c => match c with
                   | IndexItems items => NoDup (map id items)
                   | _ => True
                   end) cs.

End Engine.

End Engine.

(** ** backend/rag/retrieval.py: retrieval *)

Module RetrieveContext.

Import VectorStore.

(** [models.source.Source], of which only the items are read. *)
Record Source : Type := mkSource {
  items : list Engine.SourceItem
}.

(** The dictionary [_enrich_results] builds for one result. *)
Record Enriched : Type := mkEnriched {
  er_item_id : string;
  er_similarity : R;
  er_title : string;
  er_content : option string;
  er_summary : option string;
  er_url : string;
  er_source_id : option string;
  er_published_at : datetime;
  er_author : option string;
  er_tags : list string
}.

(** [l[:n]] *)
Definition slice_to {A : Type} (n : Z) (l : list A) : list A :=
  if 0 <=? n then firstn (Z.to_nat n) l
  else firstn (length l - Z.to_nat (- n)) l.

(** [result.get('source_id')] *)
Definition source_id (r : SearchResult) : option string :=
  Truncation.dict_get (fields (sr_metadata r)) "source_id".

(** [x in source_filter] for a value that may be [None] *)
Definition in_filter (x : option string) (source_filter : list string) : bool :=
  match x with
  | Some v => existsb (String.eqb v) source_filter
  | None => false
  end.

Section Retrieve.

(** [EmbeddingManager.encode_text] and [SourceManager().list_sources()]. *)
Variable encode_text : string -> result vector.
Variable list_sources : result (list Source).

(** The first item with the id, sources and items taken in order; [None]
    when there is none or when the sources cannot be listed. *)
Definition _get_item_data (item : string) : option Engine.SourceItem :=
  match list_sources with
  | Raise _ => None
  | Ok sources =>
      List.find (fun i => String.eqb (Engine.id i) item) (concat (map items sources))
  end.

Fixpoint _enrich_results (results : list SearchResult) : list Enriched :=
  match results with
  | [] => []
  | result :: rest =>
      let item := item_id (sr_metadata result) in
      if negb (str_truthy item) then _enrich_results rest
      else
        match _get_item_data item with
        | Some item_data =>
            {| er_item_id := item;
               er_similarity := similarity result;
               er_title := Engine.title item_data;
               er_content := Engine.content item_data;
               er_summary := Engine.summary item_data;
               er_url := Engine.url item_data;
               er_source_id := source_id result;
               er_published_at := Engine.published_at item_data;
               er_author := Engine.author item_data;
               er_tags := Engine.tags item_data |} :: _enrich_results rest
        | None => _enrich_results rest
        end
  end.

Definition retrieve_context (s : Store) (query : string) (max_items : Z)
    (min_similarity : R) (source_filter : option (list string)) : list Enriched :=
  if negb (str_truthy query) || negb (str_truthy (strip query)) then []
  else
    match encode_text query with
    | Raise _ => []
    | Ok query_embedding =>
        let results := search s query_embedding (max_items * 2) min_similarity in
        let results :=
          match source_filter with
          | Some ((_ :: _) as allowed) =>
              List.filter (fun r => in_filter (source_id r) allowed) results
          | _ => results
          end in
        let results := slice_to max_items results in
        _enrich_results results
    end.

End Retrieve.

End RetrieveContext.

(** ** backend/chat/session.py: reading the history *)

Module SessionHistory.

(** [get_messages] on the cached messages: [messages[offset:]] only for a
    positive offset, then [messages[:limit]] when a limit is given. *)
Definition get_messages (cached : list ChatMessage) (limit : option Z) (offset : Z)
  : list ChatMessage :=
  let messages := cached in
  let messages := if offset >? 0 then skipn (Z.to_nat offset) messages else messages in
  match limit with
  | Some n => RetrieveContext.slice_to n messages
  | None => messages
  end.

End SessionHistory.

(** ** backend/utils/file_utils.py *)

Module FileUtils.

Section ReadJsonl.

(** The parsed values, and [json.loads] of one line, [None] standing for a
    [JSONDecodeError]. *)
Variable J : Type.
Variable json_loads : string -> option J.

(** [limit and len(messages) >= limit] *)
Definition limit_reached (limit : option Z) (messages : list J) : bool :=
  match limit with
  | Some n => negb (n =? 0) && (Z.of_nat (length messages) >=? n)
  | None => false
  end.

(** The loop over the lines of the file. *)
Fixpoint read_lines (limit : option Z) (lines : list string) (messages : list J) : list J :=
  match lines with
  | [] => messages
  | line :: rest =>
      if str_truthy (strip line) then
        match json_loads line with
        | Some value =>
            let messages := messages ++ [value] in
            if limit_reached limit messages then messages
            else read_lines limit rest messages
        | None => read_lines limit rest messages
        end
      else read_lines limit rest messages
  end.

(** [file] is [None] when the file does not exist. *)
Definition read_jsonl (file : option (list string)) (limit : option Z) : list J :=
  match file with
  | None => []
  | Some lines => read_lines limit lines []
  end.

(** The values of the lines that are not blank and parse, in order. *)
Definition parsed (lines : list string) : list J :=
  omap json_loads (List.filter (fun line => str_truthy (strip line)) lines).

End ReadJsonl.

(** The number of values after which the loop of [read_jsonl] stops. *)
Definition cap (limit : option Z) : option nat :=
  match limit with
  | None => None
  | Some n => if n =? 0 then None else if 0 <? n then Some (Z.to_nat n) else Some 1%nat
  end.

Definition take_opt {A : Type} (c : option nat) (l : list A) : list A :=
  match c with
  | None => l
  | Some n => firstn n l
  end.

End FileUtils.

(** ** backend/rag/storage.py: normalisation in the arithmetic of the machine *)

Module Normalization.

Import VectorStore.

Section Arithmetic.

(** [np.linalg.norm] of one row and the quotient of two numbers as the
    machine computes them (in float32 for the store), and
    [IndexFlatIP.search] in the same arithmetic: any functions on the reals,
    of which exact arithmetic ([l2norm], [Rdiv]) is one instance.
    Infinities and NaN are not values of the model. *)
Variable norm : vector -> R.
Variable divide : R -> R -> R.
Variable index_search : nat -> list vector -> vector -> Z -> result (list (R * nat)).

(** One row of [_normalize_embeddings]: [norms[norms == 0] = 1], then
    [embeddings / norms]. *)
Definition normalize_row (v : vector) : vector :=
  let n := norm v in
  let n := if Req_dec_T n 0 then 1%R else n in
  map (fun x => divide x n) v.

Definition _normalize_embeddings (embeddings : list vector) : list vector :=
  map normalize_row embeddings.

Definition add_embeddings (w : World) (embeddings : list vector)
    (metadata_list : list Metadata) : result unit * World :=
  if negb (Nat.eqb (length embeddings) (length metadata_list)) then
    (Raise (ValueError "Number of embeddings must match number of metadata entries"), w)
  else if Nat.eqb (length embeddings) 0 then (Ok tt, w)
  else
    let s := mem w in
    let normalized_embeddings := _normalize_embeddings embeddings in
    let start_id := next_faiss_id s in
    match index_add (dimension s) (index s) normalized_embeddings with
    | Raise e => (Raise e, w)
    | Ok idx =>
        let s := store_batch (set_index s idx) start_id metadata_list in
        let s := bump_next s (length embeddings) in
        (Ok tt, _save_index s)
    end.

Definition search (s : Store) (query_embedding : vector) (k : Z) (min_similarity : R)
  : list SearchResult :=
  if Nat.eqb (ntotal s) 0 then []
  else
    let normalized_query := normalize_row query_embedding in
    match index_search (dimension s) (index s) normalized_query
            (Z.min (k * 2) (Z.of_nat (ntotal s))) with
    | Ok cands => search_loop (metadata s) k min_similarity cands []
    | Raise _ => []
    end.

End Arithmetic.

End Normalization.

(** ** backend/rag/storage.py: the store with its dictionaries as objects

    [VectorStore] above takes every metadata dictionary by value and with
    its ['item_id'].  Here a dictionary is an object on a heap: the store
    keeps references, [get_embedding_metadata] hands one out,
    [remove_embedding] writes ['deleted'] into the object itself, and the
    loop of [add_embeddings] raises [KeyError] at a dictionary that has no
    ['item_id'].  Vectors are normalised as in [VectorStore]. *)

Module ObjectStore.

(** The content of a metadata dictionary: the keys ['item_id'] and
    ['deleted'], each when present, and the other keys. *)
Record Dict : Type := mkDict {
  d_item_id : option string;
  d_deleted : option bool;
  d_fields : list (string * string)
}.

(** [bool(metadata)]: a dictionary without keys is falsy. *)
Definition dict_truthy (d : Dict) : bool :=
  match d_item_id d, d_deleted d, d_fields d with
  | None, None, [] => false
  | _, _, _ => true
  end.

(** [metadata.get('deleted', False)] *)
Definition is_deleted (d : Dict) : bool := default false (d_deleted d).

(** [metadata['deleted'] = True] *)
Definition set_deleted (d : Dict) : Dict :=
  {| d_item_id := d_item_id d; d_deleted := Some true; d_fields := d_fields d |}.

(** Objects are named by their identity; the heap gives the content of
    each. *)
Definition ref : Type := nat.

Definition Heap : Type := ref -> Dict.

Definition heap_set (h : Heap) (r : ref) (d : Dict) : Heap :=
  fun r' => if Nat.eqb r' r then d else h r'.

Record Store : Type := mkStore {
  dimension : nat;
  index : list VectorStore.vector;
  metadata : gmap nat ref;
  id_to_faiss : gmap string nat;
  faiss_to_id : gmap nat string;
  next_faiss_id : nat
}.

(** What [_save_index] writes: the index, the content of every record,
    the two mappings and the slot counter. *)
Record Saved : Type := mkSaved {
  saved_index : list VectorStore.vector;
  saved_metadata : gmap nat Dict;
  saved_id_to_faiss : gmap string nat;
  saved_faiss_to_id : gmap nat string;
  saved_next_faiss_id : nat
}.

(** The heap, the store in memory and what was last written ([None]: no
    files yet).  Writing is taken to succeed. *)
Record World : Type := mkWorld {
  heap : Heap;
  mem : Store;
  disk : option Saved
}.

Definition ntotal (s : Store) : nat := length (index s).

Definition _create_new_index (d : nat) : Store :=
  {| dimension := d; index := []; metadata := ∅; id_to_faiss := ∅;
     faiss_to_id := ∅; next_faiss_id := 0 |}.

Definition fresh_world (h : Heap) (d : nat) : World :=
  {| heap := h; mem := _create_new_index d; disk := None |}.

Definition snapshot (h : Heap) (s : Store) : Saved :=
  {| saved_index := index s;
     saved_metadata := h <$> metadata s;
     saved_id_to_faiss := id_to_faiss s;
     saved_faiss_to_id := faiss_to_id s;
     saved_next_faiss_id := next_faiss_id s |}.

Definition _save_index (h : Heap) (s : Store) : World :=
  {| heap := h; mem := s; disk := Some (snapshot h s) |}.

Definition set_index (s : Store) (idx : list VectorStore.vector) : Store :=
  {| dimension := dimension s; index := idx; metadata := metadata s;
     id_to_faiss := id_to_faiss s; faiss_to_id := faiss_to_id s;
     next_faiss_id := next_faiss_id s |}.

Definition bump_next (s : Store) (n : nat) : Store :=
  {| dimension := dimension s; index := index s; metadata := metadata s;
     id_to_faiss := id_to_faiss s; faiss_to_id := faiss_to_id s;
     next_faiss_id := (next_faiss_id s + n)%nat |}.

(** One turn of the loop of [add_embeddings], after ['item_id'] was read. *)
Definition record (s : Store) (faiss_id : nat) (m : ref) (item : string) : Store :=
  {| dimension := dimension s;
     index := index s;
     metadata := <[faiss_id := m]> (metadata s);
     id_to_faiss := <[item := faiss_id]> (id_to_faiss s);
     faiss_to_id := <[faiss_id := item]> (faiss_to_id s);
     next_faiss_id := next_faiss_id s |}.

(** The [for i, metadata in enumerate(metadata_list)] loop of
    [add_embeddings]; [faiss_id] is [start_id + i].  [metadata['item_id']]
    raises [KeyError] when the key is missing, and what the earlier turns
    stored stays. *)
Fixpoint store_batch (h : Heap) (s : Store) (faiss_id : nat) (metadata_list : list ref)
  : result unit * Store :=
  match metadata_list with
  | [] => (Ok tt, s)
  | m :: rest =>
      match d_item_id (h m) with
      | None => (Raise (KeyError "item_id"), s)
      | Some item => store_batch h (record s faiss_id m item) (S faiss_id) rest
      end
  end.

(** Returns what the call returns or raises, and the state it leaves. *)
Definition add_embeddings (w : World) (embeddings : list VectorStore.vector)
    (metadata_list : list ref) : result unit * World :=
  if negb (Nat.eqb (length embeddings) (length metadata_list)) then
    (Raise (ValueError "Number of embeddings must match number of metadata entries"), w)
  else if Nat.eqb (length embeddings) 0 then (Ok tt, w)
  else
    let s := mem w in
    let normalized_embeddings := VectorStore._normalize_embeddings embeddings in
    let start_id := next_faiss_id s in
    match VectorStore.index_add (dimension s) (index s) normalized_embeddings with
    | Raise e => (Raise e, w)
    | Ok idx =>
        match store_batch (heap w) (set_index s idx) start_id metadata_list with
        | (Raise e, s) => (Raise e, {| heap := heap w; mem := s; disk := disk w |})
        | (Ok _, s) =>
            let s := bump_next s (length embeddings) in
            (Ok tt, _save_index (heap w) s)
        end
    end.

Definition remove_embedding (w : World) (item : string) : World :=
  let s := mem w in
  match id_to_faiss s !! item with
  | None => w
  | Some faiss_id =>
      let h :=
        match metadata s !! faiss_id with
        | Some m => heap_set (heap w) m (set_deleted (heap w m))
        | None => heap w
        end in
      _save_index h
        {| dimension := dimension s;
           index := index s;
           metadata := metadata s;
           id_to_faiss := delete item (id_to_faiss s);
           faiss_to_id := faiss_to_id s;
           next_faiss_id := next_faiss_id s |}
  end.

Definition update_embedding (w : World) (item : string) (embedding : VectorStore.vector)
    (m : ref) : result unit * World :=
  let w :=
    match id_to_faiss (mem w) !! item with
    | Some _ => remove_embedding w item
    | None => w
    end in
  add_embeddings w [embedding] [m].

(** The dictionary returned is the stored object itself. *)
Definition get_embedding_metadata (w : World) (item : string) : option ref :=
  match id_to_faiss (mem w) !! item with
  | None => None
  | Some faiss_id =>
      match metadata (mem w) !! faiss_id with
      | Some m =>
          if dict_truthy (heap w m) && negb (is_deleted (heap w m)) then Some m else None
      | None => None
      end
  end.

Definition get_stats (w : World) : VectorStore.Stats :=
  let values := map (fun e => heap w (snd e)) (map_to_list (metadata (mem w))) in
  {| VectorStore.total_embeddings := ntotal (mem w);
     VectorStore.active_embeddings :=
       length (List.filter (fun m => negb (is_deleted m)) values);
     VectorStore.deleted_embeddings := length (List.filter is_deleted values);
     VectorStore.stats_dimension := dimension (mem w) |}.

(** *** Histories of calls *)

Inductive Op : Type :=
  | AddEmbeddings (embeddings : list VectorStore.vector) (metadata_list : list ref)
  | UpdateEmbedding (item : string) (embedding : VectorStore.vector) (m : ref)
  | RemoveEmbedding (item : string).

Definition step (w : World) (op : Op) : World :=
  match op with
  | AddEmbeddings e ml => snd (add_embeddings w e ml)
  | UpdateEmbedding i e m => snd (update_embedding w i e m)
  | RemoveEmbedding i => remove_embedding w i
  end.

Definition run (w : World) (ops : list Op) : World := fold_left step ops w.

(** Every dictionary the call is given has the key ['item_id']. *)
Definition keyed (h : Heap) (op : Op) : Prop :=
  match op with
  | AddEmbeddings _ ml => Forall (fun m => d_item_id (h m) <> None) ml
  | UpdateEmbedding _ _ m => d_item_id (h m) <> None
  | RemoveEmbedding _ => True
  end.

(** What was last written is the store in memory, or nothing was written
    and the store is as created. *)
Definition synced (d : nat) (w : World) : Prop :=
  disk w = Some (snapshot (heap w) (mem w))
  \/ (disk w = None /\ mem w = _create_new_index d).

(** The slot counter is the size of the index, and the slots in use are
    exactly those below it. *)
Definition dense (s : Store) : Prop :=
  next_faiss_id s = ntotal s
  /\ size (metadata s) = next_faiss_id s
  /\ (forall i m, metadata s !! i = Some m -> (i < next_faiss_id s)%nat).

End ObjectStore.

(** ** Sample inputs

    Concrete environments and inputs on which the theorems below are
    evaluated. *)

Module Samples.

Import Truncation.

(** A tokenizer that emits one token per character. *)
Definition char_encoding : Encoding :=
  fun s => Ok (map nat_of_ascii (list_ascii_of_string s)).

(** OpenAI's gpt-3.5-turbo is configured (limit 4096, 2596 available),
    but the provider cannot be reached. *)
Definition offline_env : Env :=
  {| config := Ok {| active_provider := Some "openai"%string;
                     active_model := Some "gpt-3.5-turbo"%string |};
     tiktoken_get_encoding := fun _ => Ok char_encoding;
     adapter_chat := fun _ _ _ => Raise (RuntimeError "connection refused");
     now := 1000;
     strftime_ymd_hm := fun t => Ok (pretty t);
     isoformat := fun t => pretty t |}.

(** The same configuration with a tokenizer that cannot be loaded. *)
Definition no_tokenizer_env : Env :=
  {| config := config offline_env;
     tiktoken_get_encoding := fun _ => Raise (RuntimeError "cannot load cl100k_base");
     adapter_chat := adapter_chat offline_env;
     now := now offline_env;
     strftime_ymd_hm := strftime_ymd_hm offline_env;
     isoformat := isoformat offline_env |}.

Definition text_of_length (n : nat) : string :=
  string_of_list_ascii (repeat "a"%char n).

Definition sample_message (len i : nat) : ChatMessage :=
  {| id := ("m" ++ pretty i)%string;
     role := if Nat.even i then USER else ASSISTANT;
     content := text_of_length len;
     timestamp := Z.of_nat i;
     provider := None;
     model := None;
     usage := None;
     metadata := [] |}.

(** [count] messages of [len] characters each, oldest first. *)
Definition history (count len : nat) : list ChatMessage :=
  map (sample_message len) (seq 0 count).

(** The summary message [offline_env] builds for the first four messages
    of a [history]. *)
Definition offline_summary : ChatMessage :=
  {| id := "summary_1000";
     role := SYSTEM;
     content := "[Conversation summary: 4 earlier messages from 0 to 3]";
     timestamp := 1000;
     provider := None;
     model := None;
     usage := None;
     metadata := [("is_summary"%string, MBool true);
                  ("summarized_count"%string, MInt 4)] |}.

(** Metadata as [create_embedding_metadata] builds it, descriptive
    fields left out. *)
Definition meta (item : string) : VectorStore.Metadata :=
  {| VectorStore.item_id := item; VectorStore.deleted := false;
     VectorStore.fields := [] |}.

Definition e1 : VectorStore.vector := [1; 0]%R.
Definition e2 : VectorStore.vector := [0; 1]%R.

(** The item "a" added by two calls in a row. *)
Definition twice_added_ops : list VectorStore.Op :=
  [VectorStore.AddEmbeddings [e1] [meta "a"];
   VectorStore.AddEmbeddings [e1] [meta "a"]].

Definition twice_added : VectorStore.World :=
  VectorStore.run (VectorStore.fresh_world 2) twice_added_ops.

(** Two items on orthogonal axes. *)
Definition two_axes : VectorStore.World :=
  VectorStore.run (VectorStore.fresh_world 2)
    [VectorStore.AddEmbeddings [e1; e2] [meta "a"; meta "b"]].

(** "a" indexed, updated and then removed, which leaves two deleted
    slots, followed by "b". *)
Definition crowded_ops : list VectorStore.Op :=
  [VectorStore.AddEmbeddings [e1] [meta "a"];
   VectorStore.UpdateEmbedding "a" e1 (meta "a");
   VectorStore.RemoveEmbedding "a";
   VectorStore.AddEmbeddings [e2] [meta "b"]].

Definition crowded : VectorStore.World :=
  VectorStore.run (VectorStore.fresh_world 2) crowded_ops.

Definition item_one : Retrieval.Item :=
  {| Retrieval.item_similarity := Some 1%R;
     Retrieval.title := Some "T1"%string;
     Retrieval.url := None;
     Retrieval.author := Some EmptyString;
     Retrieval.item_content := Some (text_of_length 30);
     Retrieval.summary := Some "sum"%string |}.

Definition item_two : Retrieval.Item :=
  {| Retrieval.item_similarity := None;
     Retrieval.title := None;
     Retrieval.url := Some "http://x"%string;
     Retrieval.author := None;
     Retrieval.item_content := None;
     Retrieval.summary := Some "short summary"%string |}.

End Samples.

(** ** Further sample inputs *)

Module MoreSamples.

Import Truncation.

(** Five messages of 450 characters: the four newest cost 1816 tokens,
    just within 70% of the 2596 available under [Samples.offline_env]. *)
Definition five_long : list ChatMessage := Samples.history 5 450.

(** The summary [Samples.offline_env] builds for the first message of a
    history. *)
Definition offline_summary_of_one : ChatMessage :=
  {| id := "summary_1000";
     role := SYSTEM;
     content := "[Conversation summary: 1 earlier messages from 0 to 0]";
     timestamp := 1000;
     provider := None;
     model := None;
     usage := None;
     metadata := [("is_summary"%string, MBool true);
                  ("summarized_count"%string, MInt 1)] |}.

End MoreSamples.

Module EngineSamples.

Import VectorStore.

(** An embedding model that sends every text to the first axis. *)
Definition axis_batch (texts : list string) : result (list vector) :=
  Ok (map (fun _ => Samples.e1) texts).

Definition axis_text (text : string) : result vector := Ok Samples.e1.

(** A model that is loaded but cannot encode. *)
Definition failing_model (text : string) : result vector :=
  Raise (RuntimeError "out of memory").

Definition no_fields (item : Engine.SourceItem) (text : string) : list (string * string) :=
  [].

Definition article (ident headline : string) : Engine.SourceItem :=
  {| Engine.id := ident;
     Engine.title := headline;
     Engine.url := "http://x";
     Engine.published_at := 0;
     Engine.summary := None;
     Engine.content := None;
     Engine.author := None;
     Engine.tags := [];
     Engine.raw := [] |}.

(** Two articles indexed, one updated, the other removed, then a cleanup. *)
Definition session : list Engine.Call :=
  [Engine.IndexItems [article "a" "First"; article "b" "Second"];
   Engine.UpdateItemIndex (article "a" "First, revised");
   Engine.RemoveItemIndex "b";
   Engine.CleanupIndex].

(** One item indexed and removed again. *)
Definition removed_only : World :=
  run (fresh_world 2)
    [AddEmbeddings [Samples.e1] [Samples.meta "a"]; RemoveEmbedding "a"].

End EngineSamples.

(** Sample histories of checked calls. *)

Module CheckedSamples.

Import VectorStore.

(** Metadata that arrives flagged deleted. *)
Definition flagged (item : string) : Metadata :=
  {| item_id := item; deleted := true; fields := [] |}.

(** "a" arrives flagged deleted, is added again, then updated; "b" is
    added and removed. *)
Definition readded_ops : list Op :=
  [AddEmbeddings [Samples.e1] [flagged "a"];
   AddEmbeddings [Samples.e1; Samples.e2] [Samples.meta "a"; Samples.meta "b"];
   UpdateEmbedding "a" Samples.e2 (Samples.meta "a");
   RemoveEmbedding "b"].

Definition readded : World := run (fresh_world 2) readded_ops.

End CheckedSamples.

Module ObjectSamples.

Import ObjectStore.

(** The dictionaries of a caller: object 0 carries the id "a", object 1
    the id "b", and every other object is a dictionary without ['item_id']. *)
Definition objects : Heap :=
  fun r =>
    match r with
    | 0%nat => {| d_item_id := Some "a"%string; d_deleted := None; d_fields := [] |}
    | 1%nat => {| d_item_id := Some "b"%string; d_deleted := None; d_fields := [] |}
    | _ => {| d_item_id := None; d_deleted := None;
              d_fields := [("title"%string, "untitled"%string)] |}
    end.

(** "a" is added, then removed; "b" is added. *)
Definition keyed_ops : list Op :=
  [AddEmbeddings [Samples.e1] [0%nat];
   RemoveEmbedding "a";
   UpdateEmbedding "b" Samples.e2 1%nat].

(** "a" is in the store, under the caller's object 0. *)
Definition holds_a : World :=
  snd (add_embeddings (fresh_world objects 2) [Samples.e1] [0%nat]).

End ObjectSamples.

(** * Properties *)

(** ** Exceptions *)

(** A [try] whose handler always returns never raises. *)
Lemma try_except_total {A : Type} (body : result A) (h : PyException -> result A) :
  (forall e, exists a, h e = Ok a) -> exists a, try_except body h = Ok a.
Proof.
  intros Hh. destruct body as [a|e]; simpl; eauto.
Qed.

(** ** Properties of the binary64 product *)

Lemma round53_upper (N : Z) (q s : Z) :
  0 <= N -> round53 N = (q, s) ->
  0 <= s /\ q * 2 ^ s * 2 <= 2 * N + 2 ^ s /\ (0 < s -> 2 ^ s * 2 ^ 52 <= N) /\
  (s = 0 -> q = N).
Proof.
  intros HN. unfold round53.
  destruct (Z.leb_spec (Z.log2 N + 1) 53) as [Hb|Hb].
  - intros [= <- <-]. simpl. lia.
  - set (s0 := Z.log2 N + 1 - 53).
    assert (Hs0 : 0 < s0) by (unfold s0; lia).
    assert (HNpos : 0 < N).
    { destruct (Z.eq_dec N 0) as [->|]; [simpl in Hb; lia | lia]. }
    pose proof (Z.log2_spec N HNpos) as [Hlo _].
    assert (Hpow : 2 ^ s0 * 2 ^ 52 <= N).
    { rewrite <- Z.pow_add_r by lia.
      replace (s0 + 52) with (Z.log2 N) by (unfold s0; lia). exact Hlo. }
    assert (HP : 0 < 2 ^ s0) by (apply Z.pow_pos_nonneg; lia).
    assert (Hhalf : 2 ^ s0 = 2 * 2 ^ (s0 - 1)).
    { replace s0 with (Z.succ (s0 - 1)) at 1 by lia.
      apply Z.pow_succ_r. lia. }
    pose proof (Z.div_mod N (2 ^ s0) ltac:(lia)) as Hdm.
    pose proof (Z.mod_pos_bound N (2 ^ s0) HP) as Hr.
    intros [= <- <-].
    split; [lia|]. split; [|split; [intros _; exact Hpow | lia]].
    destruct ((2 ^ (s0 - 1) <? N mod 2 ^ s0)
              || (N mod 2 ^ s0 =? 2 ^ (s0 - 1)) && Z.odd (N / 2 ^ s0)) eqn:Hup.
    + assert (Hge : 2 ^ (s0 - 1) <= N mod 2 ^ s0).
      { apply orb_true_iff in Hup as [Hup|Hup].
        - apply Z.ltb_lt in Hup. lia.
        - apply andb_true_iff in Hup as [Hup _]. apply Z.eqb_eq in Hup. lia. }
      nia.
    + nia.
Qed.

(** Below [2^51] the float comparison never accepts more than the real
    [0.7 * t]: rounding cannot reach the next tenth. *)
Lemma int_le_mul_07_sound (n t : Z) :
  0 <= t < 2 ^ 51 -> int_le_mul_07 n t = true -> 10 * n <= 7 * t.
Proof.
  intros Ht. unfold int_le_mul_07, float_mul_07.
  destruct (Z.leb_spec 0 t) as [_|]; [|lia].
  destruct (round53 (t * double_07_mantissa)) as [q s] eqn:Hr.
  intros Hle. apply Z.leb_le in Hle.
  apply round53_upper in Hr; [|unfold double_07_mantissa; lia].
  destruct Hr as (Hs & Hq & Hbig & Hzero).
  unfold double_07_mantissa in *.
  change (2 ^ 53) with 9007199254740992 in Hle.
  change (2 ^ 51) with 2251799813685248 in Ht.
  change (2 ^ 52) with 4503599627370496 in Hbig.
  destruct (Z.eq_dec s 0) as [->|Hne].
  - rewrite (Hzero eq_refl) in Hle. change (2 ^ 0) with 1 in Hle. lia.
  - assert (Hspos : 0 < s) by lia. specialize (Hbig Hspos).
    assert (HP : 0 < 2 ^ s) by (apply Z.pow_pos_nonneg; lia).
    nia.
Qed.

(** ** The conversation truncator *)

Module TruncationProps.

Import Truncation.

Ltac unfold_bind := unfold mbind, result_bind, rbind in *.

Lemma get_token_limit_total (env : Env) : exists limit, _get_token_limit env = Ok limit.
Proof.
  unfold _get_token_limit. apply try_except_total. eauto.
Qed.

Lemma available_tokens_total (env : Env) : exists a, available_tokens env = Ok a.
Proof.
  unfold available_tokens. destruct (get_token_limit_total env) as [l ->].
  unfold_bind. eauto.
Qed.

Lemma count_conversation_tokens_total (env : Env) (messages : list ChatMessage) (new : string) :
  exists n, _count_conversation_tokens env messages new = Ok n.
Proof.
  unfold _count_conversation_tokens. apply try_except_total. eauto.
Qed.

Lemma generate_summary_total (env : Env) (text : string) :
  exists s, _generate_summary env text = Ok s.
Proof.
  unfold _generate_summary. apply try_except_total. eauto.
Qed.

Lemma create_conversation_summary_total (env : Env) (older : list ChatMessage) :
  exists s, _create_conversation_summary env older = Ok s.
Proof.
  unfold _create_conversation_summary. apply try_except_total. eauto.
Qed.

(** C1.  A conversation whose token count, as [_count_conversation_tokens]
    computes it (content tokens, 4 per message, and the new message), is at
    most the available budget (limit minus the two reserves) comes back from
    [truncate_if_needed] as the very same list. *)
Theorem truncate_if_needed_under_budget
    (env : Env) (messages : list ChatMessage) (new_message_content : string)
    (available total : Z) :
  available_tokens env = Ok available ->
  _count_conversation_tokens env messages new_message_content = Ok total ->
  total <= available ->
  truncate_if_needed env messages new_message_content = Ok messages.
Proof.
  intros Havail Hcount Hle.
  unfold truncate_if_needed. rewrite Havail. unfold_bind.
  rewrite Hcount.
  destruct (Z.leb_spec total available) as [_|Hgt]; [reflexivity | lia].
Qed.

Lemma truncate_if_needed_under_budget_witness :
  truncate_if_needed Samples.offline_env (Samples.history 3 20) "hello"
  = Ok (Samples.history 3 20).
Proof.
  apply (truncate_if_needed_under_budget
           Samples.offline_env (Samples.history 3 20) "hello" 2596 81).
  - reflexivity.
  - reflexivity.
  - lia.
Defined.

(** *** The floor fallback *)

Lemma last_n_app4 (older : list ChatMessage) (m1 m2 m3 m4 : ChatMessage) :
  last_n min_keep_messages (older ++ [m1; m2; m3; m4]) = [m1; m2; m3; m4].
Proof.
  unfold last_n, min_keep_messages. rewrite length_app. simpl.
  replace (length older + 4 - 4)%nat with (length older + 0)%nat by lia.
  rewrite skipn_app, Nat.add_0_r, skipn_all.
  replace (length older - length older)%nat with 0%nat by lia.
  reflexivity.
Qed.

(** When the four newest messages together do not pass the 70% test, the
    walk stops with fewer than four messages. *)
Lemma walk_back_short (enc : Encoding) (target : Z)
    (m1 m2 m3 m4 : ChatMessage) (rest : list ChatMessage) (n1 n2 n3 n4 : Z) :
  count_tokens enc (content m1) = Ok n1 ->
  count_tokens enc (content m2) = Ok n2 ->
  count_tokens enc (content m3) = Ok n3 ->
  count_tokens enc (content m4) = Ok n4 ->
  int_le_mul_07 (0 + (n4 + 4) + (n3 + 4) + (n2 + 4) + (n1 + 4)) target = false ->
  exists r, walk_back enc target (m4 :: m3 :: m2 :: m1 :: rest) [] 0 = Ok r
            /\ (length (fst r) < min_keep_messages)%nat.
Proof.
  intros H1 H2 H3 H4 Hno. unfold min_keep_messages.
  cbn [walk_back]. unfold_bind. rewrite H4.
  destruct (int_le_mul_07 (0 + (n4 + 4)) target); [|eexists; split; [reflexivity | simpl; lia]].
  rewrite H3.
  destruct (int_le_mul_07 (0 + (n4 + 4) + (n3 + 4)) target);
    [|eexists; split; [reflexivity | simpl; lia]].
  rewrite H2.
  destruct (int_le_mul_07 (0 + (n4 + 4) + (n3 + 4) + (n2 + 4)) target);
    [|eexists; split; [reflexivity | simpl; lia]].
  rewrite H1, Hno.
  eexists; split; [reflexivity | simpl; lia].
Qed.

(** The floor fallback of [_truncate_conversation]: a history of more than
    four messages whose four newest cost more than 70% of the target comes
    back as exactly those four, with no summary in front. *)
Lemma truncate_conversation_floor (env : Env) (enc : Encoding) (target : Z)
    (older : list ChatMessage) (m1 m2 m3 m4 : ChatMessage) (n1 n2 n3 n4 : Z) :
  _get_encoding env = Ok enc ->
  older <> [] ->
  0 <= target < 2 ^ 51 ->
  count_tokens enc (content m1) = Ok n1 ->
  count_tokens enc (content m2) = Ok n2 ->
  count_tokens enc (content m3) = Ok n3 ->
  count_tokens enc (content m4) = Ok n4 ->
  7 * target < 10 * (n1 + n2 + n3 + n4 + 16) ->
  _truncate_conversation env (older ++ [m1; m2; m3; m4]) target = Ok [m1; m2; m3; m4].
Proof.
  intros Henc Holder Ht H1 H2 H3 H4 Hbig.
  assert (Hno : int_le_mul_07 (0 + (n4 + 4) + (n3 + 4) + (n2 + 4) + (n1 + 4)) target = false).
  { destruct (int_le_mul_07 _ target) eqn:E; [|reflexivity].
    apply int_le_mul_07_sound in E; [lia | exact Ht]. }
  destruct (walk_back_short enc target m1 m2 m3 m4 (rev older) n1 n2 n3 n4 H1 H2 H3 H4 Hno)
    as (r & Hwalk & Hshort).
  unfold _truncate_conversation.
  destruct (older ++ [m1; m2; m3; m4]) as [|m0 l0] eqn:Hl.
  { destruct older; discriminate. }
  rewrite <- Hl.
  assert (Hlen : (length (older ++ [m1; m2; m3; m4]) <=? min_keep_messages)%nat = false).
  { apply Nat.leb_gt. rewrite length_app. unfold min_keep_messages. simpl.
    destruct older; [congruence | simpl; lia]. }
  rewrite Hlen, Henc. unfold_bind.
  rewrite rev_app_distr. simpl rev at 1. cbn [app].
  rewrite Hwalk.
  apply Nat.ltb_lt in Hshort. rewrite Hshort.
  rewrite last_n_app4. reflexivity.
Qed.

(** C5 (as amended).  Ten messages of about 200 tokens each (180 to 220)
    against a target of about 500 (450 to 550): [_truncate_conversation]
    returns the last four messages verbatim and nothing else, no summary
    message in front, and the token count of those four, even without the
    overhead of 4 each, is above 0.7 times the target. *)
Theorem truncate_conversation_scenario
    (env : Env) (enc : Encoding) (messages : list ChatMessage) (target : Z) :
  _get_encoding env = Ok enc ->
  length messages = 10%nat ->
  Forall (fun m => exists n, count_tokens enc (content m) = Ok n /\ 180 <= n <= 220) messages ->
  450 <= target <= 550 ->
  _truncate_conversation env messages target = Ok (last_n min_keep_messages messages)
  /\ length (last_n min_keep_messages messages) = 4%nat
  /\ exists total, count_messages enc (last_n min_keep_messages messages) 0 = Ok total
                   /\ 7 * target < 10 * (total - 4 * 4).
Proof.
  intros Henc Hlen Hall Ht.
  do 10 (destruct messages as [|? messages]; [discriminate Hlen|]).
  destruct messages; [|discriminate Hlen].
  repeat match goal with
         | H : Forall _ (_ :: _) |- _ =>
             let Hh := fresh "Hh" in
             apply Forall_cons_iff in H as [Hh H]; destruct Hh as (? & ? & ?)
         end.
  match goal with
  | |- _truncate_conversation _ [?a; ?b; ?c; ?d; ?e; ?f; ?m1; ?m2; ?m3; ?m4] _ = _ /\ _ =>
      change [a; b; c; d; e; f; m1; m2; m3; m4] with ([a; b; c; d; e; f] ++ [m1; m2; m3; m4])
  end.
  rewrite last_n_app4.
  split; [|split; [reflexivity|]].
  - eapply truncate_conversation_floor;
      [exact Henc | discriminate | | eassumption | eassumption | eassumption
       | eassumption | lia].
    change (2 ^ 51) with 2251799813685248. lia.
  - cbn [count_messages]. unfold_bind.
    repeat match goal with
           | H : count_tokens enc _ = Ok _ |- _ => rewrite H; clear H
           end.
    eexists; split; [reflexivity | lia].
Qed.

Lemma truncate_conversation_scenario_witness :
  _truncate_conversation Samples.offline_env (Samples.history 10 200) 500
  = Ok (last_n min_keep_messages (Samples.history 10 200))
  /\ length (last_n min_keep_messages (Samples.history 10 200)) = 4%nat
  /\ exists total,
       count_messages Samples.char_encoding
         (last_n min_keep_messages (Samples.history 10 200)) 0 = Ok total
       /\ 7 * 500 < 10 * (total - 4 * 4).
Proof.
  apply (truncate_conversation_scenario
           Samples.offline_env Samples.char_encoding (Samples.history 10 200) 500).
  - reflexivity.
  - reflexivity.
  - repeat constructor; exists 200; (split; [reflexivity | lia]).
  - lia.
Defined.

(** C5, the claim as stated fails: on ten messages of 200 tokens and a
    target of 500 the result is the last four messages alone, so it is not
    a summary followed by them, and the four cost 816 tokens, more than
    0.7 * 500. *)
Lemma scenario_has_no_summary :
  _truncate_conversation Samples.offline_env (Samples.history 10 200) 500
  = Ok (last_n min_keep_messages (Samples.history 10 200))
  /\ (forall s, _truncate_conversation Samples.offline_env (Samples.history 10 200) 500
                <> Ok (s :: last_n min_keep_messages (Samples.history 10 200)))
  /\ count_messages Samples.char_encoding
       (last_n min_keep_messages (Samples.history 10 200)) 0 = Ok 816
  /\ ~ (10 * 816 <= 7 * 500).
Proof.
  assert (H : _truncate_conversation Samples.offline_env (Samples.history 10 200) 500
              = Ok (last_n min_keep_messages (Samples.history 10 200)))
    by (vm_compute; reflexivity).
  split; [exact H|]. split; [|split; [vm_compute; reflexivity | lia]].
  intros s Hs. rewrite H in Hs.
  apply (f_equal (fun r => match r with Ok l => length l | Raise _ => 0%nat end)) in Hs.
  vm_compute in Hs. discriminate.
Qed.

(** *** Failures *)

Lemma truncate_if_needed_total (env : Env) (messages : list ChatMessage) (new : string) :
  exists out, truncate_if_needed env messages new = Ok out.
Proof.
  unfold truncate_if_needed. apply try_except_total. eauto.
Qed.

Lemma escaped_error_returns_original (env : Env) (messages : list ChatMessage)
    (new : string) (available : Z) (e : PyException) :
  available_tokens env = Ok available ->
  _truncate_conversation env messages available = Raise e ->
  truncate_if_needed env messages new = Ok messages.
Proof.
  intros Havail Htrunc. unfold truncate_if_needed. rewrite Havail. unfold_bind.
  destruct (count_conversation_tokens_total env messages new) as [n ->].
  destruct (n <=? available); [reflexivity|].
  rewrite Htrunc. reflexivity.
Qed.

Lemma provider_failure_no_generated_summary (env : Env) (text : string) :
  (forall p m, exists e, adapter_chat env p m (summary_prompt text) = Raise e) ->
  _generate_summary env text = Ok None.
Proof.
  intros Hfail. unfold _generate_summary.
  destruct (config env) as [cfg|e]; [|reflexivity].
  unfold_bind. destruct (active_provider cfg) as [p|]; [|reflexivity].
  destruct (str_truthy p); [|reflexivity].
  destruct (Hfail p (active_model cfg)) as [e ->]. reflexivity.
Qed.

Lemma placeholder_summary (env : Env) (first : ChatMessage) (rest : list ChatMessage)
    (t0 t1 : string) :
  _generate_summary env (conversation_text_of (first :: rest)) = Ok None ->
  strftime_ymd_hm env (timestamp first) = Ok t0 ->
  strftime_ymd_hm env (timestamp (List.last (first :: rest) first)) = Ok t1 ->
  exists s, _create_conversation_summary env (first :: rest) = Ok (Some s)
            /\ role s = SYSTEM
            /\ content s = placeholder (length (first :: rest)) t0 t1.
Proof.
  intros Hgen H0 H1. unfold _create_conversation_summary. rewrite Hgen.
  unfold_bind. cbn [truthy]. unfold fallback_summary. unfold_bind.
  rewrite H0, H1. cbn [try_except].
  eexists; split; [reflexivity|]. split; reflexivity.
Qed.

(** C6, the claim as stated fails: with the provider unreachable, eight
    messages of 400 tokens (3232 with overhead, over the 2596 available) do
    not come back as the original eight but as the placeholder summary
    followed by the last four. *)
Lemma provider_failure_still_truncates :
  (forall p m prompt,
      adapter_chat Samples.offline_env p m prompt = Raise (RuntimeError "connection refused"))
  /\ truncate_if_needed Samples.offline_env (Samples.history 8 400) ""
     = Ok (Samples.offline_summary :: last_n min_keep_messages (Samples.history 8 400))
  /\ truncate_if_needed Samples.offline_env (Samples.history 8 400) ""
     <> Ok (Samples.history 8 400).
Proof.
  assert (H : truncate_if_needed Samples.offline_env (Samples.history 8 400) ""
              = Ok (Samples.offline_summary :: last_n min_keep_messages (Samples.history 8 400)))
    by (vm_compute; reflexivity).
  split; [reflexivity|]. split; [exact H|].
  rewrite H. intros Hs.
  apply (f_equal (fun r => match r with Ok l => length l | Raise _ => 0%nat end)) in Hs.
  vm_compute in Hs. discriminate.
Qed.

(** *** What a truncation keeps *)

Lemma count_messages_acc (enc : Encoding) (l : list ChatMessage) (a : Z) :
  count_messages enc l a = (t ← count_messages enc l 0; Ok (t + a)).
Proof.
  revert a. induction l as [|m l IH]; intros a; [reflexivity|].
  cbn [count_messages]. unfold_bind.
  destruct (count_tokens enc (content m)) as [n|e]; [|reflexivity].
  rewrite (IH (a + n + 4)), (IH (0 + n + 4)).
  destruct (count_messages enc l 0) as [t|e]; [|reflexivity].
  f_equal. lia.
Qed.

Lemma count_messages_cons (enc : Encoding) (m : ChatMessage) (l : list ChatMessage)
    (n t : Z) :
  count_tokens enc (content m) = Ok n ->
  count_messages enc l 0 = Ok t ->
  count_messages enc (m :: l) 0 = Ok (t + (n + 4)).
Proof.
  intros Hn Ht. cbn [count_messages]. unfold_bind. rewrite Hn.
  rewrite count_messages_acc, Ht. reflexivity.
Qed.

(** The walk puts the newest [j] messages, in their original order, in
    front of the messages it was given; the running count is the token
    count of what it returns; and whenever it accepted a message that count
    passed the 70% test. *)
Lemma walk_back_spec (enc : Encoding) (target : Z) (revs acc recent : list ChatMessage)
    (tok tok' : Z) :
  count_messages enc acc 0 = Ok tok ->
  walk_back enc target revs acc tok = Ok (recent, tok') ->
  exists j,
    (j <= length revs)%nat
    /\ recent = rev (firstn j revs) ++ acc
    /\ count_messages enc recent 0 = Ok tok'
    /\ (j = 0%nat \/ int_le_mul_07 tok' target = true).
Proof.
  revert acc tok. induction revs as [|m rest IH]; intros acc tok Hacc Hwalk.
  { injection Hwalk as <- <-. exists 0%nat. simpl. auto with lia. }
  cbn [walk_back] in Hwalk. unfold_bind.
  destruct (count_tokens enc (content m)) as [n|e] eqn:Hn; [|discriminate].
  destruct (int_le_mul_07 (tok + (n + 4)) target) eqn:Hcheck.
  - pose proof (count_messages_cons enc m acc n tok Hn Hacc) as Hacc'.
    destruct (IH (m :: acc) (tok + (n + 4)) Hacc' Hwalk) as (j & Hj & Hrec & Hcount & Hpass).
    exists (S j). split; [simpl; lia|]. split; [|split; [exact Hcount|right]].
    + rewrite Hrec. cbn [firstn rev]. rewrite <- app_assoc. reflexivity.
    + destruct Hpass as [->|Hpass]; [|exact Hpass].
      simpl in Hrec. subst recent. rewrite Hacc' in Hcount.
      injection Hcount as <-. exact Hcheck.
  - injection Hwalk as <- <-. exists 0%nat. simpl. auto with lia.
Qed.

Lemma rev_firstn_rev (j : nat) (l : list ChatMessage) :
  rev (firstn j (rev l)) = last_n j l.
Proof.
  rewrite firstn_rev, rev_involutive. reflexivity.
Qed.

Lemma last_n_length (j : nat) (l : list ChatMessage) :
  (j <= length l)%nat -> length (last_n j l) = j.
Proof.
  intros Hj. unfold last_n. rewrite length_skipn. lia.
Qed.

(** The floor: a truncation that returns keeps at least four messages, or
    all of them when there are fewer. *)
Theorem truncation_keeps_floor (env : Env) (messages out : list ChatMessage) (target : Z) :
  _truncate_conversation env messages target = Ok out ->
  (Nat.min min_keep_messages (length messages) <= length out)%nat.
Proof.
  unfold _truncate_conversation, min_keep_messages.
  destruct messages as [|m0 l0] eqn:Hmsgs; [intros [= <-]; cbn [length]; lia|].
  rewrite <- Hmsgs. clear Hmsgs m0 l0.
  destruct (Nat.leb_spec (length messages) 4) as [Hle|Hgt];
    [intros [= <-]; lia|].
  destruct (_get_encoding env) as [enc|e]; [|discriminate]. unfold_bind.
  destruct (walk_back enc target (rev messages) [] 0) as [[recent tok]|e]; [|discriminate].
  cbn [fst].
  destruct (Nat.ltb_spec (length recent) 4) as [Hshort|Hlong].
  { intros [= <-]. rewrite last_n_length; lia. }
  destruct (firstn (length messages - length recent) messages) as [|o older].
  { intros [= <-]. lia. }
  destruct (_create_conversation_summary env (o :: older)) as [[s|]|e];
    [| |discriminate]; intros [= <-]; cbn [length]; lia.
Qed.

Lemma truncation_keeps_floor_witness :
  (Nat.min min_keep_messages (length (Samples.history 8 400))
   <= length (Samples.offline_summary :: last_n min_keep_messages (Samples.history 8 400)))%nat.
Proof.
  apply (truncation_keeps_floor Samples.offline_env (Samples.history 8 400)
           (Samples.offline_summary :: last_n min_keep_messages (Samples.history 8 400))
           2596).
  vm_compute. reflexivity.
Defined.

(** What comes back is a suffix of the history, verbatim and in order,
    either alone or behind a summary of exactly the messages dropped; in the
    second case the suffix, overhead included, costs at most 70% of the
    target. *)
Theorem truncation_keeps_recent_suffix (env : Env) (enc : Encoding)
    (messages out : list ChatMessage) (target : Z) :
  _get_encoding env = Ok enc ->
  0 <= target < 2 ^ 51 ->
  _truncate_conversation env messages target = Ok out ->
  exists n,
    (n <= length messages)%nat
    /\ (out = last_n n messages
        \/ exists s total,
             _create_conversation_summary env
               (firstn (length messages - n) messages) = Ok (Some s)
             /\ out = s :: last_n n messages
             /\ count_messages enc (last_n n messages) 0 = Ok total
             /\ 10 * total <= 7 * target).
Proof.
  intros Henc Ht. unfold _truncate_conversation, min_keep_messages.
  destruct messages as [|m0 l0] eqn:Hmsgs.
  { intros [= <-]. exists 0%nat. split; [simpl; lia | left; reflexivity]. }
  rewrite <- Hmsgs. clear Hmsgs m0 l0.
  destruct (Nat.leb_spec (length messages) 4) as [Hle|Hgt].
  { intros [= <-]. exists (length messages). split; [lia|left].
    unfold last_n. rewrite Nat.sub_diag. reflexivity. }
  rewrite Henc. unfold_bind.
  destruct (walk_back enc target (rev messages) [] 0) as [[recent tok]|e] eqn:Hwalk;
    [|discriminate].
  cbn [fst].
  destruct (Nat.ltb_spec (length recent) 4) as [Hshort|Hlong].
  { intros [= <-]. exists 4%nat. split; [lia | left; reflexivity]. }
  destruct (walk_back_spec enc target (rev messages) [] recent 0 tok eq_refl Hwalk)
    as (j & Hj & Hrec & Hcount & Hpass).
  rewrite length_rev in Hj. rewrite app_nil_r, rev_firstn_rev in Hrec. subst recent.
  rewrite last_n_length by exact Hj.
  intros Hout. exists j. split; [exact Hj|].
  destruct (firstn (length messages - j) messages) as [|o older] eqn:Holder.
  { injection Hout as <-. left. reflexivity. }
  destruct (_create_conversation_summary env (o :: older)) as [[s|]|e] eqn:Hsum;
    [| |discriminate]; injection Hout as <-; [|left; reflexivity].
  right. exists s, tok. split; [reflexivity|]. split; [reflexivity|].
  split; [exact Hcount|].
  rewrite last_n_length in Hlong by exact Hj.
  destruct Hpass as [->|Hpass]; [lia|].
  apply int_le_mul_07_sound; assumption.
Qed.

Lemma truncation_keeps_recent_suffix_witness :
  exists n,
    (n <= length (Samples.history 8 400))%nat
    /\ (Samples.offline_summary :: last_n min_keep_messages (Samples.history 8 400)
        = last_n n (Samples.history 8 400)
        \/ exists s total,
             _create_conversation_summary Samples.offline_env
               (firstn (length (Samples.history 8 400) - n) (Samples.history 8 400))
             = Ok (Some s)
             /\ Samples.offline_summary :: last_n min_keep_messages (Samples.history 8 400)
                = s :: last_n n (Samples.history 8 400)
             /\ count_messages Samples.char_encoding
                  (last_n n (Samples.history 8 400)) 0 = Ok total
             /\ 10 * total <= 7 * 2596).
Proof.
  apply (truncation_keeps_recent_suffix Samples.offline_env Samples.char_encoding
           (Samples.history 8 400)
           (Samples.offline_summary :: last_n min_keep_messages (Samples.history 8 400))
           2596).
  - reflexivity.
  - change (2 ^ 51) with 2251799813685248. lia.
  - vm_compute. reflexivity.
Defined.

End TruncationProps.

(** ** The vector store *)

Module VectorStoreProps.

Import VectorStore.

(** *** Normalisation *)



Lemma normalize_row_length (v : vector) : length (normalize_row v) = length v.
Proof.
  unfold normalize_row. apply length_map.
Qed.


Lemma normalize_row_zero_norm (v : vector) :
  l2norm v = 0%R -> normalize_row v = v.
Proof.
  intros Hn. unfold normalize_row.
  destruct (Req_dec_T (l2norm v) 0) as [_|E]; [|contradiction].
  rewrite <- (map_id v) at 2. apply map_ext. intros x. field.
Qed.

(** *** [add_embeddings] *)

Lemma store_batch_frame (s : Store) (start : nat) (ml : list Metadata) :
  dimension (store_batch s start ml) = dimension s
  /\ index (store_batch s start ml) = index s
  /\ next_faiss_id (store_batch s start ml) = next_faiss_id s.
Proof.
  revert s start. induction ml as [|m ml IH]; intros s start; simpl; [auto|].
  destruct (IH
    {| dimension := dimension s; index := index s;
       metadata := <[start:=m]> (metadata s);
       id_to_faiss := <[item_id m:=start]> (id_to_faiss s);
       faiss_to_id := <[start:=item_id m]> (faiss_to_id s);
       next_faiss_id := next_faiss_id s |} (S start)) as (H1 & H2 & H3).
  auto.
Qed.

(** What a call that returns leaves behind. *)
Lemma add_embeddings_ok_inv (w w' : World) (embeddings : list vector)
    (ml : list Metadata) :
  add_embeddings w embeddings ml = (Ok tt, w') ->
  (embeddings = [] /\ w' = w)
  \/ (length embeddings = length ml
      /\ Forall (fun row => length row = dimension (mem w)) embeddings
      /\ w' = _save_index
                (bump_next
                   (store_batch
                      (set_index (mem w) (index (mem w) ++ _normalize_embeddings embeddings))
                      (next_faiss_id (mem w)) ml)
                   (length embeddings))).
Proof.
  unfold add_embeddings.
  destruct (Nat.eqb_spec (length embeddings) (length ml)) as [Hlen|]; simpl; [|discriminate].
  destruct (Nat.eqb_spec (length embeddings) 0) as [H0|H0].
  - intros [= <-]. left. split; [|reflexivity].
    destruct embeddings; [reflexivity | discriminate].
  - cbv zeta. unfold index_add.
    destruct (forallb (fun row => Nat.eqb (length row) (dimension (mem w)))
                (_normalize_embeddings embeddings)) eqn:Hall; [|discriminate].
    intros [= <-]. right. split; [exact Hlen|]. split; [|reflexivity].
    rewrite forallb_forall in Hall. apply List.Forall_forall. intros row Hin.
    rewrite <- (normalize_row_length row). apply Nat.eqb_eq, Hall.
    unfold _normalize_embeddings. apply in_map. exact Hin.
Qed.

(** C7.  A batch whose vector count differs from its metadata count, or
    which holds a vector whose length is not the store's dimension, makes
    [add_embeddings] raise, and the call leaves the store in memory (index,
    metadata, both mappings, slot counter) and the persisted state exactly as
    they were. *)
Theorem add_embeddings_rejects (w : World) (embeddings : list vector)
    (metadata_list : list Metadata) :
  length embeddings <> length metadata_list
  \/ Exists (fun row => length row <> dimension (mem w)) embeddings ->
  exists e, add_embeddings w embeddings metadata_list = (Raise e, w).
Proof.
  intros Hbad. unfold add_embeddings.
  destruct (Nat.eqb_spec (length embeddings) (length metadata_list)) as [Hlen|Hlen];
    simpl; [|eauto].
  destruct Hbad as [Hbad|Hbad]; [contradiction|].
  destruct (Nat.eqb_spec (length embeddings) 0) as [H0|H0].
  { destruct embeddings; [inversion Hbad | discriminate]. }
  cbv zeta. unfold index_add.
  destruct (forallb (fun row => Nat.eqb (length row) (dimension (mem w)))
              (_normalize_embeddings embeddings)) eqn:Hall; [|eauto].
  exfalso. rewrite forallb_forall in Hall.
  apply List.Exists_exists in Hbad as (row & Hin & Hrow).
  apply Hrow. rewrite <- (normalize_row_length row). apply Nat.eqb_eq, Hall.
  unfold _normalize_embeddings. apply in_map. exact Hin.
Qed.

Lemma add_embeddings_rejects_witness :
  exists e, add_embeddings (fresh_world 3) [[1; 0]%R] [Samples.meta "a"]
            = (Raise e, fresh_world 3).
Proof.
  apply (add_embeddings_rejects (fresh_world 3) [[1; 0]%R] [Samples.meta "a"]).
  right. constructor. simpl. lia.
Defined.










(** *** The sample vectors *)

Lemma normalize_row_of_unit (v : vector) : l2norm v = 1%R -> normalize_row v = v.
Proof.
  intros H. unfold normalize_row. rewrite H.
  destruct (Req_dec_T 1 0) as [E|_]; [lra|].
  rewrite <- (map_id v) at 2. apply map_ext. intros x. field.
Qed.

Lemma dot_e1_e1 : dot Samples.e1 Samples.e1 = 1%R.
Proof. unfold Samples.e1. simpl. lra. Qed.

Lemma dot_e1_e2 : dot Samples.e1 Samples.e2 = 0%R.
Proof. unfold Samples.e1, Samples.e2. simpl. lra. Qed.

Lemma dot_e2_e2 : dot Samples.e2 Samples.e2 = 1%R.
Proof. unfold Samples.e2. simpl. lra. Qed.

Lemma normalize_e1 : normalize_row Samples.e1 = Samples.e1.
Proof.
  apply normalize_row_of_unit. unfold l2norm. rewrite dot_e1_e1. apply sqrt_1.
Qed.

Lemma normalize_e2 : normalize_row Samples.e2 = Samples.e2.
Proof.
  apply normalize_row_of_unit. unfold l2norm. rewrite dot_e2_e2. apply sqrt_1.
Qed.

(** Settles the comparisons of concrete reals met while a search is
    evaluated. *)
Ltac decide_reals :=
  repeat match goal with
    | |- context [Rle_dec ?a ?b] =>
        first [ destruct (Rle_dec a b) as [_|?]; [|exfalso; lra]
              | destruct (Rle_dec a b) as [?|_]; [exfalso; lra|] ]
    | |- context [Rlt_dec ?a ?b] =>
        first [ destruct (Rlt_dec a b) as [_|?]; [|exfalso; lra]
              | destruct (Rlt_dec a b) as [?|_]; [exfalso; lra|] ]
    end.

End VectorStoreProps.

(** ** Soft deletion and the invariant of the store *)

Module StoreInvariant.

Import VectorStore VectorStoreProps.

(** Every result of the loop is either already in [results] or the
    metadata of a candidate that is not deleted, with the candidate's own
    similarity, which is not below the threshold. *)
Lemma search_loop_sound (md : gmap nat Metadata) (k : Z) (min_similarity : R)
    (cands : list (R * nat)) (results : list SearchResult) (r : SearchResult) :
  In r (search_loop md k min_similarity cands results) ->
  In r results
  \/ exists sim faiss_id,
       In (sim, faiss_id) cands
       /\ md !! faiss_id = Some (sr_metadata r)
       /\ deleted (sr_metadata r) = false
       /\ similarity r = sim
       /\ ~ (sim < min_similarity)%R.
Proof.
  revert results. induction cands as [|[sim fid] cands IH]; intros results Hin; simpl in Hin.
  { left. exact Hin. }
  assert (Hrec : forall res, In r (search_loop md k min_similarity cands res) ->
                 In r res \/ exists sim0 fid0,
                   In (sim0, fid0) ((sim, fid) :: cands)
                   /\ md !! fid0 = Some (sr_metadata r)
                   /\ deleted (sr_metadata r) = false
                   /\ similarity r = sim0 /\ ~ (sim0 < min_similarity)%R).
  { intros res Hres. apply IH in Hres as [Hres|(s0 & f0 & Hc & Hrest)]; [left; exact Hres|].
    right. exists s0, f0. split; [right; exact Hc | exact Hrest]. }
  destruct (Rlt_dec sim min_similarity) as [Hlt|Hge]; [apply Hrec; exact Hin|].
  destruct (md !! fid) as [m|] eqn:Hm.
  - destruct (deleted m) eqn:Hdel; [apply Hrec; exact Hin|].
    assert (Hnew : forall res, In r (res ++ [{| sr_metadata := m; similarity := sim |}]) ->
                   In r res \/ exists sim0 fid0,
                     In (sim0, fid0) ((sim, fid) :: cands)
                     /\ md !! fid0 = Some (sr_metadata r)
                     /\ deleted (sr_metadata r) = false
                     /\ similarity r = sim0 /\ ~ (sim0 < min_similarity)%R).
    { intros res Hres. apply in_app_or in Hres as [Hres|[<-|[]]]; [left; exact Hres|].
      right. exists sim, fid. simpl. auto 6. }
    destruct (Z.of_nat (length (results ++ [_])) >=? k).
    + apply Hnew. exact Hin.
    + apply Hrec in Hin as [Hin|Hin]; [apply Hnew; exact Hin | right; exact Hin].
  - destruct (Z.of_nat (length results) >=? k); [left; exact Hin | apply Hrec; exact Hin].
Qed.

Lemma search_sound (s : Store) (q : vector) (k : Z) (min_similarity : R) (r : SearchResult) :
  In r (search s q k min_similarity) ->
  exists faiss_id,
    metadata s !! faiss_id = Some (sr_metadata r)
    /\ deleted (sr_metadata r) = false
    /\ ~ (similarity r < min_similarity)%R.
Proof.
  unfold search. destruct (ntotal s =? 0)%nat; [intros []|].
  destruct (candidates s q k) as [cands|e]; [|intros []].
  intros Hin. apply search_loop_sound in Hin as [[]|(sim & fid & _ & Hm & Hd & Hs & Hge)].
  exists fid. rewrite Hs. auto.
Qed.

(** C2 (as amended).  In a store where every record of [item] that is
    not deleted is the one the id mapping points to, removing a present
    [item] leaves no search result carrying it, whatever the query;
    [get_embedding_metadata] answers [None] for it; and the total index size
    reported by [get_stats] is unchanged. *)
Theorem remove_embedding_excludes (w : World) (item : string) :
  is_Some (id_to_faiss (mem w) !! item) ->
  (forall i m, metadata (mem w) !! i = Some m -> deleted m = false ->
               item_id m = item -> id_to_faiss (mem w) !! item = Some i) ->
  (forall q k min_similarity r,
      In r (search (mem (remove_embedding w item)) q k min_similarity) ->
      item_id (sr_metadata r) <> item)
  /\ get_embedding_metadata (mem (remove_embedding w item)) item = None
  /\ total_embeddings (get_stats (mem (remove_embedding w item)))
     = total_embeddings (get_stats (mem w)).
Proof.
  intros [fid Hfid] Huniq. unfold remove_embedding. rewrite Hfid.
  cbn [_save_index mem]. split; [|split].
  - intros q k min_similarity r Hin Hitem.
    apply search_sound in Hin as (j & Hj & Hdel & _). cbn [metadata] in Hj.
    destruct (decide (j = fid)) as [->|Hne].
    + rewrite lookup_alter_eq in Hj.
      destruct (metadata (mem w) !! fid) as [m0|]; [|discriminate].
      injection Hj as Hj. rewrite <- Hj in Hdel. discriminate.
    + rewrite lookup_alter_ne in Hj by congruence.
      pose proof (Huniq j _ Hj Hdel Hitem) as Hmap. congruence.
  - unfold get_embedding_metadata. cbn [id_to_faiss]. rewrite lookup_delete_eq. reflexivity.
  - reflexivity.
Qed.

(** *** The invariant kept by guarded calls *)

Lemma active_mapped_unique (s : Store) : active_mapped s -> unique_active s.
Proof.
  intros Hmap i j mi mj Hi Hj Hdi Hdj Hid.
  pose proof (Hmap i mi Hi Hdi) as Hi'. pose proof (Hmap j mj Hj Hdj) as Hj'.
  rewrite Hid in Hi'. congruence.
Qed.

Lemma store_inv_fresh (d : nat) : store_inv (_create_new_index d).
Proof.
  split; [|split]; intros i m Hm; cbn [_create_new_index metadata id_to_faiss] in Hm;
    rewrite lookup_empty in Hm; discriminate.
Qed.

(** Under the invariant, what [get_embedding_metadata] does not find is
    not mapped. *)
Lemma unindexed_unmapped (s : Store) (item : string) :
  mapped_live s -> get_embedding_metadata s item = None ->
  id_to_faiss s !! item = None.
Proof.
  intros Hlive. unfold get_embedding_metadata.
  destruct (id_to_faiss s !! item) as [i|] eqn:Hi; [|reflexivity].
  destruct (Hlive item i Hi) as (m & -> & _ & ->). discriminate.
Qed.

Lemma remove_embedding_inv (w : World) (item : string) :
  store_inv (mem w) -> store_inv (mem (remove_embedding w item)).
Proof.
  intros (Hb & Hm & Hl). unfold remove_embedding.
  destruct (id_to_faiss (mem w) !! item) as [fid|] eqn:Hfid; [|repeat split; assumption].
  cbn [_save_index mem]. split; [|split].
  - intros i m Hi. cbn [metadata next_faiss_id] in *.
    destruct (decide (i = fid)) as [->|Hne].
    + rewrite lookup_alter_eq in Hi.
      destruct (metadata (mem w) !! fid) as [m0|] eqn:H0; [|discriminate].
      eapply Hb; eassumption.
    + rewrite lookup_alter_ne in Hi by congruence. eapply Hb; eassumption.
  - intros i m Hi Hdel. cbn [metadata id_to_faiss] in *.
    destruct (decide (i = fid)) as [->|Hne].
    + rewrite lookup_alter_eq in Hi.
      destruct (metadata (mem w) !! fid) as [m0|]; [|discriminate].
      injection Hi as <-. discriminate.
    + rewrite lookup_alter_ne in Hi by congruence.
      pose proof (Hm i m Hi Hdel) as Hmap.
      rewrite lookup_delete_ne; [exact Hmap|].
      intros ->. congruence.
  - intros item' i Hi. cbn [metadata id_to_faiss] in *.
    destruct (decide (item = item')) as [->|Hne]; [rewrite lookup_delete_eq in Hi; discriminate|].
    rewrite lookup_delete_ne in Hi by exact Hne.
    destruct (Hl item' i Hi) as (m & Hrec & Hid & Hlive).
    exists m. split; [|auto].
    rewrite lookup_alter_ne; [exact Hrec|].
    intros <-. destruct (Hl item fid Hfid) as (m0 & Hrec0 & Hid0 & _). congruence.
Qed.

Lemma remove_embedding_unmaps (w : World) (item : string) :
  id_to_faiss (mem (remove_embedding w item)) !! item = None.
Proof.
  unfold remove_embedding.
  destruct (id_to_faiss (mem w) !! item) as [fid|] eqn:Hfid; [|exact Hfid].
  cbn [_save_index mem id_to_faiss]. apply lookup_delete_eq.
Qed.

(** The loop that records a batch, started at a slot above every slot in
    use, with distinct item ids that are not mapped yet. *)
Lemma store_batch_inv (ml : list Metadata) (s : Store) (start : nat) :
  (forall i m, metadata s !! i = Some m -> (i < start)%nat) ->
  active_mapped s ->
  mapped_live s ->
  NoDup (map item_id ml) ->
  Forall (fun m => id_to_faiss s !! item_id m = None /\ deleted m = false) ml ->
  (forall i m, metadata (store_batch s start ml) !! i = Some m ->
               (i < start + length ml)%nat)
  /\ active_mapped (store_batch s start ml)
  /\ mapped_live (store_batch s start ml).
Proof.
  revert s start. induction ml as [|m ml IH]; intros s start Hb Hm Hl Hnd Hall.
  { simpl. split; [|split; assumption]. intros i m Hi. apply Hb in Hi. lia. }
  cbn [store_batch]. cbn [map] in Hnd.
  apply NoDup_cons in Hnd as [Hnotin Hnd].
  apply Forall_cons_iff in Hall as [[Hfresh Hlive] Hall].
  match goal with |- context [store_batch ?x (S start) ml] => set (s1 := x) end.
  destruct (IH s1 (S start)) as (Hb' & Hm' & Hl').
  - intros i m0 Hi. subst s1. cbn [metadata] in Hi.
    destruct (decide (i = start)) as [->|Hne]; [lia|].
    rewrite lookup_insert_ne in Hi by congruence. apply Hb in Hi. lia.
  - intros i m0 Hi Hdel. subst s1. cbn [metadata id_to_faiss] in *.
    destruct (decide (i = start)) as [->|Hne].
    + rewrite lookup_insert_eq in Hi. injection Hi as <-. apply lookup_insert_eq.
    + rewrite lookup_insert_ne in Hi by congruence.
      pose proof (Hm i m0 Hi Hdel) as Hmap.
      rewrite lookup_insert_ne; [exact Hmap|]. intros E. rewrite E in Hfresh. congruence.
  - intros item i Hi. subst s1. cbn [metadata id_to_faiss] in *.
    destruct (decide (item_id m = item)) as [<-|Hne].
    + rewrite lookup_insert_eq in Hi. injection Hi as <-.
      exists m. rewrite lookup_insert_eq. auto.
    + rewrite lookup_insert_ne in Hi by exact Hne.
      destruct (Hl item i Hi) as (m0 & Hrec & Hid & Hlv).
      exists m0. split; [|auto].
      rewrite lookup_insert_ne; [exact Hrec|].
      apply Hb in Hrec. lia.
  - exact Hnd.
  - apply List.Forall_forall. intros m0 Hin.
    rewrite List.Forall_forall in Hall. destruct (Hall m0 Hin) as [Hf Hlv].
    split; [|exact Hlv]. subst s1. cbn [id_to_faiss].
    rewrite lookup_insert_ne; [exact Hf|].
    intros E. apply Hnotin. rewrite list_elem_of_In. rewrite E. apply in_map. exact Hin.
  - split; [|split; assumption]. intros i m0 Hi. apply Hb' in Hi. simpl. lia.
Qed.

Lemma add_embeddings_raise_inv (w w' : World) (embeddings : list vector)
    (ml : list Metadata) (e : PyException) :
  add_embeddings w embeddings ml = (Raise e, w') -> w' = w.
Proof.
  unfold add_embeddings.
  destruct (negb (length embeddings =? length ml)%nat); [intros [= _ <-]; reflexivity|].
  destruct (length embeddings =? 0)%nat; [discriminate|].
  cbv zeta. destruct (index_add _ _ _); [discriminate | intros [= _ <-]; reflexivity].
Qed.

Lemma add_embeddings_inv (w : World) (embeddings : list vector) (ml : list Metadata) :
  store_inv (mem w) ->
  guarded w (AddEmbeddings embeddings ml) ->
  store_inv (mem (snd (add_embeddings w embeddings ml))).
Proof.
  intros (Hb & Hm & Hl) [Hnd Hall].
  assert (Hall' : Forall (fun m => id_to_faiss (mem w) !! item_id m = None
                                   /\ deleted m = false) ml).
  { eapply Forall_impl; [exact Hall|]. intros m [Hnone Hlive].
    split; [apply unindexed_unmapped; assumption | exact Hlive]. }
  destruct (add_embeddings w embeddings ml) as [[[]|e] w'] eqn:Hadd; cbn [snd].
  - apply add_embeddings_ok_inv in Hadd as [[_ ->]|(Hlen & _ & ->)];
      [repeat split; assumption|].
    cbn [_save_index mem].
    destruct (store_batch_inv ml
                (set_index (mem w) (index (mem w) ++ _normalize_embeddings embeddings))
                (next_faiss_id (mem w)) Hb Hm Hl Hnd Hall') as (Hb' & Hm' & Hl').
    destruct (store_batch_frame
                (set_index (mem w) (index (mem w) ++ _normalize_embeddings embeddings))
                (next_faiss_id (mem w)) ml) as (_ & _ & Hnext).
    split; [|split; assumption].
    intros i m Hi. cbn [bump_next metadata next_faiss_id] in *.
    apply Hb' in Hi. rewrite Hnext. cbn [set_index next_faiss_id]. lia.
  - apply add_embeddings_raise_inv in Hadd as ->. repeat split; assumption.
Qed.

Lemma step_inv (w : World) (op : Op) :
  store_inv (mem w) -> guarded w op -> store_inv (mem (step w op)).
Proof.
  intros Hinv Hg. destruct op as [embeddings ml|item embedding m|item]; cbn [step].
  - apply add_embeddings_inv; assumption.
  - destruct Hg as [Hid Hlive]. unfold update_embedding.
    assert (Hpre : forall w1, store_inv (mem w1) -> id_to_faiss (mem w1) !! item = None ->
                   store_inv (mem (snd (add_embeddings w1 [embedding] [m])))).
    { intros w1 Hinv1 Hnone. apply add_embeddings_inv; [exact Hinv1|].
      split.
      - cbn [map]. apply NoDup_cons. split; [apply not_elem_of_nil | apply NoDup_nil_2].
      - constructor; [|constructor]. rewrite Hid. split; [|exact Hlive].
        unfold get_embedding_metadata. rewrite Hnone. reflexivity. }
    destruct (id_to_faiss (mem w) !! item) eqn:Hlook.
    + apply Hpre; [apply remove_embedding_inv; exact Hinv | apply remove_embedding_unmaps].
    + apply Hpre; assumption.
  - apply remove_embedding_inv. exact Hinv.
Qed.

Lemma reachable_inv (d : nat) (w : World) : reachable d w -> store_inv (mem w).
Proof.
  induction 1 as [|w op _ IH Hg]; [apply store_inv_fresh | apply step_inv; assumption].
Qed.

End StoreInvariant.

(** ** Search: the threshold and the candidate window *)

Module SearchProps.

Import VectorStore VectorStoreProps StoreInvariant StoreMore.

Lemma search_loop_keeps (md : gmap nat Metadata) (k : Z) (min_similarity : R)
    (cands : list (R * nat)) (results : list SearchResult) (r : SearchResult) :
  In r results -> In r (search_loop md k min_similarity cands results).
Proof.
  revert results. induction cands as [|[sim fid] cands IH]; intros results Hin; simpl;
    [exact Hin|].
  destruct (Rlt_dec sim min_similarity); [apply IH; exact Hin|].
  destruct (md !! fid) as [m|].
  - destruct (deleted m); [apply IH; exact Hin|].
    assert (Hin' : In r (results ++ [{| sr_metadata := m; similarity := sim |}]))
      by (apply in_or_app; left; exact Hin).
    destruct (Z.of_nat (length (results ++ [_])) >=? k); [exact Hin' | apply IH; exact Hin'].
  - destruct (Z.of_nat (length results) >=? k); [exact Hin | apply IH; exact Hin].
Qed.

(** A candidate that passes both tests is in the results, unless the loop
    stopped with [k] results before it. *)
Lemma search_loop_complete (md : gmap nat Metadata) (k : Z) (min_similarity : R)
    (cands : list (R * nat)) (results : list SearchResult)
    (sim : R) (fid : nat) (m : Metadata) :
  In (sim, fid) cands ->
  md !! fid = Some m -> deleted m = false -> ~ (sim < min_similarity)%R ->
  In {| sr_metadata := m; similarity := sim |} (search_loop md k min_similarity cands results)
  \/ k <= Z.of_nat (length (search_loop md k min_similarity cands results)).
Proof.
  intros Hin Hm Hdel Hge. revert results Hin.
  induction cands as [|[sim0 fid0] cands IH]; intros results Hin; [destruct Hin|].
  destruct Hin as [Hhead|Htail].
  - injection Hhead as -> ->. simpl.
    destruct (Rlt_dec sim min_similarity) as [Hlt|_]; [contradiction|].
    rewrite Hm, Hdel.
    assert (Hnew : In {| sr_metadata := m; similarity := sim |}
                      (results ++ [{| sr_metadata := m; similarity := sim |}]))
      by (apply in_or_app; right; left; reflexivity).
    destruct (Z.of_nat (length (results ++ [_])) >=? k); left;
      [exact Hnew | apply search_loop_keeps; exact Hnew].
  - simpl.
    destruct (Rlt_dec sim0 min_similarity); [apply IH; exact Htail|].
    destruct (md !! fid0) as [m0|].
    + destruct (deleted m0); [apply IH; exact Htail|].
      destruct (Z.geb_spec (Z.of_nat (length (results ++ [{| sr_metadata := m0; similarity := sim0 |}]))) k);
        [right; lia | apply IH; exact Htail].
    + destruct (Z.geb_spec (Z.of_nat (length results)) k);
        [right; lia | apply IH; exact Htail].
Qed.

(** The loop is a filter followed by a cut: from any results [k] has not
    been reached with, it returns the first [k] of those results followed by
    the candidates that pass. *)
Lemma search_loop_firstn (md : gmap nat Metadata) (k : Z) (min_similarity : R)
    (cands : list (R * nat)) (results : list SearchResult) :
  Z.of_nat (length results) < k ->
  search_loop md k min_similarity cands results
  = firstn (Z.to_nat k) (results ++ accepted md min_similarity cands).
Proof.
  revert results. induction cands as [|[sim fid] cands IH]; intros results Hlt.
  { unfold accepted. cbn [search_loop omap list_omap]. rewrite app_nil_r.
    rewrite firstn_all2 by lia. reflexivity. }
  unfold accepted in *. cbn [search_loop omap list_omap]. unfold accept at 1. cbn [fst snd].
  destruct (Rlt_dec sim min_similarity); [apply IH; exact Hlt|].
  destruct (md !! fid) as [m|].
  - destruct (deleted m); [apply IH; exact Hlt|].
    assert (Hsplit : (results ++ {| sr_metadata := m; similarity := sim |}
                                 :: omap (accept md min_similarity) cands)%list
                     = ((results ++ [{| sr_metadata := m; similarity := sim |}])
                        ++ omap (accept md min_similarity) cands)%list)
      by (rewrite <- app_assoc; reflexivity).
    rewrite Hsplit.
    destruct (Z.geb_spec (Z.of_nat
                (length (results ++ [{| sr_metadata := m; similarity := sim |}]))) k)
      as [Hge|Hlt'].
    + rewrite length_app in Hge. cbn [length] in Hge.
      rewrite firstn_app.
      replace (Z.to_nat k - length (results ++ [{| sr_metadata := m; similarity := sim |}]))%nat
        with 0%nat by (rewrite length_app; cbn [length]; lia).
      rewrite firstn_O, app_nil_r, firstn_all2; [reflexivity|].
      rewrite length_app. cbn [length]. lia.
    + apply IH. exact Hlt'.
  - destruct (Z.geb_spec (Z.of_nat (length results)) k); [lia | apply IH; exact Hlt].
Qed.

Lemma In_accepted (md : gmap nat Metadata) (min_similarity : R)
    (cands : list (R * nat)) (r : SearchResult) :
  In r (accepted md min_similarity cands)
  <-> exists c, In c cands /\ accept md min_similarity c = Some r.
Proof.
  unfold accepted. induction cands as [|c cands IH]; cbn [omap list_omap].
  { split; [intros [] | intros (c & [] & _)]. }
  destruct (accept md min_similarity c) as [r0|] eqn:E.
  - split.
    + intros [<-|H]; [exists c; split; [left; reflexivity | exact E]|].
      apply IH in H as (c' & Hc' & Hr). exists c'. split; [right; exact Hc' | exact Hr].
    + intros (c' & [<-|Hc'] & Hr); [left; congruence|].
      right. apply IH. eauto.
  - rewrite IH. split.
    + intros (c' & Hc' & Hr). exists c'. split; [right; exact Hc' | exact Hr].
    + intros (c' & [<-|Hc'] & Hr); [congruence | eauto].
Qed.

Lemma accepted_not_below (md : gmap nat Metadata) (min_similarity : R)
    (cands : list (R * nat)) :
  accepted md min_similarity (List.filter (not_below min_similarity) cands)
  = accepted md min_similarity cands.
Proof.
  unfold accepted. induction cands as [|c cands IH]; [reflexivity|].
  cbn [List.filter]. unfold not_below at 1.
  destruct (Rlt_dec (fst c) min_similarity) as [Hlt|Hge].
  - cbn [omap list_omap].
    assert (Hnone : accept md min_similarity c = None).
    { unfold accept. destruct (Rlt_dec (fst c) min_similarity); [reflexivity | contradiction]. }
    rewrite Hnone. exact IH.
  - cbn [omap list_omap]. rewrite IH. reflexivity.
Qed.

Lemma In_firstn_sub {A : Type} (n : nat) (l : list A) (x : A) :
  In x (firstn n l) -> In x l.
Proof.
  revert l. induction n as [|n IH]; intros [|y l]; simpl; try tauto.
  intros [->|H]; [left; reflexivity | right; apply IH; exact H].
Qed.

Lemma In_firstn_or_full {A : Type} (n : nat) (l : list A) (x : A) :
  In x l -> In x (firstn n l) \/ length (firstn n l) = n.
Proof.
  intros Hin. destruct (Nat.le_gt_cases n (length l)) as [Hle|Hgt].
  - right. apply firstn_length_le. exact Hle.
  - left. rewrite firstn_all2 by lia. exact Hin.
Qed.

(** C4.  Whatever raw candidates FAISS returned, and however it scored
    them, the loop of [search] (for the [k > 0] FAISS accepts) returns the
    first [k] of the candidates that pass, a candidate passing when its score
    is not below the threshold and its record is not deleted.  So a candidate
    that is not deleted and whose score equals the threshold passes, and it is
    in the results unless [k] results precede it; every result is the record of
    a candidate with that candidate's own score, which is at or above the
    threshold, never a clamped value; and the candidates below the threshold
    can be struck from the list without changing the results. *)
Theorem search_threshold_boundary (md : gmap nat Metadata) (k : Z) (min_similarity : R)
    (cands : list (R * nat)) :
  0 < k ->
  let results := search_loop md k min_similarity cands [] in
  results = firstn (Z.to_nat k) (accepted md min_similarity cands)
  /\ (forall sim faiss_id m,
        In (sim, faiss_id) cands -> sim = min_similarity ->
        md !! faiss_id = Some m -> deleted m = false ->
        In {| sr_metadata := m; similarity := sim |} (accepted md min_similarity cands)
        /\ (In {| sr_metadata := m; similarity := sim |} results
            \/ Z.of_nat (length results) = k))
  /\ (forall r, In r results ->
        exists sim faiss_id,
          In (sim, faiss_id) cands
          /\ md !! faiss_id = Some (sr_metadata r)
          /\ deleted (sr_metadata r) = false
          /\ similarity r = sim
          /\ (min_similarity <= sim)%R)
  /\ results
     = search_loop md k min_similarity (List.filter (not_below min_similarity) cands) []
  /\ (forall s q,
        metadata s = md -> ntotal s <> 0%nat -> candidates s q k = Ok cands ->
        search s q k min_similarity = results).
Proof.
  intros Hk results.
  assert (Hform : results = firstn (Z.to_nat k) (accepted md min_similarity cands)).
  { unfold results. rewrite search_loop_firstn by (simpl; lia). reflexivity. }
  split; [exact Hform|]. split; [|split; [|split]].
  - intros sim fid m Hin Heq Hm Hlive.
    assert (Hacc : In {| sr_metadata := m; similarity := sim |}
                      (accepted md min_similarity cands)).
    { apply In_accepted. exists (sim, fid). split; [exact Hin|].
      unfold accept. cbn [fst snd].
      destruct (Rlt_dec sim min_similarity); [lra|]. rewrite Hm, Hlive. reflexivity. }
    split; [exact Hacc|]. rewrite Hform.
    destruct (In_firstn_or_full (Z.to_nat k) _ _ Hacc) as [H|H]; [left; exact H|].
    right. rewrite H. lia.
  - intros r Hr. rewrite Hform in Hr. apply In_firstn_sub in Hr.
    apply In_accepted in Hr as ([sim fid] & Hin & Hacc).
    unfold accept in Hacc. cbn [fst snd] in Hacc.
    destruct (Rlt_dec sim min_similarity) as [Hlt|Hge]; [discriminate|].
    destruct (md !! fid) as [m|] eqn:Hm; [|discriminate].
    destruct (deleted m) eqn:Hd; [discriminate|]. injection Hacc as <-.
    exists sim, fid. cbn [sr_metadata similarity]. rewrite Hd.
    repeat split; try assumption; try reflexivity. lra.
  - rewrite Hform. rewrite search_loop_firstn by (simpl; lia).
    cbn [app]. rewrite accepted_not_below. reflexivity.
  - intros s q <- Hne Hc. unfold search.
    destruct (Nat.eqb_spec (ntotal s) 0) as [E|_]; [contradiction|].
    rewrite Hc. reflexivity.
Qed.

(** *** The sample stores *)

Ltac eval_index_search :=
  unfold index_search;
  change (length Samples.e1) with 2%nat; cbn [Nat.eqb negb];
  cbn [Z.leb Z.compare]; change (Z.to_nat 2) with 2%nat;
  unfold scores; cbn [scores_from];
  rewrite ?dot_e1_e1, ?dot_e1_e2;
  repeat (progress (cbn [sort_desc fold_right insert_desc fst]; decide_reals));
  cbn [firstn].

Lemma two_axes_candidates (k : Z) :
  1 <= k ->
  candidates (mem Samples.two_axes) Samples.e1 k = Ok [(1%R, 0%nat); (0%R, 1%nat)].
Proof.
  intros Hk. unfold candidates, ntotal.
  change (index (mem Samples.two_axes))
    with [normalize_row Samples.e1; normalize_row Samples.e2].
  change (dimension (mem Samples.two_axes)) with 2%nat.
  rewrite normalize_e1, normalize_e2.
  replace (Z.min (k * 2) (Z.of_nat (length [Samples.e1; Samples.e2]))) with 2
    by (simpl; lia).
  eval_index_search. reflexivity.
Qed.

Lemma two_axes_search_1 :
  search (mem Samples.two_axes) Samples.e1 1 0
  = [{| sr_metadata := Samples.meta "a"; similarity := 1 |}].
Proof.
  unfold search. change (ntotal (mem Samples.two_axes)) with 2%nat. cbn [Nat.eqb].
  rewrite two_axes_candidates by lia.
  cbn [search_loop]. decide_reals.
  change (metadata (mem Samples.two_axes) !! 0%nat) with (Some (Samples.meta "a")).
  reflexivity.
Qed.

Lemma search_threshold_boundary_witness :
  In {| sr_metadata := Samples.meta "b"; similarity := 0 |}
     (accepted (metadata (mem Samples.two_axes)) 0 [(1%R, 0%nat); (0%R, 1%nat)])
  /\ (In {| sr_metadata := Samples.meta "b"; similarity := 0 |}
         (search_loop (metadata (mem Samples.two_axes)) 2 0 [(1%R, 0%nat); (0%R, 1%nat)] [])
      \/ Z.of_nat (length (search_loop (metadata (mem Samples.two_axes)) 2 0
                             [(1%R, 0%nat); (0%R, 1%nat)] [])) = 2).
Proof.
  destruct (search_threshold_boundary (metadata (mem Samples.two_axes)) 2 0
              [(1%R, 0%nat); (0%R, 1%nat)]) as (_ & Hin & _); [lia|].
  apply (Hin 0%R 1%nat (Samples.meta "b")).
  - right. left. reflexivity.
  - reflexivity.
  - reflexivity.
  - reflexivity.
Defined.

Ltac guard_add :=
  split;
  [ cbn [map]; repeat (apply NoDup_cons; split;
                       [rewrite list_elem_of_In; simpl; intuition discriminate|]);
    apply NoDup_nil_2
  | repeat (constructor; [split; reflexivity|]); constructor ].

Lemma two_axes_reachable : reachable 2 Samples.two_axes.
Proof.
  change Samples.two_axes
    with (step (fresh_world 2)
            (AddEmbeddings [Samples.e1; Samples.e2] [Samples.meta "a"; Samples.meta "b"])).
  apply reachable_step; [apply reachable_fresh | guard_add].
Qed.

Lemma crowded_reachable : reachable 2 Samples.crowded.
Proof.
  change Samples.crowded
    with (step (step (step (step (fresh_world 2)
            (AddEmbeddings [Samples.e1] [Samples.meta "a"]))
            (UpdateEmbedding "a" Samples.e1 (Samples.meta "a")))
            (RemoveEmbedding "a"))
            (AddEmbeddings [Samples.e2] [Samples.meta "b"])).
  repeat apply reachable_step;
    [apply reachable_fresh | guard_add | split; reflexivity | exact I | guard_add].
Qed.

Lemma crowded_candidates :
  candidates (mem Samples.crowded) Samples.e1 1 = Ok [(1%R, 0%nat); (1%R, 1%nat)].
Proof.
  unfold candidates, ntotal.
  change (index (mem Samples.crowded))
    with [normalize_row Samples.e1; normalize_row Samples.e1; normalize_row Samples.e2].
  change (dimension (mem Samples.crowded)) with 2%nat.
  rewrite normalize_e1, normalize_e2.
  change (Z.min (1 * 2) (Z.of_nat (length [Samples.e1; Samples.e1; Samples.e2]))) with 2.
  eval_index_search. reflexivity.
Qed.

Lemma crowded_search : search (mem Samples.crowded) Samples.e1 1 0 = [].
Proof.
  unfold search. change (ntotal (mem Samples.crowded)) with 3%nat. cbn [Nat.eqb].
  rewrite crowded_candidates.
  cbn [search_loop]. decide_reals.
  change (metadata (mem Samples.crowded) !! 0%nat)
    with (Some (mark_deleted (Samples.meta "a"))).
  change (metadata (mem Samples.crowded) !! 1%nat)
    with (Some (mark_deleted (Samples.meta "a"))).
  reflexivity.
Qed.

(** C10.  There is a store, reached by guarded calls, and a query for
    which [k] records that are not deleted have a similarity at or above the
    threshold, yet [search] returns fewer than [k] results: FAISS is asked
    for [min(2k, ntotal)] candidates, all of them are deleted slots, and the
    live record never enters the window. *)
Theorem deleted_slots_crowd_out :
  exists (w : World) (q : vector) (k : Z) (min_similarity : R)
         (slots : list nat) (cands : list (R * nat)),
    reachable (dimension (mem w)) w
    /\ qualifying (mem w) q min_similarity slots
    /\ 0 < k <= Z.of_nat (length slots)
    /\ Z.of_nat (length (search (mem w) q k min_similarity)) < k
    /\ candidates (mem w) q k = Ok cands
    /\ Z.of_nat (length cands) = Z.min (k * 2) (Z.of_nat (ntotal (mem w)))
    /\ Forall (fun c => exists m, metadata (mem w) !! snd c = Some m /\ deleted m = true) cands.
Proof.
  exists Samples.crowded, Samples.e1, 1, 0%R, [2%nat], [(1%R, 0%nat); (1%R, 1%nat)].
  split; [exact crowded_reachable|].
  split.
  { split.
    - apply NoDup_cons. split; [apply not_elem_of_nil | apply NoDup_nil_2].
    - constructor; [|constructor].
      exists (normalize_row Samples.e2), (Samples.meta "b").
      split; [reflexivity|]. split; [reflexivity|]. split; [reflexivity|].
      rewrite normalize_e1, normalize_e2, dot_e1_e2. lra. }
  split; [simpl; lia|].
  split; [rewrite crowded_search; simpl; lia|].
  split; [exact crowded_candidates|].
  split; [reflexivity|].
  repeat constructor; exists (mark_deleted (Samples.meta "a")); split; reflexivity.
Qed.

(** *** Removal in the sample stores *)

Lemma remove_embedding_excludes_witness :
  (forall q k min_similarity r,
      In r (search (mem (remove_embedding Samples.two_axes "a")) q k min_similarity) ->
      item_id (sr_metadata r) <> "a"%string)
  /\ get_embedding_metadata (mem (remove_embedding Samples.two_axes "a")) "a" = None
  /\ total_embeddings (get_stats (mem (remove_embedding Samples.two_axes "a")))
     = total_embeddings (get_stats (mem Samples.two_axes)).
Proof.
  apply (remove_embedding_excludes Samples.two_axes "a").
  - exists 0%nat. reflexivity.
  - intros i m Hi Hdel Hid.
    destruct (reachable_inv 2 _ two_axes_reachable) as (_ & Hmap & _).
    rewrite <- Hid. apply Hmap; assumption.
Defined.

Lemma twice_added_removed_candidates :
  candidates (mem (remove_embedding Samples.twice_added "a")) Samples.e1 5
  = Ok [(1%R, 0%nat); (1%R, 1%nat)].
Proof.
  unfold candidates, ntotal.
  change (index (mem (remove_embedding Samples.twice_added "a")))
    with [normalize_row Samples.e1; normalize_row Samples.e1].
  change (dimension (mem (remove_embedding Samples.twice_added "a"))) with 2%nat.
  rewrite normalize_e1.
  change (Z.min (5 * 2) (Z.of_nat (length [Samples.e1; Samples.e1]))) with 2.
  eval_index_search. reflexivity.
Qed.

(** C2, the claim as stated fails: after "a" was added twice, both calls
    returning normally, "a" is present; removing it deletes the second slot
    only, and a search still returns the first slot's record, which carries
    "a". *)
Lemma removed_id_still_found :
  fst (add_embeddings (fresh_world 2) [Samples.e1] [Samples.meta "a"]) = Ok tt
  /\ fst (add_embeddings
            (snd (add_embeddings (fresh_world 2) [Samples.e1] [Samples.meta "a"]))
            [Samples.e1] [Samples.meta "a"]) = Ok tt
  /\ id_to_faiss (mem Samples.twice_added) !! "a"%string = Some 1%nat
  /\ search (mem (remove_embedding Samples.twice_added "a")) Samples.e1 5 (3 / 10)
     = [{| sr_metadata := Samples.meta "a"; similarity := 1 |}].
Proof.
  split; [reflexivity|]. split; [reflexivity|]. split; [reflexivity|].
  unfold search.
  change (ntotal (mem (remove_embedding Samples.twice_added "a"))) with 2%nat.
  cbn [Nat.eqb]. rewrite twice_added_removed_candidates.
  cbn [search_loop]. decide_reals.
  change (metadata (mem (remove_embedding Samples.twice_added "a")) !! 0%nat)
    with (Some (Samples.meta "a")).
  change (metadata (mem (remove_embedding Samples.twice_added "a")) !! 1%nat)
    with (Some (mark_deleted (Samples.meta "a"))).
  reflexivity.
Qed.

(** C3, the claim as stated fails: two [add_embeddings] calls for the
    same item, both returning normally, leave two records that are not
    deleted and share the item id "a"; so does a single call whose batch
    names "a" twice, although [get_embedding_metadata] finds nothing for "a"
    before the call; and so does an update of "a" whose metadata carries the
    id of "b", an item the store holds. *)
Lemma unguarded_add_duplicates :
  Samples.twice_added = run (fresh_world 2) Samples.twice_added_ops
  /\ fst (add_embeddings (fresh_world 2) [Samples.e1] [Samples.meta "a"]) = Ok tt
  /\ fst (add_embeddings
            (snd (add_embeddings (fresh_world 2) [Samples.e1] [Samples.meta "a"]))
            [Samples.e1] [Samples.meta "a"]) = Ok tt
  /\ metadata (mem Samples.twice_added) !! 0%nat = Some (Samples.meta "a")
  /\ metadata (mem Samples.twice_added) !! 1%nat = Some (Samples.meta "a")
  /\ ~ unique_active (mem Samples.twice_added)
  /\ get_embedding_metadata (mem (fresh_world 2)) "a" = None
  /\ fst (add_embeddings (fresh_world 2) [Samples.e1; Samples.e1]
            [Samples.meta "a"; Samples.meta "a"]) = Ok tt
  /\ ~ unique_active
         (mem (snd (add_embeddings (fresh_world 2) [Samples.e1; Samples.e1]
                      [Samples.meta "a"; Samples.meta "a"])))
  /\ fst (update_embedding Samples.two_axes "a" Samples.e2 (Samples.meta "b")) = Ok tt
  /\ ~ unique_active
         (mem (snd (update_embedding Samples.two_axes "a" Samples.e2 (Samples.meta "b")))).
Proof.
  split; [reflexivity|]. split; [reflexivity|]. split; [reflexivity|].
  split; [reflexivity|]. split; [reflexivity|].
  split.
  { intros H.
    specialize (H 0%nat 1%nat (Samples.meta "a") (Samples.meta "a")
                  eq_refl eq_refl eq_refl eq_refl eq_refl).
    discriminate H. }
  split; [reflexivity|]. split; [reflexivity|].
  split.
  { intros H.
    specialize (H 0%nat 1%nat (Samples.meta "a") (Samples.meta "a")
                  eq_refl eq_refl eq_refl eq_refl eq_refl).
    discriminate H. }
  split; [reflexivity|].
  intros H.
  specialize (H 1%nat 2%nat (Samples.meta "b") (Samples.meta "b")
                eq_refl eq_refl eq_refl eq_refl eq_refl).
  discriminate H.
Qed.

End SearchProps.

(** ** The context prompt *)

Module RetrievalProps.

Import Retrieval.

Lemma string_app_assoc (a b c : string) : ((a ++ b) ++ c)%string = (a ++ (b ++ c))%string.
Proof.
  induction a as [|ch a IH]; [reflexivity|].
  change (String ch ((a ++ b) ++ c) = String ch (a ++ (b ++ c)))%string.
  rewrite IH. reflexivity.
Qed.

Lemma string_app_nil_r (a : string) : (a ++ EmptyString)%string = a.
Proof.
  induction a as [|ch a IH]; [reflexivity|].
  change (String ch (a ++ EmptyString)%string = String ch a). rewrite IH. reflexivity.
Qed.

(** Joining parts that end with a line and an empty part puts that line,
    followed by the separator, at the very end. *)
Lemma join_ends (sep line : string) (parts : list string) :
  parts <> [] ->
  join sep (parts ++ [line; EmptyString])
  = (join sep parts ++ sep ++ line ++ sep)%string.
Proof.
  induction parts as [|p parts IH]; [congruence|]. intros _.
  destruct parts as [|p' parts].
  - change (p ++ sep ++ line ++ sep ++ EmptyString = p ++ sep ++ line ++ sep)%string.
    rewrite string_app_nil_r. reflexivity.
  - change (join sep ((p :: p' :: parts) ++ [line; EmptyString]))
      with (p ++ sep ++ join sep ((p' :: parts) ++ [line; EmptyString]))%string.
    rewrite IH by discriminate.
    change (join sep (p :: p' :: parts)) with (p ++ sep ++ join sep (p' :: parts))%string.
    rewrite !string_app_assoc. reflexivity.
Qed.

Section Prompt.

Variable format_2f : R -> string.

Lemma total_len_cons (x : string) (l : list string) :
  total_len (x :: l) = str_len x + total_len l.
Proof. reflexivity. Qed.

(** The loop appends the summaries of a prefix of the items: every one of
    them fits, and the first item after the prefix, if any, does not. *)
Lemma add_items_prefix (max_context_length : Z) (items : list Item) (i : nat)
    (context_parts : list string) (current_length : Z) :
  exists n,
    (n <= length items)%nat
    /\ add_items format_2f max_context_length i items context_parts current_length
       = context_parts ++ rendered format_2f max_context_length i items current_length n
    /\ (n = 0%nat
        \/ current_length
           + total_len (rendered format_2f max_context_length i items current_length n)
           <= max_context_length)
    /\ ((n < length items)%nat ->
        exists item,
          items !! n = Some item
          /\ max_context_length
             < current_length
               + total_len (rendered format_2f max_context_length i items current_length n)
               + str_len (item_summary format_2f max_context_length
                            (current_length
                             + total_len (rendered format_2f max_context_length i items
                                            current_length n))
                            (i + n) item)).
Proof.
  revert i context_parts current_length.
  induction items as [|item items IH]; intros i context_parts current_length.
  { exists 0%nat. simpl. rewrite app_nil_r. repeat split; [lia | left; reflexivity | lia]. }
  cbn [add_items].
  set (s := item_summary format_2f max_context_length current_length i item).
  destruct (Z.gtb_spec (current_length + str_len s) max_context_length) as [Hover|Hfit].
  - exists 0%nat. cbn [rendered]. rewrite app_nil_r.
    repeat split; [simpl; lia | left; reflexivity|].
    intros _. exists item. split; [reflexivity|].
    change (total_len []) with 0. rewrite Z.add_0_r, Nat.add_0_r. fold s. lia.
  - destruct (IH (S i) (context_parts ++ [s]) (current_length + str_len s))
      as (n & Hn & Heq & Hbudget & Hnext).
    exists (S n). cbn [rendered]. fold s.
    split; [simpl; lia|]. split; [rewrite Heq, <- app_assoc; reflexivity|].
    split.
    + right. rewrite total_len_cons.
      destruct Hbudget as [->|Hb]; [cbn [rendered]; change (total_len []) with 0; lia | lia].
    + intros Hlt. destruct Hnext as (item' & Hlook & Hover); [simpl in Hlt; lia|].
      exists item'. split; [exact Hlook|].
      rewrite total_len_cons.
      replace (i + S n)%nat with (S i + n)%nat by lia.
      replace (current_length
               + (str_len s
                  + total_len (rendered format_2f max_context_length (S i) items
                                 (current_length + str_len s) n)))
        with (current_length + str_len s
              + total_len (rendered format_2f max_context_length (S i) items
                             (current_length + str_len s) n)) by lia.
      exact Hover.
Qed.

(** C9 (as amended).  [create_context_prompt] is a function of its
    inputs.  For an empty item list it returns the empty string.  For a
    non-empty list it renders a prefix of the items, each within the running
    character budget, stops at the first item that does not fit, and ends
    the prompt with the line "Query: <query>" and a newline. *)
Theorem create_context_prompt_shape (query : string) (retrieved_items : list Item)
    (max_context_length : Z) :
  (forall query' items' max',
      query' = query -> items' = retrieved_items -> max' = max_context_length ->
      create_context_prompt format_2f query' items' max'
      = create_context_prompt format_2f query retrieved_items max_context_length)
  /\ (retrieved_items = [] ->
      create_context_prompt format_2f query retrieved_items max_context_length = EmptyString)
  /\ (retrieved_items <> [] ->
      exists n,
        (n <= length retrieved_items)%nat
        /\ create_context_prompt format_2f query retrieved_items max_context_length
           = join nl ([header; EmptyString]
                      ++ rendered format_2f max_context_length 1 retrieved_items
                           initial_length n
                      ++ [("Query: " ++ query)%string; EmptyString])
        /\ (n = 0%nat
            \/ initial_length
               + total_len (rendered format_2f max_context_length 1 retrieved_items
                              initial_length n)
               <= max_context_length)
        /\ ((n < length retrieved_items)%nat ->
            exists item,
              retrieved_items !! n = Some item
              /\ max_context_length
                 < initial_length
                   + total_len (rendered format_2f max_context_length 1 retrieved_items
                                  initial_length n)
                   + str_len (item_summary format_2f max_context_length
                                (initial_length
                                 + total_len (rendered format_2f max_context_length 1
                                                retrieved_items initial_length n))
                                (1 + n) item))
        /\ ends_with
             (create_context_prompt format_2f query retrieved_items max_context_length)
             ("Query: " ++ query ++ nl)%string).
Proof.
  split; [intros ? ? ? -> -> ->; reflexivity|].
  split; [intros ->; reflexivity|].
  intros Hne.
  destruct (add_items_prefix max_context_length retrieved_items 1
              [header; EmptyString] initial_length) as (n & Hn & Heq & Hbudget & Hnext).
  assert (Hprompt :
    create_context_prompt format_2f query retrieved_items max_context_length
    = join nl (([header; EmptyString]
                ++ rendered format_2f max_context_length 1 retrieved_items initial_length n)
               ++ [("Query: " ++ query)%string; EmptyString])).
  { unfold create_context_prompt.
    destruct retrieved_items as [|item rest]; [congruence|].
    fold initial_length. rewrite Heq. reflexivity. }
  exists n. split; [exact Hn|].
  split; [rewrite Hprompt, <- app_assoc; reflexivity|].
  split; [exact Hbudget|]. split; [exact Hnext|].
  rewrite Hprompt, join_ends by discriminate.
  eexists. rewrite <- !string_app_assoc. reflexivity.
Qed.

End Prompt.

Lemma create_context_prompt_shape_witness :
  ends_with
    (create_context_prompt (fun _ => "0.99"%string) "q?"
       [Samples.item_one; Samples.item_two] 100)
    ("Query: " ++ "q?" ++ nl)%string.
Proof.
  destruct (create_context_prompt_shape (fun _ => "0.99"%string) "q?"
              [Samples.item_one; Samples.item_two] 100) as (_ & _ & Hshape).
  destruct (Hshape ltac:(discriminate)) as (n & _ & _ & _ & _ & Hend).
  exact Hend.
Defined.

(** With a budget of 100 characters the first item is rendered without
    its content and the second is left out. *)
Example prompt_stops_at_budget :
  create_context_prompt (fun _ => "0.99"%string) "q?"
    [Samples.item_one; Samples.item_two] 100
  = ("Based on the following relevant information:" ++ nl ++ nl
     ++ "Source 1 (similarity: 0.99):" ++ nl ++ "Title: T1" ++ nl ++ nl
     ++ "Query: q?" ++ nl)%string.
Proof. vm_compute. reflexivity. Qed.

(** C9, the claim as stated fails: for an empty item list the prompt is
    the empty string, so the query is not at its end; it is nowhere in it. *)
Lemma empty_items_drop_query :
  create_context_prompt (fun _ => "0.00"%string) "what is new?" [] 3000 = EmptyString
  /\ ~ ends_with (create_context_prompt (fun _ => "0.00"%string) "what is new?" [] 3000)
         "what is new?".
Proof.
  split; [reflexivity|].
  intros [prefix H]. cbn [create_context_prompt] in H.
  destruct prefix; discriminate H.
Qed.

End RetrievalProps.

(** ** The truncator as its callers see it *)

Module TruncationMoreProps.

Import Truncation TruncationProps TruncationMore.

(** A lookup with a default satisfies what the default and every value of
    the dictionary satisfy. *)
Lemma dict_get_default {V : Type} (P : V -> Prop) (d : list (string * V))
    (key : string) (dflt : V) :
  P dflt -> Forall (fun kv => P (snd kv)) d -> P (default dflt (dict_get d key)).
Proof.
  intros Hd Hall. unfold dict_get.
  destruct (List.find (fun kv => String.eqb (fst kv) key) d) as [kv|] eqn:Hfind;
    [|exact Hd].
  apply find_some in Hfind as [Hin _].
  rewrite List.Forall_forall in Hall. exact (Hall kv Hin).
Qed.

Lemma table_limit_range (p m : string) :
  4096 <= default default_limit (dict_get (default [] (dict_get provider_limits p)) m)
       <= 200000.
Proof.
  apply (dict_get_default (fun v => 4096 <= v <= 200000));
    [unfold default_limit; lia|].
  apply (dict_get_default (fun l => Forall (fun kv => 4096 <= snd kv <= 200000) l));
    [constructor|].
  unfold provider_limits. repeat constructor; cbn [snd]; lia.
Qed.

Lemma token_limit_range (env : Env) (limit : Z) :
  _get_token_limit env = Ok limit -> 4096 <= limit <= 200000.
Proof.
  unfold _get_token_limit. destruct (config env) as [cfg|e]; cbn [try_except];
    unfold_bind; [|intros [= <-]; unfold default_limit; lia].
  destruct (active_provider cfg) as [p|], (active_model cfg) as [m|];
    try (intros [= <-]; unfold default_limit; lia).
  destruct (str_truthy p && str_truthy m); intros [= <-];
    [apply table_limit_range | unfold default_limit; lia].
Qed.

Lemma available_tokens_range (env : Env) (a : Z) :
  available_tokens env = Ok a -> 2596 <= a <= 198500.
Proof.
  unfold available_tokens.
  destruct (_get_token_limit env) as [limit|e] eqn:Hl; unfold_bind; [|discriminate].
  intros [= <-]. apply token_limit_range in Hl.
  unfold response_reserve, system_reserve. lia.
Qed.

(** The budget left for the conversation is the limit of the active model
    less the two reserves; whatever the configuration says (unknown
    provider, unknown model, unreadable configuration) it lies between 2596
    and 198500, and [get_truncation_stats] reports the very budget
    [truncate_if_needed] works with. *)
Theorem available_budget_range (env : Env) :
  exists a,
    available_tokens env = Ok a
    /\ 2596 <= a <= 198500
    /\ forall st, get_truncation_stats env = Ok st ->
                  stats_available_tokens st = a /\ token_limit st = a + 1500.
Proof.
  destruct (available_tokens_total env) as [a Ha].
  exists a. split; [exact Ha|]. split; [apply (available_tokens_range env a Ha)|].
  intros st. unfold get_truncation_stats. unfold available_tokens in Ha.
  destruct (_get_token_limit env) as [limit|e]; unfold_bind; [|discriminate].
  injection Ha as <-.
  destruct (config env) as [cfg|e]; [|discriminate].
  intros [= <-]. cbn [stats_available_tokens token_limit].
  unfold response_reserve, system_reserve. lia.
Qed.

(** *** The summary message *)

Lemma generate_summary_shape (env : Env) (text generated : string) :
  _generate_summary env text = Ok (Some generated) ->
  exists response,
    generated = ("[Previous conversation summary: " ++ strip response ++ "]")%string.
Proof.
  unfold _generate_summary.
  destruct (config env) as [cfg|e]; cbn [try_except]; unfold_bind; [|discriminate].
  destruct (active_provider cfg) as [p|]; [|discriminate].
  destruct (str_truthy p); [|discriminate].
  destruct (adapter_chat env p (active_model cfg) (summary_prompt text)) as [response|e];
    [|discriminate].
  intros [= <-]. exists response. reflexivity.
Qed.

Lemma summary_role (env : Env) (older : list ChatMessage) (s : ChatMessage) :
  _create_conversation_summary env older = Ok (Some s) -> role s = SYSTEM.
Proof.
  unfold _create_conversation_summary.
  destruct older as [|first rest]; [discriminate|].
  destruct (_generate_summary env (conversation_text_of (first :: rest))) as [generated|e];
    unfold_bind; [|discriminate].
  destruct (if truthy generated then Ok (default EmptyString generated)
            else fallback_summary env (first :: rest) first (List.last (first :: rest) first))
    as [text|e]; [|discriminate].
  cbn [try_except]. intros [= <-]. reflexivity.
Qed.



(** *** The shape of every result *)

(** What [_truncate_conversation] can return: the list it was given, the
    last four messages, or a longer suffix that passed the 70% test, alone
    or behind the summary of the messages in front of it. *)
Lemma truncate_conversation_cases (env : Env) (messages out : list ChatMessage)
    (target : Z) :
  0 <= target < 2 ^ 51 ->
  _truncate_conversation env messages target = Ok out ->
  out = messages
  \/ (4 < length messages)%nat
     /\ (out = last_n 4 messages
         \/ exists n enc total,
              (4 <= n <= length messages)%nat
              /\ _get_encoding env = Ok enc
              /\ count_messages enc (last_n n messages) 0 = Ok total
              /\ 10 * total <= 7 * target
              /\ (out = last_n n messages
                  \/ exists s,
                       (n < length messages)%nat
                       /\ _create_conversation_summary env
                            (firstn (length messages - n) messages) = Ok (Some s)
                       /\ out = s :: last_n n messages)).
Proof.
  intros Ht. unfold _truncate_conversation, min_keep_messages.
  destruct messages as [|m0 l0] eqn:Hmsgs; [intros [= <-]; left; reflexivity|].
  rewrite <- Hmsgs. clear Hmsgs m0 l0.
  destruct (Nat.leb_spec (length messages) 4) as [Hle|Hgt];
    [intros [= <-]; left; reflexivity|].
  destruct (_get_encoding env) as [enc|e] eqn:Henc; [|discriminate]. unfold_bind.
  destruct (walk_back enc target (rev messages) [] 0) as [[recent tok]|e] eqn:Hwalk;
    [|discriminate].
  cbn [fst]. intros Hout. right. split; [exact Hgt|].
  destruct (Nat.ltb_spec (length recent) 4) as [Hshort|Hlong];
    [injection Hout as <-; left; reflexivity|].
  destruct (walk_back_spec enc target (rev messages) [] recent 0 tok eq_refl Hwalk)
    as (j & Hj & Hrec & Hcount & Hpass).
  rewrite length_rev in Hj. rewrite app_nil_r, rev_firstn_rev in Hrec. subst recent.
  rewrite last_n_length in * by exact Hj.
  right. exists j, enc, tok.
  split; [lia|]. split; [reflexivity|]. split; [exact Hcount|].
  split; [destruct Hpass as [->|Hpass]; [lia | apply int_le_mul_07_sound; assumption]|].
  destruct (firstn (length messages - j) messages) as [|o older] eqn:Holder;
    [injection Hout as <-; left; reflexivity|].
  destruct (_create_conversation_summary env (o :: older)) as [[s|]|e] eqn:Hsum;
    [| |discriminate]; injection Hout as <-; [|left; reflexivity].
  right. exists s. split; [|split; reflexivity].
  destruct (Nat.lt_ge_cases j (length messages)) as [Hlt|Hge]; [exact Hlt|].
  replace (length messages - j)%nat with 0%nat in Holder by lia. discriminate Holder.
Qed.

(** The same for [truncate_if_needed], which always returns. *)
Lemma truncate_if_needed_cases (env : Env) (messages : list ChatMessage)
    (new_message_content : string) :
  exists out,
    truncate_if_needed env messages new_message_content = Ok out
    /\ (out = messages
        \/ (4 < length messages)%nat /\ out = last_n 4 messages
        \/ exists n enc total available,
             (4 <= n <= length messages)%nat
             /\ _get_encoding env = Ok enc
             /\ available_tokens env = Ok available
             /\ count_messages enc (last_n n messages) 0 = Ok total
             /\ 10 * total <= 7 * available
             /\ (out = last_n n messages
                 \/ exists s,
                      (n < length messages)%nat
                      /\ _create_conversation_summary env
                           (firstn (length messages - n) messages) = Ok (Some s)
                      /\ out = s :: last_n n messages)).
Proof.
  destruct (available_tokens_total env) as [a Ha].
  pose proof (available_tokens_range env a Ha) as Hrange.
  destruct (count_conversation_tokens_total env messages new_message_content) as [t Ht].
  unfold truncate_if_needed. rewrite Ha. unfold_bind. rewrite Ht.
  destruct (t <=? a); [exists messages; split; [reflexivity | left; reflexivity]|].
  destruct (_truncate_conversation env messages a) as [out|e] eqn:Htrunc;
    cbn [try_except]; [|exists messages; split; [reflexivity | left; reflexivity]].
  exists out. split; [reflexivity|].
  apply truncate_conversation_cases in Htrunc;
    [|change (2 ^ 51) with 2251799813685248; lia].
  destruct Htrunc as [->|(Hgt & [->|(n & enc & total & Hn & Henc & Hcount & Hbudget & Hout)])].
  - left. reflexivity.
  - right. left. split; [exact Hgt | reflexivity].
  - right. right. exists n, enc, total, a. auto 10.
Qed.

(** The cases again, with what decides between a suffix alone and a
    suffix behind a summary. *)
Lemma truncate_conversation_exact (env : Env) (messages out : list ChatMessage)
    (target : Z) :
  _truncate_conversation env messages target = Ok out ->
  out = messages
  \/ ((4 < length messages)%nat /\ out = last_n 4 messages)
  \/ exists n first rest,
       (4 <= n < length messages)%nat
       /\ firstn (length messages - n) messages = first :: rest
       /\ ((exists s, _create_conversation_summary env (first :: rest) = Ok (Some s)
                      /\ out = s :: last_n n messages)
           \/ (_create_conversation_summary env (first :: rest) = Ok None
               /\ out = last_n n messages)).
Proof.
  unfold _truncate_conversation, min_keep_messages.
  destruct messages as [|m0 l0] eqn:Hmsgs; [intros [= <-]; left; reflexivity|].
  rewrite <- Hmsgs. clear Hmsgs m0 l0.
  destruct (Nat.leb_spec (length messages) 4) as [Hle|Hgt];
    [intros [= <-]; left; reflexivity|].
  destruct (_get_encoding env) as [enc|e] eqn:Henc; [|discriminate]. unfold_bind.
  destruct (walk_back enc target (rev messages) [] 0) as [[recent tok]|e] eqn:Hwalk;
    [|discriminate].
  cbn [fst]. intros Hout.
  destruct (Nat.ltb_spec (length recent) 4) as [Hshort|Hlong];
    [injection Hout as <-; right; left; split; [exact Hgt | reflexivity]|].
  destruct (walk_back_spec enc target (rev messages) [] recent 0 tok eq_refl Hwalk)
    as (j & Hj & Hrec & _ & _).
  rewrite length_rev in Hj. rewrite app_nil_r, rev_firstn_rev in Hrec. subst recent.
  rewrite last_n_length in * by exact Hj.
  destruct (firstn (length messages - j) messages) as [|o older] eqn:Holder.
  { injection Hout as <-. left.
    assert (Hall : (length messages - j = 0)%nat).
    { destruct (length messages - j)%nat eqn:E; [reflexivity|].
      destruct messages; [simpl in Hgt; lia | discriminate Holder]. }
    unfold last_n. rewrite Hall. reflexivity. }
  assert (Hlt : (j < length messages)%nat).
  { destruct (Nat.lt_ge_cases j (length messages)) as [H|H]; [exact H|].
    replace (length messages - j)%nat with 0%nat in Holder by lia. discriminate Holder. }
  right. right. exists j, o, older. split; [lia|]. split; [exact Holder|].
  destruct (_create_conversation_summary env (o :: older)) as [[s|]|e] eqn:Hsum;
    [| |discriminate]; injection Hout as <-.
  - left. exists s. auto.
  - right. auto.
Qed.

Lemma truncate_if_needed_exact (env : Env) (messages : list ChatMessage)
    (new_message_content : string) :
  exists out,
    truncate_if_needed env messages new_message_content = Ok out
    /\ (out = messages
        \/ ((4 < length messages)%nat /\ out = last_n 4 messages)
        \/ exists n first rest,
             (4 <= n < length messages)%nat
             /\ firstn (length messages - n) messages = first :: rest
             /\ ((exists s, _create_conversation_summary env (first :: rest) = Ok (Some s)
                            /\ out = s :: last_n n messages)
                 \/ (_create_conversation_summary env (first :: rest) = Ok None
                     /\ out = last_n n messages))).
Proof.
  destruct (available_tokens_total env) as [a Ha].
  destruct (count_conversation_tokens_total env messages new_message_content) as [t Ht].
  unfold truncate_if_needed. rewrite Ha. unfold_bind. rewrite Ht.
  destruct (t <=? a); [exists messages; split; [reflexivity | left; reflexivity]|].
  destruct (_truncate_conversation env messages a) as [out|e] eqn:Htrunc;
    cbn [try_except]; [|exists messages; split; [reflexivity | left; reflexivity]].
  exists out. split; [reflexivity|].
  apply truncate_conversation_exact in Htrunc. exact Htrunc.
Qed.

(** With the provider unreachable the summary is the placeholder, and
    there is none only when a time cannot be formatted. *)
Lemma unreachable_summary (env : Env) (first : ChatMessage) (rest : list ChatMessage) :
  provider_unreachable env ->
  (forall s, _create_conversation_summary env (first :: rest) = Ok (Some s) ->
     exists t0 t1,
       strftime_ymd_hm env (timestamp first) = Ok t0
       /\ strftime_ymd_hm env (timestamp (List.last (first :: rest) first)) = Ok t1
       /\ role s = SYSTEM
       /\ content s = placeholder (length (first :: rest)) t0 t1)
  /\ (_create_conversation_summary env (first :: rest) = Ok None ->
      (exists e, strftime_ymd_hm env (timestamp first) = Raise e)
      \/ (exists e, strftime_ymd_hm env (timestamp (List.last (first :: rest) first))
                    = Raise e)).
Proof.
  intros Hdown.
  assert (Hgen : _generate_summary env (conversation_text_of (first :: rest)) = Ok None).
  { apply provider_failure_no_generated_summary. intros p m. apply Hdown. }
  unfold _create_conversation_summary. rewrite Hgen. unfold_bind. cbn [truthy].
  unfold fallback_summary. unfold_bind.
  destruct (strftime_ymd_hm env (timestamp first)) as [t0|e0].
  - destruct (strftime_ymd_hm env (timestamp (List.last (first :: rest) first))) as [t1|e1];
      cbn [try_except].
    + split; [|discriminate]. intros s [= <-]. exists t0, t1. auto.
    + split; [discriminate|]. intros _. right. eauto.
  - cbn [try_except]. split; [discriminate|]. intros _. left. eauto.
Qed.

(** C6 (as amended).  [truncate_if_needed] never raises.  When the
    tokenizer fails while counting, the count is the character estimate
    (characters // 4).  When an error escapes the truncation step (the
    tokenizer failing there), the original list is returned.  A provider
    failure does not reach that handler, and building the summary never
    raises: with the provider unreachable the result is the original list,
    or the last four messages, or a kept suffix of at least four messages in
    front of which messages were dropped; that suffix comes behind a summary
    message carrying the placeholder text (the count and the formatted times
    of the first and the last dropped message), and alone only when one of
    those times cannot be formatted. *)
Theorem truncate_if_needed_degrades
    (env : Env) (messages : list ChatMessage) (new_message_content : string) :
  (exists out, truncate_if_needed env messages new_message_content = Ok out)
  /\ (forall e, tokenizer_count env messages new_message_content = Raise e ->
        _count_conversation_tokens env messages new_message_content
        = Ok (char_estimate messages new_message_content))
  /\ (forall available e,
        available_tokens env = Ok available ->
        _truncate_conversation env messages available = Raise e ->
        truncate_if_needed env messages new_message_content = Ok messages)
  /\ (provider_unreachable env ->
      exists out,
        truncate_if_needed env messages new_message_content = Ok out
        /\ (out = messages
            \/ ((4 < length messages)%nat /\ out = last_n 4 messages)
            \/ exists n first rest,
                 (4 <= n < length messages)%nat
                 /\ firstn (length messages - n) messages = first :: rest
                 /\ ((exists t0 t1 s,
                        strftime_ymd_hm env (timestamp first) = Ok t0
                        /\ strftime_ymd_hm env
                             (timestamp (List.last (first :: rest) first)) = Ok t1
                        /\ role s = SYSTEM
                        /\ content s = placeholder (length (first :: rest)) t0 t1
                        /\ out = s :: last_n n messages)
                     \/ (((exists e, strftime_ymd_hm env (timestamp first) = Raise e)
                          \/ (exists e, strftime_ymd_hm env
                                          (timestamp (List.last (first :: rest) first))
                                        = Raise e))
                         /\ out = last_n n messages))))
  /\ (forall older, exists s, _create_conversation_summary env older = Ok s).
Proof.
  split; [apply truncate_if_needed_total|].
  split.
  { intros e He. unfold _count_conversation_tokens. rewrite He. reflexivity. }
  split.
  { intros available e. apply escaped_error_returns_original. }
  split; [|apply create_conversation_summary_total].
  intros Hdown.
  destruct (truncate_if_needed_exact env messages new_message_content)
    as (out & Hout & Hcases).
  exists out. split; [exact Hout|].
  destruct Hcases as [->|[Hfour|(n & first & rest & Hn & Holder & Hsum)]];
    [left; reflexivity | right; left; exact Hfour |].
  right. right. exists n, first, rest. split; [exact Hn|]. split; [exact Holder|].
  destruct (unreachable_summary env first rest Hdown) as [Hsome Hnone].
  destruct Hsum as [(s & Hs & ->)|[Hs ->]].
  - left. destruct (Hsome s Hs) as (t0 & t1 & H0 & H1 & Hrole & Hcontent).
    exists t0, t1, s. auto 6.
  - right. split; [apply Hnone; exact Hs | reflexivity].
Qed.

Lemma truncate_if_needed_degrades_witness :
  _count_conversation_tokens Samples.no_tokenizer_env (Samples.history 8 2000) "" = Ok 4000
  /\ truncate_if_needed Samples.no_tokenizer_env (Samples.history 8 2000) ""
     = Ok (Samples.history 8 2000)
  /\ exists out,
       truncate_if_needed Samples.offline_env (Samples.history 8 400) "" = Ok out
       /\ (out = Samples.history 8 400
           \/ ((4 < length (Samples.history 8 400))%nat
               /\ out = last_n 4 (Samples.history 8 400))
           \/ exists n first rest,
                (4 <= n < length (Samples.history 8 400))%nat
                /\ firstn (length (Samples.history 8 400) - n) (Samples.history 8 400)
                   = first :: rest
                /\ ((exists t0 t1 s,
                       strftime_ymd_hm Samples.offline_env (timestamp first) = Ok t0
                       /\ strftime_ymd_hm Samples.offline_env
                            (timestamp (List.last (first :: rest) first)) = Ok t1
                       /\ role s = SYSTEM
                       /\ content s = placeholder (length (first :: rest)) t0 t1
                       /\ out = s :: last_n n (Samples.history 8 400))
                    \/ (((exists e, strftime_ymd_hm Samples.offline_env (timestamp first)
                                    = Raise e)
                         \/ (exists e, strftime_ymd_hm Samples.offline_env
                                         (timestamp (List.last (first :: rest) first))
                                       = Raise e))
                        /\ out = last_n n (Samples.history 8 400)))).
Proof.
  destruct (truncate_if_needed_degrades
              Samples.no_tokenizer_env (Samples.history 8 2000) "")
    as (_ & Hcount & Hescaped & _).
  destruct (truncate_if_needed_degrades Samples.offline_env (Samples.history 8 400) "")
    as (_ & _ & _ & Hdown & _).
  split; [|split].
  - rewrite (Hcount (RuntimeError "cannot load cl100k_base")); reflexivity.
  - apply (Hescaped 2596 (RuntimeError "cannot load cl100k_base")); reflexivity.
  - apply Hdown. intros p m prompt.
    exists (RuntimeError "connection refused"). reflexivity.
Defined.

(** Whatever the configuration, the tokenizer and the provider do,
    [truncate_if_needed] returns a list that is no longer than the history
    and keeps at least four messages (all of them when there are fewer).  It
    is the history itself, or its last four messages, or a longer suffix
    that costs at most 70% of the available budget, alone or behind one
    summary message built from exactly the messages in front of it. *)
Theorem truncate_if_needed_shape (env : Env) (messages : list ChatMessage)
    (new_message_content : string) :
  exists out,
    truncate_if_needed env messages new_message_content = Ok out
    /\ (length out <= length messages)%nat
    /\ (Nat.min 4 (length messages) <= length out)%nat
    /\ (out = messages
        \/ out = last_n 4 messages
        \/ exists n enc total available,
             (4 <= n <= length messages)%nat
             /\ _get_encoding env = Ok enc
             /\ available_tokens env = Ok available
             /\ count_messages enc (last_n n messages) 0 = Ok total
             /\ 10 * total <= 7 * available
             /\ (out = last_n n messages
                 \/ exists s,
                      (n < length messages)%nat
                      /\ _create_conversation_summary env
                           (firstn (length messages - n) messages) = Ok (Some s)
                      /\ out = s :: last_n n messages)).
Proof.
  destruct (truncate_if_needed_cases env messages new_message_content)
    as (out & Hout & Hcases).
  exists out. split; [exact Hout|].
  destruct Hcases as [->|[[Hgt ->]|(n & enc & total & a & Hn & Hrest)]].
  - split; [lia|]. split; [lia|]. left. reflexivity.
  - rewrite last_n_length by lia. split; [lia|]. split; [lia|]. right. left. reflexivity.
  - assert (Hlen : (length out <= length messages)%nat /\ (4 <= length out)%nat).
    { destruct Hrest as (_ & _ & _ & _ & [->|(s & Hlt & _ & ->)]); cbn [length];
        rewrite last_n_length by lia; lia. }
    split; [lia|]. split; [lia|]. right. right.
    exists n, enc, total, a. split; [exact Hn | exact Hrest].
Qed.

(** *** Counting *)

Lemma count_messages_app (enc : Encoding) (a b : list ChatMessage) (acc : Z) :
  count_messages enc (a ++ b) acc
  = (t ← count_messages enc a acc; count_messages enc b t).
Proof.
  revert acc. induction a as [|m a IH]; intros acc; [reflexivity|].
  cbn [app count_messages]. unfold_bind.
  destruct (count_tokens enc (content m)) as [n|e]; [|reflexivity].
  apply IH.
Qed.

Lemma count_messages_lower (enc : Encoding) (l : list ChatMessage) (acc t : Z) :
  count_messages enc l acc = Ok t -> acc + 4 * Z.of_nat (length l) <= t.
Proof.
  revert acc. induction l as [|m l IH]; intros acc.
  { intros [= <-]. simpl. lia. }
  cbn [count_messages]. unfold_bind.
  destruct (count_tokens enc (content m)) as [n|e] eqn:Hn; [|discriminate].
  intros Hrest. apply IH in Hrest.
  unfold count_tokens in Hn. unfold_bind.
  destruct (enc (content m)) as [toks|e]; [|discriminate]. injection Hn as <-.
  cbn [length]. lia.
Qed.

(** With a working tokenizer the count is additive: the count of a
    history extended by further messages is the count of the history (new
    message included) plus the count of the further messages alone; and every
    message costs at least its overhead of 4. *)
Theorem count_conversation_tokens_additive (env : Env)
    (messages further : list ChatMessage) (new_message_content : string) (t t' : Z) :
  tokenizer_count env messages new_message_content = Ok t ->
  tokenizer_count env further EmptyString = Ok t' ->
  _count_conversation_tokens env (messages ++ further) new_message_content = Ok (t + t')
  /\ 4 * Z.of_nat (length messages) <= t.
Proof.
  unfold _count_conversation_tokens, tokenizer_count.
  destruct (_get_encoding env) as [enc|e]; unfold_bind; [|discriminate].
  destruct (count_messages enc messages 0) as [c|e] eqn:Hc; [|discriminate].
  destruct (count_messages enc further 0) as [c'|e] eqn:Hc'; [|discriminate].
  cbn [str_truthy]. intros Ht [= <-].
  rewrite count_messages_app, Hc. unfold_bind.
  rewrite count_messages_acc, Hc'. unfold_bind.
  apply count_messages_lower in Hc.
  destruct (str_truthy new_message_content).
  - destruct (count_tokens enc new_message_content) as [n|e] eqn:Hn; [|discriminate].
    injection Ht as <-. cbn [try_except]. split; [f_equal; lia|].
    unfold count_tokens in Hn. unfold_bind.
    destruct (enc new_message_content); [|discriminate]. injection Hn as <-. lia.
  - injection Ht as <-. cbn [try_except]. split; [f_equal; lia | lia].
Qed.

Lemma count_conversation_tokens_additive_witness :
  _count_conversation_tokens Samples.offline_env
    (Samples.history 3 20 ++ Samples.history 2 20) "hello" = Ok (81 + 48)
  /\ 4 * Z.of_nat (length (Samples.history 3 20)) <= 81.
Proof.
  apply (count_conversation_tokens_additive Samples.offline_env
           (Samples.history 3 20) (Samples.history 2 20) "hello" 81 48);
    reflexivity.
Defined.

End TruncationMoreProps.

(** ** The chat session *)

Module SessionProps.

Import Truncation TruncationProps TruncationMoreProps Session.

Lemma last_n_all (l : list ChatMessage) : last_n (length l) l = l.
Proof.
  unfold last_n. rewrite Nat.sub_diag. reflexivity.
Qed.

Lemma prepare_drops_system (system_prompt : string) (s : ChatMessage)
    (history : list ChatMessage) (context_items : list Retrieval.Item) :
  role s = SYSTEM ->
  _prepare_llm_messages system_prompt (s :: history) context_items
  = _prepare_llm_messages system_prompt history context_items.
Proof.
  intros Hs. unfold _prepare_llm_messages. cbn [List.filter]. rewrite Hs. reflexivity.
Qed.

(** The summary never reaches the provider.  [_prepare_llm_messages]
    passes on user and assistant messages only, so what is sent after a
    truncation is the system prompt followed by the dialogue of a plain suffix
    of the history: the summary message that stands for the dropped messages
    is filtered out with every other system message. *)
Theorem summary_never_reaches_llm (env : Env) (messages : list ChatMessage)
    (new_message_content system_prompt : string) (context_items : list Retrieval.Item) :
  exists out n,
    truncate_if_needed env messages new_message_content = Ok out
    /\ (n <= length messages)%nat
    /\ _prepare_llm_messages system_prompt out context_items
       = _prepare_llm_messages system_prompt (last_n n messages) context_items
    /\ Forall (fun m => llm_role m = "user"%string \/ llm_role m = "assistant"%string)
         (tl (_prepare_llm_messages system_prompt out context_items)).
Proof.
  destruct (truncate_if_needed_cases env messages new_message_content)
    as (out & Hout & Hshape).
  assert (Hroles : forall h,
    Forall (fun m => llm_role m = "user"%string \/ llm_role m = "assistant"%string)
      (tl (_prepare_llm_messages system_prompt h context_items))).
  { intros h. unfold _prepare_llm_messages. cbn [tl].
    induction h as [|m h IH]; cbn [List.filter map]; [constructor|].
    destruct (role m) eqn:Hr; cbn [is_dialogue]; [exact IH| |];
      cbn [map]; (constructor; [cbn [llm_role]; rewrite Hr; cbn; auto | exact IH]). }
  exists out.
  destruct Hshape as [->|[[Hgt ->]|(n & enc & total & a & Hn & _ & _ & _ & _ & Hcase)]].
  - exists (length messages). rewrite last_n_all. auto.
  - exists 4%nat. split; [exact Hout|]. split; [lia|]. auto.
  - exists n. split; [exact Hout|]. split; [lia|]. split; [|apply Hroles].
    destruct Hcase as [->|(s & _ & Hsum & ->)]; [reflexivity|].
    apply prepare_drops_system. exact (summary_role _ _ _ Hsum).
Qed.

(** The one truncation the session does not notice.  [process_message]
    writes the truncated conversation back only when it is shorter than the
    history; a result of the same length is either the history itself or the
    history with its oldest message replaced by a summary, and that one is
    not written back. *)
Theorem undetected_truncation (env : Env) (messages out : list ChatMessage)
    (new_message_content : string) :
  truncate_if_needed env messages new_message_content = Ok out ->
  truncation_detected messages out = false ->
  out = messages
  \/ exists s,
       (4 < length messages)%nat
       /\ _create_conversation_summary env (firstn 1 messages) = Ok (Some s)
       /\ role s = SYSTEM
       /\ out = s :: skipn 1 messages.
Proof.
  intros Hout Hsame. unfold truncation_detected in Hsame. apply Nat.ltb_ge in Hsame.
  destruct (truncate_if_needed_cases env messages new_message_content)
    as (out' & Hout' & Hshape).
  rewrite Hout in Hout'. injection Hout' as <-.
  destruct Hshape as [->|[[Hgt ->]|(n & enc & total & a & Hn & _ & _ & _ & _ & Hcase)]].
  - left. reflexivity.
  - rewrite last_n_length in Hsame by lia. lia.
  - destruct Hcase as [->|(s & Hlt & Hsum & ->)].
    + left. rewrite last_n_length in Hsame by lia.
      replace n with (length messages) by lia. apply last_n_all.
    + right. cbn [length] in Hsame. rewrite last_n_length in Hsame by lia.
      assert (Hn1 : (length messages - n = 1)%nat) by lia.
      exists s. split; [lia|]. rewrite Hn1 in Hsum. split; [exact Hsum|].
      split; [exact (summary_role _ _ _ Hsum)|].
      unfold last_n. rewrite Hn1. reflexivity.
Qed.

Lemma undetected_truncation_witness :
  MoreSamples.offline_summary_of_one :: skipn 1 MoreSamples.five_long = MoreSamples.five_long
  \/ exists s,
       (4 < length MoreSamples.five_long)%nat
       /\ _create_conversation_summary Samples.offline_env
            (firstn 1 MoreSamples.five_long) = Ok (Some s)
       /\ role s = SYSTEM
       /\ MoreSamples.offline_summary_of_one :: skipn 1 MoreSamples.five_long
          = s :: skipn 1 MoreSamples.five_long.
Proof.
  apply (undetected_truncation Samples.offline_env MoreSamples.five_long
           (MoreSamples.offline_summary_of_one :: skipn 1 MoreSamples.five_long)
           (Samples.text_of_length 1000)).
  - vm_compute. reflexivity.
  - reflexivity.
Defined.

End SessionProps.

(** ** The vector store: round trips *)

Module StoreRoundTrips.

Import VectorStore VectorStoreProps StoreInvariant.

(** The loop leaves alone the ids it does not carry and the slots below
    its start. *)
Lemma store_batch_other (ml : list Metadata) (s : Store) (start : nat) :
  (forall item, ~ In item (map item_id ml) ->
     id_to_faiss (store_batch s start ml) !! item = id_to_faiss s !! item)
  /\ (forall i, (i < start)%nat ->
        metadata (store_batch s start ml) !! i = metadata s !! i).
Proof.
  revert s start. induction ml as [|m ml IH]; intros s start; [split; reflexivity|].
  cbn [store_batch map].
  match goal with |- context [store_batch ?x (S start) ml] => set (s1 := x) end.
  destruct (IH s1 (S start)) as [Hid Hmd]. split.
  - intros item Hnot. rewrite Hid by (intros Hin; apply Hnot; right; exact Hin).
    subst s1. cbn [id_to_faiss]. apply lookup_insert_ne.
    intros E. apply Hnot. left. exact E.
  - intros i Hi. rewrite Hmd by lia. subst s1. cbn [metadata].
    apply lookup_insert_ne. lia.
Qed.

Lemma store_batch_lookup (ml : list Metadata) (s : Store) (start : nat) (m : Metadata) :
  NoDup (map item_id ml) -> In m ml ->
  exists i, id_to_faiss (store_batch s start ml) !! item_id m = Some i
            /\ metadata (store_batch s start ml) !! i = Some m.
Proof.
  revert s start. induction ml as [|m0 ml IH]; intros s start Hnd Hin; [destruct Hin|].
  cbn [map] in Hnd. apply NoDup_cons in Hnd as [Hnotin Hnd].
  cbn [store_batch].
  match goal with |- context [store_batch ?x (S start) ml] => set (s1 := x) end.
  destruct Hin as [->|Hin]; [|apply IH; assumption].
  destruct (store_batch_other ml s1 (S start)) as [Hid Hmd].
  exists start. rewrite Hid, Hmd by (try lia; rewrite <- list_elem_of_In; exact Hnotin).
  subst s1. cbn [id_to_faiss metadata]. rewrite !lookup_insert_eq. auto.
Qed.

Lemma get_after_add (w w' : World) (embeddings : list vector)
    (metadata_list : list Metadata) (m : Metadata) :
  add_embeddings w embeddings metadata_list = (Ok tt, w') ->
  NoDup (map item_id metadata_list) ->
  In m metadata_list ->
  deleted m = false ->
  get_embedding_metadata (mem w') (item_id m) = Some m.
Proof.
  intros Hadd Hnd Hin Hlive. pose proof Hadd as Hcall.
  apply add_embeddings_ok_inv in Hadd as [[-> _]|(Hlen & _ & ->)].
  { destruct metadata_list; [destruct Hin | discriminate Hcall]. }
  cbn [_save_index mem]. unfold get_embedding_metadata. cbn [bump_next id_to_faiss metadata].
  destruct (store_batch_lookup metadata_list
              (set_index (mem w) (index (mem w) ++ _normalize_embeddings embeddings))
              (next_faiss_id (mem w)) m Hnd Hin) as (i & -> & ->).
  rewrite Hlive. reflexivity.
Qed.

Lemma get_after_add_other (w w' : World) (embeddings : list vector)
    (metadata_list : list Metadata) (item : string) :
  add_embeddings w embeddings metadata_list = (Ok tt, w') ->
  slots_bounded (mem w) -> mapped_live (mem w) ->
  ~ In item (map item_id metadata_list) ->
  get_embedding_metadata (mem w') item = get_embedding_metadata (mem w) item.
Proof.
  intros Hadd Hb Hl Hnot.
  apply add_embeddings_ok_inv in Hadd as [[_ ->]|(_ & _ & ->)]; [reflexivity|].
  cbn [_save_index mem]. unfold get_embedding_metadata. cbn [bump_next id_to_faiss metadata].
  destruct (store_batch_other metadata_list
              (set_index (mem w) (index (mem w) ++ _normalize_embeddings embeddings))
              (next_faiss_id (mem w))) as [Hid Hmd].
  rewrite Hid by exact Hnot. cbn [set_index id_to_faiss].
  destruct (id_to_faiss (mem w) !! item) as [j|] eqn:Hj; [|reflexivity].
  destruct (Hl item j Hj) as (m0 & Hrec & _ & _).
  rewrite Hmd by (apply Hb in Hrec; exact Hrec). reflexivity.
Qed.

(** Insert and look up: after a batch with pairwise distinct item ids has
    been added, [get_embedding_metadata] returns for each of its items the
    very metadata that was handed in (unless that arrived flagged deleted),
    and, in a store kept by guarded calls, the lookup of every item outside
    the batch is what it was. *)
Theorem add_then_get_metadata (w w' : World) (embeddings : list vector)
    (metadata_list : list Metadata) :
  add_embeddings w embeddings metadata_list = (Ok tt, w') ->
  NoDup (map item_id metadata_list) ->
  (forall m, In m metadata_list -> deleted m = false ->
             get_embedding_metadata (mem w') (item_id m) = Some m)
  /\ (store_inv (mem w) ->
      forall item, ~ In item (map item_id metadata_list) ->
        get_embedding_metadata (mem w') item = get_embedding_metadata (mem w) item).
Proof.
  intros Hadd Hnd. split.
  - intros m Hin Hlive. exact (get_after_add w w' embeddings metadata_list m Hadd Hnd Hin Hlive).
  - intros (Hb & _ & Hl) item Hnot.
    exact (get_after_add_other w w' embeddings metadata_list item Hadd Hb Hl Hnot).
Qed.

Lemma add_then_get_metadata_witness :
  (forall m, In m [Samples.meta "a"; Samples.meta "b"] -> deleted m = false ->
             get_embedding_metadata (mem Samples.two_axes) (item_id m) = Some m)
  /\ (store_inv (mem (fresh_world 2)) ->
      forall item, ~ In item (map item_id [Samples.meta "a"; Samples.meta "b"]) ->
        get_embedding_metadata (mem Samples.two_axes) item
        = get_embedding_metadata (mem (fresh_world 2)) item).
Proof.
  apply (add_then_get_metadata (fresh_world 2) Samples.two_axes
           [Samples.e1; Samples.e2] [Samples.meta "a"; Samples.meta "b"]).
  - reflexivity.
  - cbn [map]. repeat (apply NoDup_cons; split;
                       [rewrite list_elem_of_In; simpl; intuition discriminate|]).
    apply NoDup_nil_2.
Defined.

Lemma get_after_remove (w : World) (item other : string) :
  mapped_live (mem w) -> other <> item ->
  get_embedding_metadata (mem (remove_embedding w item)) other
  = get_embedding_metadata (mem w) other.
Proof.
  intros Hl Hne. unfold remove_embedding.
  destruct (id_to_faiss (mem w) !! item) as [fid|] eqn:Hfid; [|reflexivity].
  cbn [_save_index mem]. unfold get_embedding_metadata. cbn [id_to_faiss metadata].
  rewrite lookup_delete_ne by congruence.
  destruct (id_to_faiss (mem w) !! other) as [j|] eqn:Hj; [|reflexivity].
  rewrite lookup_alter_ne; [reflexivity|].
  intros <-. destruct (Hl item fid Hfid) as (m1 & H1 & Hid1 & _).
  destruct (Hl other fid Hj) as (m2 & H2 & Hid2 & _). congruence.
Qed.

(** Removal is idempotent and local.  Removing an item a second time, or
    removing an item the store does not map, changes nothing; the index keeps
    its size; and, in a store kept by guarded calls, the lookup of every
    other item is what it was. *)
Theorem remove_embedding_idempotent (w : World) (item : string) :
  remove_embedding (remove_embedding w item) item = remove_embedding w item
  /\ (id_to_faiss (mem w) !! item = None -> remove_embedding w item = w)
  /\ index (mem (remove_embedding w item)) = index (mem w)
  /\ (forall other, mapped_live (mem w) -> other <> item ->
        get_embedding_metadata (mem (remove_embedding w item)) other
        = get_embedding_metadata (mem w) other).
Proof.
  split; [|split; [|split]].
  - pose proof (remove_embedding_unmaps w item) as Hnone.
    unfold remove_embedding at 1. rewrite Hnone. reflexivity.
  - intros Hnone. unfold remove_embedding. rewrite Hnone. reflexivity.
  - unfold remove_embedding. destruct (id_to_faiss (mem w) !! item); reflexivity.
  - intros other Hl Hne. apply get_after_remove; assumption.
Qed.

(** An update is not atomic.  When the new vector does not have the
    dimension of the store, [update_embedding] raises after the old record
    has been flagged deleted and unmapped (and that state saved): the item is
    no longer found, although the update failed. *)
Theorem update_embedding_failure_drops_item (w : World) (item : string)
    (embedding : vector) (m : Metadata) :
  length embedding <> dimension (mem w) ->
  update_embedding w item embedding m
  = (Raise (AssertionError "d == self.d"), remove_embedding w item)
  /\ get_embedding_metadata (mem (remove_embedding w item)) item = None
  /\ (id_to_faiss (mem w) !! item <> None ->
      disk (remove_embedding w item) = Some (mem (remove_embedding w item))).
Proof.
  intros Hdim. split; [|split].
  - unfold update_embedding.
    assert (Hw : match id_to_faiss (mem w) !! item with
                 | Some _ => remove_embedding w item
                 | None => w
                 end = remove_embedding w item).
    { unfold remove_embedding. destruct (id_to_faiss (mem w) !! item); reflexivity. }
    rewrite Hw. unfold add_embeddings. cbn [length Nat.eqb negb]. cbv zeta.
    unfold index_add, _normalize_embeddings. cbn [map forallb].
    rewrite normalize_row_length.
    assert (Hd : dimension (mem (remove_embedding w item)) = dimension (mem w)).
    { unfold remove_embedding. destruct (id_to_faiss (mem w) !! item); reflexivity. }
    rewrite Hd. destruct (Nat.eqb_spec (length embedding) (dimension (mem w)));
      [contradiction | reflexivity].
  - unfold get_embedding_metadata. rewrite remove_embedding_unmaps. reflexivity.
  - unfold remove_embedding. destruct (id_to_faiss (mem w) !! item); [reflexivity|].
    intros H. contradiction.
Qed.

Lemma update_embedding_failure_drops_item_witness :
  update_embedding Samples.two_axes "a" [1; 0; 0]%R (Samples.meta "a")
  = (Raise (AssertionError "d == self.d"), remove_embedding Samples.two_axes "a")
  /\ get_embedding_metadata (mem (remove_embedding Samples.two_axes "a")) "a" = None
  /\ (id_to_faiss (mem Samples.two_axes) !! "a"%string <> None ->
      disk (remove_embedding Samples.two_axes "a")
      = Some (mem (remove_embedding Samples.two_axes "a"))).
Proof.
  apply (update_embedding_failure_drops_item Samples.two_axes "a" [1; 0; 0]%R
           (Samples.meta "a")).
  change (dimension (mem Samples.two_axes)) with 2%nat. simpl. lia.
Defined.

End StoreRoundTrips.

(** ** Histories of checked calls *)

Module CheckedHistories.

Import VectorStore VectorStoreProps StoreInvariant StoreRoundTrips StoreMore.

Lemma store_batch_bound (ml : list Metadata) (s : Store) (start : nat) :
  (forall i m, metadata s !! i = Some m -> (i < start)%nat) ->
  forall i m, metadata (store_batch s start ml) !! i = Some m ->
              (i < start + length ml)%nat.
Proof.
  revert s start. induction ml as [|m0 ml IH]; intros s start Hb i m Hi.
  { simpl in *. apply Hb in Hi. lia. }
  cbn [store_batch] in Hi. apply IH in Hi; [cbn [length]; lia|].
  intros j mj. cbn [metadata]. destruct (decide (j = start)) as [->|Hne]; [lia|].
  rewrite lookup_insert_ne by congruence. intros H. apply Hb in H. lia.
Qed.

(** The slots of a batch hold its records in order, and with pairwise
    distinct item ids each id is mapped to the slot of its record. *)
Lemma store_batch_slots (ml : list Metadata) (s : Store) (start : nat) :
  (forall j m, ml !! j = Some m ->
     metadata (store_batch s start ml) !! (start + j)%nat = Some m)
  /\ (NoDup (map item_id ml) ->
      forall j m, ml !! j = Some m ->
        id_to_faiss (store_batch s start ml) !! item_id m = Some (start + j)%nat).
Proof.
  revert s start. induction ml as [|m0 ml IH]; intros s start.
  { split; [intros j m H | intros _ j m H]; discriminate H. }
  cbn [store_batch].
  match goal with |- context [store_batch ?x (S start) ml] => set (s1 := x) end.
  destruct (IH s1 (S start)) as [Hmd Hid].
  destruct (store_batch_other ml s1 (S start)) as [Oid Omd].
  split.
  - intros [|j] m Hj.
    + injection Hj as <-. rewrite Nat.add_0_r, Omd by lia.
      subst s1. cbn [metadata]. apply lookup_insert_eq.
    + replace (start + S j)%nat with (S start + j)%nat by lia. apply Hmd. exact Hj.
  - intros Hnd. cbn [map] in Hnd. apply NoDup_cons in Hnd as [Hnotin Hnd].
    intros [|j] m Hj.
    + injection Hj as <-. rewrite Nat.add_0_r, Oid
        by (rewrite <- list_elem_of_In; exact Hnotin).
      subst s1. cbn [id_to_faiss]. apply lookup_insert_eq.
    + replace (start + S j)%nat with (S start + j)%nat by lia.
      apply Hid; assumption.
Qed.

Lemma kept_fresh (d : nat) : kept (_create_new_index d).
Proof.
  split; intros i m; simpl; rewrite lookup_empty; discriminate.
Qed.

Lemma remove_embedding_kept (w : World) (item : string) :
  kept (mem w) -> kept (mem (remove_embedding w item)).
Proof.
  intros (Hb & Hm). unfold remove_embedding.
  destruct (id_to_faiss (mem w) !! item) as [fid|] eqn:Hfid; [|split; assumption].
  cbn [_save_index mem]. split.
  - intros i m Hi. cbn [metadata next_faiss_id] in *.
    destruct (decide (i = fid)) as [->|Hne].
    + rewrite lookup_alter_eq in Hi.
      destruct (metadata (mem w) !! fid) as [m0|] eqn:H0; [|discriminate].
      eapply Hb; eassumption.
    + rewrite lookup_alter_ne in Hi by congruence. eapply Hb; eassumption.
  - intros i m Hi Hdel. cbn [metadata id_to_faiss] in *.
    destruct (decide (i = fid)) as [->|Hne].
    + rewrite lookup_alter_eq in Hi.
      destruct (metadata (mem w) !! fid) as [m0|]; [|discriminate].
      injection Hi as <-. discriminate.
    + rewrite lookup_alter_ne in Hi by congruence.
      pose proof (Hm i m Hi Hdel) as Hmap.
      rewrite lookup_delete_ne; [exact Hmap|].
      intros ->. congruence.
Qed.

Lemma add_embeddings_kept (w : World) (embeddings : list vector) (ml : list Metadata) :
  kept (mem w) ->
  checked w (AddEmbeddings embeddings ml) ->
  kept (mem (snd (add_embeddings w embeddings ml))).
Proof.
  intros (Hb & Hm) [Hnd Hall].
  destruct (add_embeddings w embeddings ml) as [[[]|e] w'] eqn:Hadd; cbn [snd].
  2:{ apply add_embeddings_raise_inv in Hadd as ->. split; assumption. }
  apply add_embeddings_ok_inv in Hadd as [[_ ->]|(Hlen & _ & ->)]; [split; assumption|].
  cbn [_save_index mem].
  set (s0 := set_index (mem w) (index (mem w) ++ _normalize_embeddings embeddings)).
  set (start := next_faiss_id (mem w)).
  destruct (store_batch_frame s0 start ml) as (_ & _ & Hnext).
  destruct (store_batch_other ml s0 start) as [Oid Omd].
  destruct (store_batch_slots ml s0 start) as [Smd Sid].
  assert (Hbound : forall i m, metadata (store_batch s0 start ml) !! i = Some m ->
                               (i < start + length ml)%nat).
  { apply store_batch_bound. exact Hb. }
  split.
  - intros i m Hi. cbn [bump_next metadata next_faiss_id] in *.
    apply Hbound in Hi. rewrite Hnext. unfold s0, start in *.
    cbn [set_index next_faiss_id]. lia.
  - intros i m Hi Hlive. cbn [bump_next metadata id_to_faiss] in *.
    destruct (Nat.lt_ge_cases i start) as [Hold|Hnew].
    + rewrite Omd in Hi by exact Hold. unfold s0 in Hi. cbn [set_index metadata] in Hi.
      pose proof (Hm i m Hi Hlive) as Hmap.
      rewrite Oid; [exact Hmap|].
      intros Hin. apply in_map_iff in Hin as (m' & Hid & Hin).
      rewrite List.Forall_forall in Hall. specialize (Hall m' Hin).
      unfold get_embedding_metadata in Hall. rewrite Hid, Hmap, Hi, Hlive in Hall.
      discriminate.
    + pose proof (Hbound i m Hi) as Hlt.
      destruct (ml !! (i - start)%nat) as [m'|] eqn:Hj.
      2:{ apply lookup_ge_None in Hj. lia. }
      pose proof (Smd _ _ Hj) as Hrec.
      replace (start + (i - start))%nat with i in Hrec by lia.
      rewrite Hrec in Hi. injection Hi as <-.
      rewrite (Sid Hnd _ _ Hj). f_equal. lia.
Qed.

(** A lookup that finds nothing finds nothing after a removal. *)
Lemma get_none_after_remove (w : World) (item other : string) :
  get_embedding_metadata (mem w) other = None ->
  get_embedding_metadata (mem (remove_embedding w item)) other = None.
Proof.
  unfold remove_embedding.
  destruct (id_to_faiss (mem w) !! item) as [fid|] eqn:Hfid; [|auto].
  cbn [_save_index mem]. unfold get_embedding_metadata. cbn [id_to_faiss metadata].
  destruct (decide (other = item)) as [->|Hne]; [rewrite lookup_delete_eq; reflexivity|].
  rewrite lookup_delete_ne by congruence.
  destruct (id_to_faiss (mem w) !! other) as [j|]; [|reflexivity].
  destruct (decide (j = fid)) as [->|Hj].
  - rewrite lookup_alter_eq. destruct (metadata (mem w) !! fid); reflexivity.
  - rewrite lookup_alter_ne by congruence. auto.
Qed.

Lemma step_kept (w : World) (op : Op) :
  kept (mem w) -> checked w op -> kept (mem (step w op)).
Proof.
  intros Hk Hc. destruct op as [embeddings ml|item embedding m|item]; cbn [step].
  - apply add_embeddings_kept; assumption.
  - cbn [checked] in Hc. unfold update_embedding.
    assert (Hpre : forall w1, kept (mem w1) ->
                   get_embedding_metadata (mem w1) (item_id m) = None ->
                   kept (mem (snd (add_embeddings w1 [embedding] [m])))).
    { intros w1 Hk1 Hnone. apply add_embeddings_kept; [exact Hk1|]. split.
      - cbn [map]. apply NoDup_cons. split; [apply not_elem_of_nil | apply NoDup_nil_2].
      - constructor; [exact Hnone | constructor]. }
    destruct (id_to_faiss (mem w) !! item) eqn:Hlook.
    + apply Hpre; [apply remove_embedding_kept; exact Hk|].
      destruct Hc as [Hc|Hc]; [|apply get_none_after_remove; exact Hc].
      unfold get_embedding_metadata. rewrite Hc, remove_embedding_unmaps. reflexivity.
    + apply Hpre; [exact Hk|].
      destruct Hc as [Hc|Hc]; [|exact Hc].
      unfold get_embedding_metadata. rewrite Hc, Hlook. reflexivity.
  - apply remove_embedding_kept. exact Hk.
Qed.

(** C3 (as amended).  In every state reached from an empty store by
    checked calls (batches of pairwise distinct item ids for which
    [get_embedding_metadata] finds nothing; updates whose metadata carries
    the id they name, or an id for which [get_embedding_metadata] finds
    nothing; any removals), whether the calls return or raise and whether or
    not metadata arrives flagged deleted, no two records that are not deleted
    share an item id, and the item id of every such record maps to that
    record's slot, the one slot the mapping holds for it. *)
Theorem checked_unique_active (d : nat) (w : World) :
  reachable_checked d w ->
  unique_active (mem w) /\ active_mapped (mem w).
Proof.
  intros Hr.
  assert (Hk : kept (mem w)).
  { induction Hr as [|w op _ IH Hc]; [apply kept_fresh | apply step_kept; assumption]. }
  destruct Hk as (_ & Hm). split; [apply active_mapped_unique|]; exact Hm.
Qed.

Lemma checked_unique_active_witness :
  unique_active (mem CheckedSamples.readded)
  /\ active_mapped (mem CheckedSamples.readded).
Proof.
  apply (checked_unique_active 2 CheckedSamples.readded).
  change CheckedSamples.readded
    with (step (step (step (step (fresh_world 2)
            (AddEmbeddings [Samples.e1] [CheckedSamples.flagged "a"]))
            (AddEmbeddings [Samples.e1; Samples.e2] [Samples.meta "a"; Samples.meta "b"]))
            (UpdateEmbedding "a" Samples.e2 (Samples.meta "a")))
            (RemoveEmbedding "b")).
  repeat apply reachable_checked_step.
  - apply reachable_checked_fresh.
  - split; [|repeat constructor].
    cbn [map]. apply NoDup_cons. split; [apply not_elem_of_nil | apply NoDup_nil_2].
  - split; [|repeat constructor].
    cbn [map]. repeat (apply NoDup_cons; split;
                       [rewrite list_elem_of_In; simpl; intuition discriminate|]).
    apply NoDup_nil_2.
  - left. reflexivity.
  - exact I.
Defined.

End CheckedHistories.

(** ** Order, bounds and range of search results *)

Module SearchOrder.

Import VectorStore VectorStoreProps StoreInvariant StoreMore.

(** *** The candidate list *)

Lemma In_insert_desc (c x : R * nat) (l : list (R * nat)) :
  In x (insert_desc c l) <-> x = c \/ In x l.
Proof.
  induction l as [|d l IH]; simpl.
  - split; [intros [<-|[]]; auto | intros [->|[]]; auto].
  - destruct (Rle_dec (fst d) (fst c)); simpl.
    + split; [intros [<-|H]; auto | intros [->|H]; auto].
    + rewrite IH. split; [intros [H|[H|H]]; auto | intros [H|[H|H]]; auto].
Qed.

Lemma In_sort_desc (x : R * nat) (l : list (R * nat)) :
  In x (sort_desc l) <-> In x l.
Proof.
  induction l as [|c l IH]; simpl; [reflexivity|].
  rewrite In_insert_desc, IH. split; [intros [->|H]; auto | intros [<-|H]; auto].
Qed.

Lemma insert_desc_sorted (c : R * nat) (l : list (R * nat)) :
  StronglySorted by_score l -> StronglySorted by_score (insert_desc c l).
Proof.
  induction l as [|d l IH]; intros Hs; simpl.
  - constructor; [constructor | constructor].
  - inversion Hs as [|? ? Hl Hd]; subst.
    destruct (Rle_dec (fst d) (fst c)) as [Hle|Hgt].
    + constructor; [exact Hs|]. constructor; [exact Hle|].
      rewrite List.Forall_forall in Hd |- *. intros x Hx. specialize (Hd x Hx).
      unfold by_score in *. lra.
    + constructor; [apply IH; exact Hl|].
      rewrite List.Forall_forall in Hd |- *. intros x Hx.
      apply In_insert_desc in Hx as [->|Hx]; [unfold by_score; lra | apply Hd; exact Hx].
Qed.

Lemma sort_desc_sorted (l : list (R * nat)) : StronglySorted by_score (sort_desc l).
Proof.
  induction l as [|c l IH]; simpl; [constructor | apply insert_desc_sorted; exact IH].
Qed.

Lemma In_firstn {A : Type} (n : nat) (l : list A) (x : A) : In x (firstn n l) -> In x l.
Proof.
  revert l. induction n as [|n IH]; intros [|y l]; simpl; try tauto.
  intros [->|H]; [left; reflexivity | right; apply IH; exact H].
Qed.

Lemma firstn_sorted (n : nat) (l : list (R * nat)) :
  StronglySorted by_score l -> StronglySorted by_score (firstn n l).
Proof.
  revert l. induction n as [|n IH]; intros [|c l] Hs; simpl; try constructor.
  - apply IH. inversion Hs; assumption.
  - inversion Hs as [|? ? _ Hc]; subst.
    rewrite List.Forall_forall in Hc |- *. intros x Hx. apply Hc. eapply In_firstn, Hx.
Qed.

Lemma In_scores_from (i : nat) (idx : list vector) (q : vector) (sim : R) (fid : nat) :
  In (sim, fid) (scores_from i idx q) ->
  exists v, (i <= fid)%nat /\ idx !! (fid - i)%nat = Some v /\ sim = dot q v.
Proof.
  revert i. induction idx as [|v idx IH]; intros i; simpl; [intros []|].
  intros [[= <- <-]|Hin].
  - exists v. rewrite Nat.sub_diag. auto.
  - apply IH in Hin as (v' & Hle & Hv & Hs). exists v'.
    split; [lia|]. split; [|exact Hs].
    replace (fid - i)%nat with (S (fid - S i)) by lia. exact Hv.
Qed.

(** A candidate is a slot of the index with the inner product of the
    normalised query and the vector stored there. *)
Lemma candidates_sound (s : Store) (q : vector) (k : Z) (cands : list (R * nat))
    (sim : R) (fid : nat) :
  candidates s q k = Ok cands -> In (sim, fid) cands ->
  length q = dimension s
  /\ exists v, index s !! fid = Some v /\ sim = dot (normalize_row q) v.
Proof.
  unfold candidates, index_search. rewrite normalize_row_length.
  destruct (Nat.eqb_spec (length q) (dimension s)) as [Hd|]; simpl; [|discriminate].
  destruct (Z.min (k * 2) (Z.of_nat (ntotal s)) <=? 0); [discriminate|].
  intros [= <-] Hin. split; [exact Hd|].
  apply In_firstn in Hin. apply (proj1 (In_sort_desc _ _)) in Hin. unfold scores in Hin.
  apply In_scores_from in Hin as (v & _ & Hv & Hs).
  rewrite Nat.sub_0_r in Hv. eauto.
Qed.

Lemma candidates_sorted (s : Store) (q : vector) (k : Z) (cands : list (R * nat)) :
  candidates s q k = Ok cands -> StronglySorted by_score cands.
Proof.
  unfold candidates, index_search.
  destruct (negb _); [discriminate|].
  destruct (_ <=? 0); [discriminate|].
  intros [= <-]. apply firstn_sorted, sort_desc_sorted.
Qed.

Lemma candidates_positive (s : Store) (q : vector) (k : Z) (cands : list (R * nat)) :
  candidates s q k = Ok cands -> 0 < k.
Proof.
  unfold candidates, index_search.
  destruct (negb _); [discriminate|].
  destruct (Z.leb_spec (Z.min (k * 2) (Z.of_nat (ntotal s))) 0); [discriminate|].
  lia.
Qed.

(** *** The loop *)

Lemma descending_snoc (l : list R) (x : R) :
  descending l -> Forall (fun a => (x <= a)%R) l -> descending (l ++ [x]).
Proof.
  unfold descending. induction l as [|a l IH]; intros Hs Hall; simpl.
  - constructor; constructor.
  - inversion Hs as [|? ? Hl Ha]; subst. inversion Hall as [|? ? Hxa Hall']; subst.
    constructor; [apply IH; assumption|].
    apply Forall_app. split; [exact Ha|]. constructor; [exact Hxa | constructor].
Qed.

Lemma search_loop_descending (md : gmap nat Metadata) (k : Z) (min_similarity : R)
    (cands : list (R * nat)) (results : list SearchResult) :
  StronglySorted by_score cands ->
  descending (similarities results) ->
  Forall (fun c => Forall (fun a => (fst c <= a)%R) (similarities results)) cands ->
  descending (similarities (search_loop md k min_similarity cands results)).
Proof.
  revert results. induction cands as [|[sim fid] cands IH]; intros results Hs Hres Hlow; simpl.
  { exact Hres. }
  inversion Hs as [|? ? Hs' Hhd]; subst. inversion Hlow as [|? ? Hsim Hlow']; subst.
  simpl in Hsim.
  assert (Hnew : forall m,
    descending (similarities (results ++ [{| sr_metadata := m; similarity := sim |}]))).
  { intros m. unfold similarities. rewrite map_app. simpl.
    apply descending_snoc; assumption. }
  assert (Hlow_new : forall m,
    Forall (fun c => Forall (fun a => (fst c <= a)%R)
              (similarities (results ++ [{| sr_metadata := m; similarity := sim |}]))) cands).
  { intros m. rewrite List.Forall_forall in Hlow', Hhd |- *. intros c Hc.
    unfold similarities. rewrite map_app. apply Forall_app. split.
    - apply Hlow'. exact Hc.
    - simpl. constructor; [|constructor]. apply (Hhd c Hc). }
  destruct (Rlt_dec sim min_similarity); [apply IH; assumption|].
  destruct (md !! fid) as [m|].
  - destruct (deleted m); [apply IH; assumption|].
    destruct (_ >=? k); [apply Hnew | apply IH; auto].
  - destruct (_ >=? k); [exact Hres | apply IH; assumption].
Qed.

Lemma search_loop_length (md : gmap nat Metadata) (k : Z) (min_similarity : R)
    (cands : list (R * nat)) (results : list SearchResult) :
  Z.of_nat (length results) < k ->
  Z.of_nat (length (search_loop md k min_similarity cands results)) <= k.
Proof.
  revert results. induction cands as [|[sim fid] cands IH]; intros results Hlt; simpl; [lia|].
  destruct (Rlt_dec sim min_similarity); [apply IH; exact Hlt|].
  destruct (md !! fid) as [m|].
  - destruct (deleted m); [apply IH; exact Hlt|].
    destruct (Z.geb_spec (Z.of_nat
                (length (results ++ [{| sr_metadata := m; similarity := sim |}]))) k) as [Hge|Hlt'].
    + rewrite length_app in *. simpl in *. lia.
    + apply IH. exact Hlt'.
  - destruct (_ >=? k); [lia | apply IH; exact Hlt].
Qed.

(** *** What every history of calls keeps *)

Lemma store_batch_dense (ml : list Metadata) (s : Store) (start : nat) :
  (forall i m, metadata s !! i = Some m -> (i < start)%nat) ->
  records_indexed s ->
  size (metadata (store_batch s start ml)) = (size (metadata s) + length ml)%nat
  /\ (forall i m, metadata (store_batch s start ml) !! i = Some m ->
                  (i < start + length ml)%nat)
  /\ records_indexed (store_batch s start ml).
Proof.
  revert s start. induction ml as [|m0 ml IH]; intros s start Hb Hr; simpl.
  { rewrite !Nat.add_0_r. auto. }
  assert (Hfree : metadata s !! start = None).
  { destruct (metadata s !! start) as [m|] eqn:E; [|reflexivity].
    apply Hb in E. lia. }
  match goal with |- context [store_batch ?s1 _ _] =>
    destruct (IH s1 (S start)) as (Hsz & Hbd & Hri)
  end.
  - intros i m. simpl. destruct (decide (i = start)) as [->|Hne].
    + intros _. lia.
    + rewrite lookup_insert_ne by congruence. intros H. apply Hb in H. lia.
  - intros i m. simpl. destruct (decide (i = start)) as [->|Hne].
    + rewrite !lookup_insert_eq. intros [= <-]. reflexivity.
    + rewrite !lookup_insert_ne by congruence. apply Hr.
  - split; [|split].
    + rewrite Hsz. simpl. rewrite map_size_insert_None by exact Hfree. lia.
    + intros i m H. apply Hbd in H. lia.
    + exact Hri.
Qed.

Lemma well_formed_fresh (d : nat) : well_formed (_create_new_index d).
Proof.
  split.
  - split; [reflexivity|]. split; [reflexivity|]. intros i m. simpl.
    rewrite lookup_empty. discriminate.
  - intros i m. simpl. rewrite lookup_empty. discriminate.
Qed.

Lemma remove_embedding_well_formed (w : World) (item : string) :
  well_formed (mem w) -> well_formed (mem (remove_embedding w item)).
Proof.
  intros ((Hn & Hsz & Hb) & Hr). unfold remove_embedding.
  destruct (id_to_faiss (mem w) !! item) as [fid|]; [|repeat split; assumption].
  cbn [_save_index mem]. split.
  - split; [exact Hn|]. split.
    + cbn [metadata next_faiss_id]. rewrite <- Hsz. rewrite alter_alt.
      destruct (metadata (mem w) !! fid) as [m|] eqn:E; [|reflexivity].
      apply map_size_insert_Some. rewrite E. eauto.
    + intros i m. cbn [metadata next_faiss_id]. intros H.
      destruct (metadata (mem w) !! i) as [m'|] eqn:E.
      * apply (Hb i m'). exact E.
      * apply (proj2 (lookup_alter_None mark_deleted (metadata (mem w)) fid i)) in E.
        rewrite E in H. discriminate.
  - intros i m. cbn [metadata faiss_to_id]. intros H.
    destruct (decide (i = fid)) as [->|Hne].
    + rewrite lookup_alter_eq in H.
      destruct (metadata (mem w) !! fid) as [m'|] eqn:E; [|discriminate].
      injection H as <-. apply (Hr fid m'). exact E.
    + rewrite lookup_alter_ne in H by congruence. apply Hr. exact H.
Qed.

Lemma add_embeddings_well_formed (w : World) (embeddings : list vector)
    (ml : list Metadata) :
  well_formed (mem w) -> well_formed (mem (snd (add_embeddings w embeddings ml))).
Proof.
  intros Hwf. destruct (add_embeddings w embeddings ml) as [[[]|e] w'] eqn:Hadd; simpl.
  2:{ apply add_embeddings_raise_inv in Hadd as ->. exact Hwf. }
  apply add_embeddings_ok_inv in Hadd as [[_ ->]|(Hlen & Hdim & ->)]; [exact Hwf|].
  destruct Hwf as ((Hn & Hsz & Hb) & Hr).
  cbn [_save_index mem].
  set (s0 := set_index (mem w) (index (mem w) ++ _normalize_embeddings embeddings)).
  destruct (store_batch_frame s0 (next_faiss_id (mem w)) ml) as (Fd & Fi & Fn).
  destruct (store_batch_dense ml s0 (next_faiss_id (mem w))) as (Dsz & Dbd & Dri).
  { exact Hb. }
  { exact Hr. }
  split.
  - split; [|split].
    + unfold ntotal. cbn [bump_next next_faiss_id index]. rewrite Fn, Fi.
      unfold s0. cbn [set_index next_faiss_id index].
      rewrite length_app. unfold _normalize_embeddings. rewrite length_map.
      unfold ntotal in Hn. lia.
    + cbn [bump_next next_faiss_id metadata]. rewrite Dsz, Fn.
      unfold s0. cbn [set_index next_faiss_id metadata]. lia.
    + intros i m. cbn [bump_next next_faiss_id metadata]. intros H.
      apply Dbd in H. rewrite Fn. unfold s0. cbn [set_index next_faiss_id]. lia.
  - exact Dri.
Qed.

Lemma step_well_formed (w : World) (op : Op) :
  well_formed (mem w) -> well_formed (mem (step w op)).
Proof.
  intros Hwf. destruct op as [e ml|item e m|item]; simpl.
  - apply add_embeddings_well_formed. exact Hwf.
  - unfold update_embedding. apply add_embeddings_well_formed.
    destruct (id_to_faiss (mem w) !! item); [apply remove_embedding_well_formed|]; exact Hwf.
  - apply remove_embedding_well_formed. exact Hwf.
Qed.

Lemma run_well_formed (w : World) (ops : list Op) :
  well_formed (mem w) -> well_formed (mem (run w ops)).
Proof.
  revert w. induction ops as [|op ops IH]; intros w Hwf; simpl; [exact Hwf|].
  apply IH, step_well_formed. exact Hwf.
Qed.

Lemma search_descending (s : Store) (q : vector) (k : Z) (min_similarity : R) :
  descending (similarities (search s q k min_similarity)).
Proof.
  unfold search. destruct (ntotal s =? 0)%nat; [constructor|].
  destruct (candidates s q k) as [cands|e] eqn:Hc; [|constructor].
  apply search_loop_descending.
  - eapply candidates_sorted, Hc.
  - constructor.
  - apply List.Forall_forall. intros c _. constructor.
Qed.

Lemma search_length (s : Store) (q : vector) (k : Z) (min_similarity : R) :
  Z.of_nat (length (search s q k min_similarity)) <= Z.max 0 k.
Proof.
  unfold search. destruct (ntotal s =? 0)%nat; [simpl; lia|].
  destruct (candidates s q k) as [cands|e] eqn:Hc; [|simpl; lia].
  pose proof (candidates_positive _ _ _ _ Hc) as Hk.
  pose proof (search_loop_length (metadata s) k min_similarity cands []) as Hl.
  simpl in Hl. specialize (Hl Hk). lia.
Qed.

Lemma search_nothing (s : Store) (q : vector) (k : Z) (min_similarity : R) :
  ntotal s = 0%nat \/ k <= 0 \/ length q <> dimension s ->
  search s q k min_similarity = [].
Proof.
  unfold search. destruct (Nat.eqb_spec (ntotal s) 0) as [H0|H0]; [reflexivity|].
  destruct (candidates s q k) as [cands|e] eqn:Hc; [|reflexivity].
  pose proof (candidates_positive _ _ _ _ Hc) as Hk.
  intros [Hz|[Hle|Hd]]; [contradiction | lia |].
  unfold candidates, index_search in Hc. rewrite normalize_row_length in Hc.
  destruct (Nat.eqb_spec (length q) (dimension s)); [contradiction | discriminate].
Qed.

(** The results of [search] come in descending order of similarity,
    there are at most [max(0, k)] of them, and there are none when the index
    is empty, when [k] is not positive, or when the query has the wrong
    dimension. *)
Theorem search_results_ordered (s : Store) (q : vector) (k : Z) (min_similarity : R) :
  descending (similarities (search s q k min_similarity))
  /\ Z.of_nat (length (search s q k min_similarity)) <= Z.max 0 k
  /\ (ntotal s = 0%nat \/ k <= 0 \/ length q <> dimension s ->
      search s q k min_similarity = []).
Proof.
  split; [apply search_descending|].
  split; [apply search_length | apply search_nothing].
Qed.

End SearchOrder.

(** ** Compaction *)

Module CleanupProps.

Import VectorStore VectorStoreProps StoreInvariant StoreMore.

Lemma omap_nil {A B : Type} (f : A -> option B) (l : list A) :
  omap f l = [] -> Forall (fun x => f x = None) l.
Proof.
  induction l as [|x l IH]; simpl; [constructor|].
  destruct (f x) eqn:E; [discriminate|]. intros H. constructor; [exact E | apply IH; exact H].
Qed.

Lemma omap_cons {A B : Type} (f : A -> option B) (l : list A) (x : A) (y : B) :
  In x l -> f x = Some y -> omap f l <> [].
Proof.
  intros Hin Hf Hnil. apply omap_nil in Hnil. rewrite List.Forall_forall in Hnil.
  rewrite (Hnil x Hin) in Hf. discriminate.
Qed.

(** With no active item collected, every record is deleted, provided
    the records are known to the reverse mapping under a non-empty id. *)
Lemma no_active_items (s : Store) :
  records_indexed s ->
  (forall i m, metadata s !! i = Some m -> deleted m = false -> item_id m <> EmptyString) ->
  active_items s = [] ->
  forall i m, metadata s !! i = Some m -> deleted m = true.
Proof.
  intros Hr Hid Hnil i m Hm. apply omap_nil in Hnil. rewrite List.Forall_forall in Hnil.
  specialize (Hnil (i, m)). simpl in Hnil.
  destruct (deleted m) eqn:Hd; [reflexivity|]. exfalso.
  assert (Hin : In (i, m) (map_to_list (metadata s))).
  { apply list_elem_of_In, elem_of_map_to_list. exact Hm. }
  specialize (Hnil Hin). rewrite (Hr i m Hm) in Hnil.
  destruct (item_id m) eqn:E; [|discriminate]. apply (Hid i m Hm Hd). exact E.
Qed.

Lemma search_loop_all_deleted (md : gmap nat Metadata) (k : Z) (min_similarity : R)
    (cands : list (R * nat)) (results : list SearchResult) :
  (forall i m, md !! i = Some m -> deleted m = true) ->
  search_loop md k min_similarity cands results = results.
Proof.
  intros Hall. induction cands as [|[sim fid] cands IH]; simpl; [reflexivity|].
  destruct (Rlt_dec sim min_similarity); [exact IH|].
  destruct (md !! fid) as [m|] eqn:E.
  - rewrite (Hall fid m E). exact IH.
  - destruct (_ >=? k); [reflexivity | exact IH].
Qed.

Lemma filter_none {A : Type} (p : A -> bool) (l : list A) :
  Forall (fun x => p x = false) l -> List.filter p l = [].
Proof.
  induction 1 as [|x l Hx _ IH]; simpl; [reflexivity|]. rewrite Hx. exact IH.
Qed.

(** In a store whose records are known to the reverse mapping and
    whose active records carry a non-empty item id, [cleanup_deleted]
    changes no answer: every [search] returns the same results, every
    [get_embedding_metadata] the same record, and [get_stats] the same number
    of active embeddings, before and after. *)
Theorem cleanup_deleted_preserves (w : World) (q : vector) (k : Z) (min_similarity : R)
    (item : string) :
  records_indexed (mem w) ->
  (forall i m, metadata (mem w) !! i = Some m -> deleted m = false ->
               item_id m <> EmptyString) ->
  search (mem (cleanup_deleted w)) q k min_similarity = search (mem w) q k min_similarity
  /\ get_embedding_metadata (mem (cleanup_deleted w)) item
     = get_embedding_metadata (mem w) item
  /\ active_embeddings (get_stats (mem (cleanup_deleted w)))
     = active_embeddings (get_stats (mem w)).
Proof.
  intros Hr Hid. unfold cleanup_deleted.
  destruct (map_to_list (metadata (mem w))) as [|entry entries] eqn:Hl; [auto|].
  destruct (active_items (mem w)) as [|a rest] eqn:Ha; [|auto].
  pose proof (no_active_items (mem w) Hr Hid Ha) as Hdel.
  cbn [_save_index mem]. split; [|split].
  - unfold search at 2. destruct (ntotal (mem w) =? 0)%nat; [reflexivity|].
    destruct (candidates (mem w) q k); [|reflexivity].
    rewrite search_loop_all_deleted by exact Hdel. reflexivity.
  - unfold get_embedding_metadata. simpl. rewrite lookup_empty.
    destruct (id_to_faiss (mem w) !! item) as [fid|]; [|reflexivity].
    destruct (metadata (mem w) !! fid) as [m|] eqn:E; [|reflexivity].
    rewrite (Hdel fid m E). reflexivity.
  - unfold get_stats. cbn [active_embeddings _create_new_index metadata].
    rewrite map_to_list_empty. simpl. symmetry.
    rewrite filter_none; [reflexivity|].
    apply List.Forall_forall. intros m Hin. apply in_map_iff in Hin as ([i m'] & <- & Hin).
    apply list_elem_of_In, elem_of_map_to_list in Hin. simpl.
    rewrite (Hdel i m' Hin). reflexivity.
Qed.

Lemma cleanup_deleted_preserves_witness :
  search (mem (cleanup_deleted EngineSamples.removed_only)) Samples.e1 1 0
  = search (mem EngineSamples.removed_only) Samples.e1 1 0
  /\ get_embedding_metadata (mem (cleanup_deleted EngineSamples.removed_only)) "a"
     = get_embedding_metadata (mem EngineSamples.removed_only) "a"
  /\ active_embeddings (get_stats (mem (cleanup_deleted EngineSamples.removed_only)))
     = active_embeddings (get_stats (mem EngineSamples.removed_only)).
Proof.
  assert (Hwf : well_formed (mem EngineSamples.removed_only))
    by apply SearchOrder.run_well_formed, SearchOrder.well_formed_fresh.
  destruct Hwf as ((_ & _ & Hb) & Hr).
  apply (cleanup_deleted_preserves EngineSamples.removed_only Samples.e1 1 0 "a" Hr).
  intros i m Hm Hlive. exfalso.
  assert (Hi : (i < 1)%nat) by exact (Hb i m Hm).
  assert (i = 0%nat) as -> by lia.
  change (metadata (mem EngineSamples.removed_only) !! 0%nat)
    with (Some (mark_deleted (Samples.meta "a"))) in Hm.
  injection Hm as <-. discriminate Hlive.
Defined.

(** While one active record with a non-empty item id remains,
    [cleanup_deleted] leaves the store and the persisted state exactly as
    they are: no deleted slot is reclaimed. *)
Theorem cleanup_deleted_keeps_slots (w : World) (i : nat) (m : Metadata) :
  records_indexed (mem w) ->
  metadata (mem w) !! i = Some m ->
  deleted m = false ->
  item_id m <> EmptyString ->
  cleanup_deleted w = w.
Proof.
  intros Hr Hm Hd Hid. unfold cleanup_deleted.
  destruct (map_to_list (metadata (mem w))) as [|entry entries] eqn:Hl; [reflexivity|].
  destruct (active_items (mem w)) as [|a rest] eqn:Ha; [|reflexivity].
  exfalso. revert Ha. unfold active_items.
  apply (omap_cons _ _ (i, m) (item_id m)).
  - apply list_elem_of_In, elem_of_map_to_list. exact Hm.
  - simpl. rewrite Hd, (Hr i m Hm).
    destruct (item_id m); [contradiction | reflexivity].
Qed.

Lemma cleanup_deleted_keeps_slots_witness :
  cleanup_deleted Samples.crowded = Samples.crowded.
Proof.
  apply (cleanup_deleted_keeps_slots Samples.crowded 2 (Samples.meta "b")).
  - apply (SearchOrder.run_well_formed (fresh_world 2) Samples.crowded_ops),
      SearchOrder.well_formed_fresh.
  - reflexivity.
  - reflexivity.
  - discriminate.
Defined.

End CleanupProps.

(** ** backend/rag/embeddings.py *)

Module EmbeddingsProps.

Import VectorStore VectorStoreProps Embeddings.

Lemma dot_comm (u v : vector) : dot u v = dot v u.
Proof.
  revert v. induction u as [|x u IH]; intros [|y v]; simpl; try reflexivity.
  rewrite IH. ring.
Qed.

Lemma clip_range (x lo hi : R) : (lo <= hi)%R -> (lo <= clip x lo hi <= hi)%R.
Proof.
  intros H. unfold clip. destruct (Rlt_dec x lo); [lra|].
  destruct (Rlt_dec hi x); lra.
Qed.

(** [compute_similarity] is symmetric, its value lies between -1 and
    1, and it is 0 when one of the vectors has norm zero or the lengths
    differ. *)
Theorem compute_similarity_bounds (u v : vector) :
  compute_similarity u v = compute_similarity v u
  /\ (-1 <= compute_similarity u v <= 1)%R
  /\ (l2norm u = 0%R \/ l2norm v = 0%R \/ length u <> length v ->
      compute_similarity u v = 0%R).
Proof.
  split; [|split].
  - unfold compute_similarity. rewrite (Nat.eqb_sym (length v)), (dot_comm v u),
      (Rmult_comm (l2norm v)).
    destruct (Req_dec_T (l2norm u) 0), (Req_dec_T (l2norm v) 0); reflexivity.
  - unfold compute_similarity.
    destruct (Req_dec_T (l2norm u) 0); [lra|].
    destruct (Req_dec_T (l2norm v) 0); [lra|].
    destruct (negb _); [lra | apply clip_range; lra].
  - intros H. unfold compute_similarity.
    destruct (Req_dec_T (l2norm u) 0); [reflexivity|].
    destruct (Req_dec_T (l2norm v) 0); [reflexivity|].
    destruct H as [H|[H|H]]; try contradiction.
    destruct (Nat.eqb_spec (length u) (length v)); [contradiction | reflexivity].
Qed.

End EmbeddingsProps.

(** ** The engine *)

Module EngineProps.

Import VectorStore VectorStoreProps StoreInvariant StoreRoundTrips Engine.

Section Engine.

Variable encode_batch : list string -> result (list vector).
Variable encode_text : string -> result vector.
Variable describe : SourceItem -> string -> list (string * string).

Lemma collect_filter (s : Store) (items : list SourceItem) (texts : list string)
    (ml : list Metadata) :
  collect describe s items texts ml
  = (texts ++ map combined_text (List.filter (wanted s) items),
     ml ++ map (metadata_of describe) (List.filter (wanted s) items)).
Proof.
  revert texts ml. induction items as [|item items IH]; intros texts ml.
  { simpl. rewrite !app_nil_r. reflexivity. }
  cbn [collect List.filter].
  assert (Hw : wanted s item
               = match get_embedding_metadata s (id item) with
                 | Some _ => false
                 | None => str_truthy (strip (combined_text item))
                 end) by reflexivity.
  destruct (get_embedding_metadata s (id item)).
  - rewrite Hw. apply IH.
  - destruct (str_truthy (strip (combined_text item))); rewrite Hw; cbn [negb map].
    + rewrite IH, <- !app_assoc. reflexivity.
    + apply IH.
Qed.

Lemma filter_ids_NoDup (p : SourceItem -> bool) (items : list SourceItem) :
  NoDup (map id items) -> NoDup (map id (List.filter p items)).
Proof.
  induction items as [|item items IH]; simpl; [auto|].
  rewrite NoDup_cons. intros [Hnot Hnd]. destruct (p item); simpl; [|apply IH; exact Hnd].
  apply NoDup_cons. split; [|apply IH; exact Hnd].
  intros Hin. apply Hnot. apply list_elem_of_In in Hin. apply list_elem_of_In.
  apply in_map_iff in Hin as (x & Hx & Hin). apply filter_In in Hin as [Hin _].
  apply in_map_iff. eauto.
Qed.

Lemma metadata_of_ids (items : list SourceItem) :
  map item_id (map (metadata_of describe) items) = map id items.
Proof.
  rewrite map_map. reflexivity.
Qed.

(** What [index_items] hands to [add_embeddings] is a guarded batch. *)
Lemma wanted_guarded (w : World) (items : list SourceItem) (embeddings : list vector) :
  NoDup (map id items) ->
  guarded w (AddEmbeddings embeddings (map (metadata_of describe) (List.filter (wanted (mem w)) items))).
Proof.
  intros Hnd. split.
  - rewrite metadata_of_ids. apply filter_ids_NoDup. exact Hnd.
  - apply List.Forall_forall. intros m Hin.
    apply in_map_iff in Hin as (item & <- & Hin). apply filter_In in Hin as [_ Hw].
    unfold wanted in Hw. simpl.
    destruct (get_embedding_metadata (mem w) (id item)); [discriminate | auto].
Qed.

(** The three ways [index_items] ends. *)
Lemma index_items_cases (w : World) (items : list SourceItem) :
  let batch := List.filter (wanted (mem w)) items in
  (batch = [] /\ index_items encode_batch describe w items = (Ok tt, w))
  \/ (batch <> []
      /\ exists e, encode_batch (map combined_text batch) = Raise e
                   /\ index_items encode_batch describe w items = (Raise e, w))
  \/ (batch <> []
      /\ exists embeddings,
           encode_batch (map combined_text batch) = Ok embeddings
           /\ index_items encode_batch describe w items
              = add_embeddings w embeddings (map (metadata_of describe) batch)).
Proof.
  intros batch. unfold index_items. destruct items as [|item items]; [left; auto|].
  rewrite collect_filter. cbn [app]. fold batch.
  destruct batch as [|b batch'] eqn:Hb; [left; auto|]. right.
  cbn [map]. destruct (encode_batch (combined_text b :: map combined_text batch')) as [embs|e].
  - right. split; [discriminate|]. exists embs. auto.
  - left. split; [discriminate|]. exists e. auto.
Qed.

Lemma index_items_inv (w : World) (items : list SourceItem) :
  NoDup (map id items) -> store_inv (mem w) ->
  store_inv (mem (snd (index_items encode_batch describe w items))).
Proof.
  intros Hnd Hinv.
  destruct (index_items_cases w items) as [[_ ->]|[(_ & e & _ & ->)|(_ & embs & _ & ->)]];
    try exact Hinv.
  apply add_embeddings_inv; [exact Hinv | apply wanted_guarded; exact Hnd].
Qed.

Lemma update_item_index_inv (w : World) (item : SourceItem) :
  store_inv (mem w) ->
  store_inv (mem (update_item_index encode_text describe w item)).
Proof.
  intros Hinv. unfold update_item_index.
  destruct (negb _); [exact Hinv|].
  destruct (encode_text (combined_text item)) as [embedding|e]; [|exact Hinv].
  apply (step_inv w (UpdateEmbedding (id item) embedding
                       (item_metadata describe item (combined_text item))));
    [exact Hinv | split; reflexivity].
Qed.

Lemma cleanup_index_inv (w : World) :
  store_inv (mem w) -> store_inv (mem (cleanup_index w)).
Proof.
  intros Hinv. unfold cleanup_index, StoreMore.cleanup_deleted.
  destruct (map_to_list _); [exact Hinv|].
  destruct (StoreMore.active_items _); [apply store_inv_fresh | exact Hinv].
Qed.

Lemma calls_inv (cs : list Call) (w : World) :
  distinct_batches cs -> store_inv (mem w) ->
  store_inv (mem (calls encode_batch encode_text describe w cs)).
Proof.
  revert w. induction cs as [|c cs IH]; intros w Hd Hinv; [exact Hinv|].
  inversion Hd as [|? ? Hc Hcs]; subst.
  change (calls encode_batch encode_text describe w (c :: cs))
    with (calls encode_batch encode_text describe
            (call encode_batch encode_text describe w c) cs).
  apply IH; [exact Hcs|].
  destruct c as [items|item|item|]; cbn [call].
  - apply index_items_inv; assumption.
  - apply update_item_index_inv; exact Hinv.
  - apply remove_embedding_inv; exact Hinv.
  - apply cleanup_index_inv; exact Hinv.
Qed.

(** In every state the engine reaches from an empty store by
    [index_items] (each call given items with pairwise distinct ids),
    [update_item_index], [remove_item_index] and [cleanup_index], whatever the
    embedding model returns or raises, no two active records carry the same
    item id, and what [get_embedding_metadata] returns for an id is an active
    record that carries that id. *)
Theorem engine_keeps_items_unique (d : nat) (cs : list Call) :
  distinct_batches cs ->
  let s := mem (calls encode_batch encode_text describe (fresh_world d) cs) in
  unique_active s
  /\ forall item m,
       get_embedding_metadata s item = Some m -> item_id m = item /\ deleted m = false.
Proof.
  intros Hd s.
  assert (Hinv : store_inv s) by (apply calls_inv; [exact Hd | apply store_inv_fresh]).
  destruct Hinv as (Hb & Hm & Hl). split; [apply active_mapped_unique; exact Hm|].
  intros item m. unfold get_embedding_metadata.
  destruct (id_to_faiss s !! item) as [i|] eqn:Hi; [|discriminate].
  destruct (Hl item i Hi) as (m' & -> & Hid & Hlive). rewrite Hlive.
  intros [= <-]. auto.
Qed.

(** When [index_items] returns for items with pairwise distinct ids,
    in a store kept by guarded calls, every item that has text is found by
    [get_embedding_metadata] afterwards, and a second call with the same
    items returns without changing anything. *)
Theorem index_items_idempotent (w w' : World) (items : list SourceItem) :
  store_inv (mem w) ->
  NoDup (map id items) ->
  index_items encode_batch describe w items = (Ok tt, w') ->
  (forall item, In item items -> str_truthy (strip (combined_text item)) = true ->
                get_embedding_metadata (mem w') (id item) <> None)
  /\ index_items encode_batch describe w' items = (Ok tt, w').
Proof.
  intros Hinv Hnd Hcall.
  assert (Hfound : forall item, In item items ->
            str_truthy (strip (combined_text item)) = true ->
            get_embedding_metadata (mem w') (id item) <> None).
  { intros item Hin Htext.
    destruct (index_items_cases w items)
      as [[Hb Hres]|[(_ & e & _ & Hres)|(_ & embs & _ & Hres)]];
      rewrite Hres in Hcall.
    - injection Hcall as <-.
      assert (Hw : wanted (mem w) item = false).
      { destruct (wanted (mem w) item) eqn:E; [|reflexivity].
        assert (Hin' : In item (List.filter (wanted (mem w)) items))
          by (apply filter_In; auto).
        rewrite Hb in Hin'. destruct Hin'. }
      unfold wanted in Hw. destruct (get_embedding_metadata (mem w) (id item));
        [discriminate | congruence].
    - discriminate.
    - destruct (wanted (mem w) item) eqn:Hw.
      + assert (Hm : In (metadata_of describe item)
                       (map (metadata_of describe) (List.filter (wanted (mem w)) items))).
        { apply in_map, filter_In. auto. }
        pose proof (get_after_add w w' embs _ (metadata_of describe item) Hcall) as Hget.
        rewrite metadata_of_ids in Hget.
        change (id item) with (item_id (metadata_of describe item)).
        rewrite (Hget (filter_ids_NoDup _ _ Hnd) Hm eq_refl). discriminate.
      + destruct Hinv as (Hb & _ & Hl).
        unfold wanted in Hw.
        destruct (get_embedding_metadata (mem w) (id item)) as [m|] eqn:Hold;
          [|congruence].
        rewrite (get_after_add_other w w' embs _ (id item) Hcall Hb Hl), Hold;
          [discriminate|].
        rewrite metadata_of_ids. intros Hin'.
        apply in_map_iff in Hin' as (other & Hid & Hother).
        apply filter_In in Hother as [_ Hwo]. unfold wanted in Hwo.
        rewrite Hid, Hold in Hwo. discriminate. }
  split; [exact Hfound|].
  assert (Hnone : List.filter (wanted (mem w')) items = []).
  { destruct (List.filter (wanted (mem w')) items) as [|item rest] eqn:Hf; [reflexivity|].
    exfalso.
    assert (Hin : In item (List.filter (wanted (mem w')) items))
      by (rewrite Hf; left; reflexivity).
    apply filter_In in Hin as [Hin Hw]. unfold wanted in Hw.
    destruct (get_embedding_metadata (mem w') (id item)) eqn:Hg; [discriminate|].
    exact (Hfound item Hin Hw Hg). }
  destruct (index_items_cases w' items) as [[_ Hres]|[(Hne & _)|(Hne & _)]];
    [exact Hres | |]; contradiction.
Qed.

End Engine.

Lemma engine_keeps_items_unique_witness :
  let s := mem (calls EngineSamples.axis_batch EngineSamples.axis_text
                      EngineSamples.no_fields (fresh_world 2) EngineSamples.session) in
  unique_active s
  /\ forall item m,
       get_embedding_metadata s item = Some m -> item_id m = item /\ deleted m = false.
Proof.
  apply (engine_keeps_items_unique EngineSamples.axis_batch EngineSamples.axis_text
           EngineSamples.no_fields 2 EngineSamples.session).
  repeat constructor.
  - rewrite list_elem_of_In. simpl. intuition discriminate.
  - apply not_elem_of_nil.
Defined.

Lemma index_items_idempotent_witness :
  let w' := snd (index_items EngineSamples.axis_batch EngineSamples.no_fields
                   (fresh_world 2) [EngineSamples.article "a" "First"]) in
  (forall item, In item [EngineSamples.article "a" "First"] ->
                str_truthy (strip (combined_text item)) = true ->
                get_embedding_metadata (mem w') (id item) <> None)
  /\ index_items EngineSamples.axis_batch EngineSamples.no_fields w'
       [EngineSamples.article "a" "First"] = (Ok tt, w').
Proof.
  apply (index_items_idempotent EngineSamples.axis_batch EngineSamples.no_fields
           (fresh_world 2) _ [EngineSamples.article "a" "First"]).
  - apply store_inv_fresh.
  - apply NoDup_cons. split; [apply not_elem_of_nil | apply NoDup_nil_2].
  - reflexivity.
Defined.

End EngineProps.

(** ** Retrieval *)

Module RetrieveContextProps.

Import VectorStore VectorStoreProps StoreInvariant StoreMore RetrieveContext.

Lemma sublist_Forall_inv {A : Type} (P : A -> Prop) (l1 l2 : list A) :
  sublist l1 l2 -> Forall P l2 -> Forall P l1.
Proof.
  induction 1 as [|x l1 l2 _ IH|x l1 l2 _ IH]; intros Hall.
  - constructor.
  - inversion Hall; subst. constructor; [assumption | apply IH; assumption].
  - inversion Hall; subst. apply IH; assumption.
Qed.

Lemma sublist_descending (l1 l2 : list R) :
  sublist l1 l2 -> descending l2 -> descending l1.
Proof.
  unfold descending. induction 1 as [|x l1 l2 Hsub IH|x l1 l2 Hsub IH]; intros Hd.
  - constructor.
  - inversion Hd as [|? ? Hl Hx]; subst. constructor; [apply IH; exact Hl|].
    eapply sublist_Forall_inv; eassumption.
  - inversion Hd; subst. apply IH; assumption.
Qed.

Lemma filter_sublist {A : Type} (p : A -> bool) (l : list A) : sublist (List.filter p l) l.
Proof.
  induction l as [|x l IH]; simpl; [constructor|].
  destruct (p x); [apply sublist_skip | apply sublist_cons]; exact IH.
Qed.

Lemma firstn_sublist {A : Type} (n : nat) (l : list A) : sublist (firstn n l) l.
Proof.
  revert n. induction l as [|x l IH]; intros [|n]; simpl; try constructor.
  - apply sublist_nil_l.
  - apply IH.
Qed.

Lemma slice_to_sublist {A : Type} (n : Z) (l : list A) : sublist (slice_to n l) l.
Proof.
  unfold slice_to. destruct (0 <=? n); apply firstn_sublist.
Qed.

Lemma map_sublist {A B : Type} (f : A -> B) (l1 l2 : list A) :
  sublist l1 l2 -> sublist (map f l1) (map f l2).
Proof.
  induction 1; simpl; constructor; assumption.
Qed.

Lemma sublist_In {A : Type} (l1 l2 : list A) (x : A) :
  sublist l1 l2 -> In x l1 -> In x l2.
Proof.
  induction 1 as [|y l1 l2 _ IH|y l1 l2 _ IH]; simpl; [tauto | | ]; intuition.
Qed.

Section Retrieve.

Variable encode_text : string -> result vector.
Variable list_sources : result (list Source).

Lemma get_item_data_id (item : string) (item_data : Engine.SourceItem) :
  _get_item_data list_sources item = Some item_data -> Engine.id item_data = item.
Proof.
  unfold _get_item_data. destruct list_sources as [sources|e]; [|discriminate].
  intros H. apply find_some in H as [_ H]. apply String.eqb_eq. exact H.
Qed.

Lemma enrich_similarities (results : list SearchResult) :
  sublist (map er_similarity (_enrich_results list_sources results))
          (map similarity results).
Proof.
  induction results as [|r results IH]; simpl; [constructor|].
  destruct (negb _); [apply sublist_cons; exact IH|].
  destruct (_get_item_data _ _); [apply sublist_skip | apply sublist_cons]; exact IH.
Qed.

Lemma enrich_length (results : list SearchResult) :
  (length (_enrich_results list_sources results) <= length results)%nat.
Proof.
  induction results as [|r results IH]; simpl; [lia|].
  destruct (negb _); [lia|].
  destruct (_get_item_data _ _); simpl; lia.
Qed.

(** An enriched result is a search result whose item id is non-empty
    and names an item of the sources. *)
Lemma enrich_sound (results : list SearchResult) (e : Enriched) :
  In e (_enrich_results list_sources results) ->
  exists r item_data,
    In r results
    /\ er_item_id e = item_id (sr_metadata r)
    /\ er_item_id e <> EmptyString
    /\ er_similarity e = similarity r
    /\ er_source_id e = source_id r
    /\ _get_item_data list_sources (er_item_id e) = Some item_data
    /\ er_title e = Engine.title item_data
    /\ er_url e = Engine.url item_data
    /\ er_content e = Engine.content item_data
    /\ er_summary e = Engine.summary item_data.
Proof.
  induction results as [|r results IH]; simpl; [intros []|].
  assert (Hrest : In e (_enrich_results list_sources results) ->
    exists r0 item_data, (r = r0 \/ In r0 results)
      /\ er_item_id e = item_id (sr_metadata r0)
      /\ er_item_id e <> EmptyString
      /\ er_similarity e = similarity r0
      /\ er_source_id e = source_id r0
      /\ _get_item_data list_sources (er_item_id e) = Some item_data
      /\ er_title e = Engine.title item_data
      /\ er_url e = Engine.url item_data
      /\ er_content e = Engine.content item_data
      /\ er_summary e = Engine.summary item_data).
  { intros H. apply IH in H as (r0 & d & Hin & Hrest). exists r0, d. auto. }
  destruct (str_truthy (item_id (sr_metadata r))) eqn:Ht; simpl; [|exact Hrest].
  destruct (_get_item_data list_sources (item_id (sr_metadata r))) as [d|] eqn:Hd;
    [|exact Hrest].
  intros [<-|H]; [|apply Hrest; exact H].
  exists r, d. simpl. repeat split; try reflexivity; [left; reflexivity | | exact Hd].
  intros E. rewrite E in Ht. discriminate.
Qed.

(** [retrieve_context] returns at most [max(0, max_items)] results, in
    descending order of similarity, and none for a blank query.  Each result
    stands for one candidate that the index returned for the encoded query:
    it carries the item id of the record in the candidate's slot, which is
    not deleted, and as its similarity the candidate's own score, the inner
    product of the normalised encoded query with the vector stored in that
    slot, which is not below [min_similarity].  The id is non-empty and is
    that of the item of the sources whose data the result shows, and with a
    source filter in force its source id is one of the filter's. *)
Theorem retrieve_context_shape (s : Store) (query : string) (max_items : Z)
    (min_similarity : R) (source_filter : option (list string)) :
  let out := retrieve_context encode_text list_sources s query max_items
                              min_similarity source_filter in
  Z.of_nat (length out) <= Z.max 0 max_items
  /\ descending (map er_similarity out)
  /\ (strip query = EmptyString -> out = [])
  /\ Forall (fun e =>
       ~ (er_similarity e < min_similarity)%R
       /\ er_item_id e <> EmptyString
       /\ (exists qe cands slot m v,
             encode_text query = Ok qe
             /\ candidates s qe (max_items * 2) = Ok cands
             /\ In (er_similarity e, slot) cands
             /\ metadata s !! slot = Some m /\ deleted m = false
             /\ item_id m = er_item_id e
             /\ index s !! slot = Some v
             /\ er_similarity e = dot (normalize_row qe) v)
       /\ (exists item_data,
             _get_item_data list_sources (er_item_id e) = Some item_data
             /\ Engine.id item_data = er_item_id e
             /\ er_title e = Engine.title item_data)
       /\ (forall allowed, source_filter = Some allowed -> allowed <> [] ->
             exists v, er_source_id e = Some v /\ In v allowed)) out.
Proof.
  intros out. subst out. unfold retrieve_context.
  destruct (str_truthy query) eqn:Hq; simpl.
  2:{ split; [lia|]. split; [constructor|]. split; [reflexivity | constructor]. }
  destruct (str_truthy (strip query)) eqn:Hs; simpl.
  2:{ split; [lia|]. split; [constructor|]. split; [reflexivity | constructor]. }
  destruct (encode_text query) as [qe|ex] eqn:Henc.
  2:{ split; [simpl; lia|]. split; [constructor|]. split; [reflexivity | constructor]. }
  set (found := search s qe (max_items * 2) min_similarity).
  set (kept := match source_filter with
               | Some ((_ :: _) as allowed) =>
                   List.filter (fun r => in_filter (source_id r) allowed) found
               | _ => found
               end).
  assert (Hkept : sublist kept found).
  { unfold kept. destruct source_filter as [[|a allowed]|];
      [reflexivity | apply filter_sublist | reflexivity]. }
  assert (Hcut : sublist (slice_to max_items kept) found).
  { etransitivity; [apply slice_to_sublist | exact Hkept]. }
  split; [|split; [|split]].
  - destruct (Z.leb_spec max_items 0) as [Hle|Hgt].
    + assert (Hnone : found = []) by (apply SearchOrder.search_nothing; lia).
      rewrite Hnone in Hkept. apply sublist_nil_r in Hkept. rewrite Hkept.
      unfold slice_to. rewrite !firstn_nil. destruct (0 <=? max_items); simpl; lia.
    + pose proof (enrich_length (slice_to max_items kept)) as Hl.
      unfold slice_to in *. destruct (Z.leb_spec 0 max_items); [|lia].
      pose proof (firstn_le_length (Z.to_nat max_items) kept). lia.
  - eapply sublist_descending; [apply enrich_similarities|].
    eapply sublist_descending; [apply map_sublist; exact Hcut|].
    apply SearchOrder.search_descending.
  - intros E. rewrite E in Hs. discriminate.
  - apply List.Forall_forall. intros e He.
    apply enrich_sound in He
      as (r & d & Hr & Hid & Hne & Hsim & Hsrc & Hd & Htitle & _).
    assert (Hfound : In r found).
    { eapply sublist_In; [exact Hcut | exact Hr]. }
    assert (Hcand : exists cands slot v,
               candidates s qe (max_items * 2) = Ok cands
               /\ In (similarity r, slot) cands
               /\ metadata s !! slot = Some (sr_metadata r)
               /\ deleted (sr_metadata r) = false
               /\ index s !! slot = Some v
               /\ similarity r = dot (normalize_row qe) v
               /\ ~ (similarity r < min_similarity)%R).
    { revert Hfound. unfold found, search.
      destruct (ntotal s =? 0)%nat; [intros []|].
      destruct (candidates s qe (max_items * 2)) as [cands|ex] eqn:Hc; [|intros []].
      intros Hin.
      apply search_loop_sound in Hin as [[]|(sim & slot & Hin & Hm & Hlive & Hsr & Hmin)].
      destruct (SearchOrder.candidates_sound _ _ _ _ _ _ Hc Hin) as (_ & v & Hv & Hdot).
      exists cands, slot, v. rewrite Hsr. auto 8. }
    destruct Hcand as (cands & slot & v & Hc & Hcin & Hm & Hlive & Hv & Hdot & Hmin).
    split; [rewrite Hsim; exact Hmin|]. split; [exact Hne|].
    split; [exists qe, cands, slot, (sr_metadata r), v; rewrite Hsim; auto 10|].
    split; [exists d; split; [exact Hd|]; split; [|exact Htitle];
            apply (get_item_data_id _ _ Hd)|].
    intros allowed -> Hallowed.
    destruct allowed as [|a allowed]; [contradiction|].
    assert (Hk : In r kept).
    { eapply sublist_In; [apply slice_to_sublist | exact Hr]. }
    unfold kept in Hk. apply filter_In in Hk as [_ Hf].
    unfold in_filter in Hf. rewrite Hsrc.
    destruct (source_id r) as [src|]; [|discriminate].
    exists src. split; [reflexivity|].
    apply existsb_exists in Hf as (x & Hx & Heq).
    apply String.eqb_eq in Heq. subst x. exact Hx.
Qed.

End Retrieve.

End RetrieveContextProps.


(** ** Reading the history *)

Module SessionHistoryProps.

Import SessionHistory.

(** Pages tile the history.  For a non-negative offset and
    non-negative page sizes, the page of [a] messages at [offset] followed by
    the page of [b] messages at [offset + a] is the page of [a + b] messages
    at [offset]: nothing is skipped and nothing comes twice. *)
Lemma firstn_plus {A : Type} (n m : nat) (l : list A) :
  firstn (n + m) l = (firstn n l ++ firstn m (skipn n l))%list.
Proof.
  revert l. induction n as [|n IH]; intros [|x l]; simpl;
    [reflexivity | reflexivity | rewrite firstn_nil; reflexivity | rewrite IH; reflexivity].
Qed.

Theorem get_messages_pages_tile (cached : list ChatMessage) (offset a b : Z) :
  0 <= offset -> 0 <= a -> 0 <= b ->
  (get_messages cached (Some a) offset ++ get_messages cached (Some b) (offset + a))%list
  = get_messages cached (Some (a + b)) offset.
Proof.
  intros Ho Ha Hb.
  assert (Hskip : forall o, 0 <= o ->
            (if o >? 0 then skipn (Z.to_nat o) cached else cached)
            = skipn (Z.to_nat o) cached).
  { intros o H0. destruct (Z.gtb_spec o 0); [reflexivity|].
    replace o with 0 by lia. reflexivity. }
  unfold get_messages, RetrieveContext.slice_to. cbv zeta.
  rewrite !Hskip by lia.
  destruct (Z.leb_spec 0 a); [|lia]. destruct (Z.leb_spec 0 b); [|lia].
  destruct (Z.leb_spec 0 (a + b)); [|lia].
  rewrite !Z2Nat.inj_add by lia.
  rewrite (Nat.add_comm (Z.to_nat offset)), <- skipn_skipn.
  symmetry. apply firstn_plus.
Qed.

Lemma get_messages_pages_tile_witness :
  (get_messages (Samples.history 5 1) (Some 2) 1
   ++ get_messages (Samples.history 5 1) (Some 2) (1 + 2))%list
  = get_messages (Samples.history 5 1) (Some (2 + 2)) 1.
Proof.
  apply (get_messages_pages_tile (Samples.history 5 1) 1 2 2); lia.
Defined.

End SessionHistoryProps.

(** ** Reading a JSONL file *)

Module FileUtilsProps.

Import FileUtils.

Section ReadJsonl.

Variable J : Type.
Variable json_loads : string -> option J.

Lemma limit_reached_cap (limit : option Z) (messages : list J) :
  messages <> [] ->
  limit_reached J limit messages
  = match cap limit with
    | None => false
    | Some c => Nat.leb c (length messages)
    end.
Proof.
  intros Hne. assert (Hlen : (0 < length messages)%nat).
  { destruct messages; [contradiction | simpl; lia]. }
  unfold limit_reached, cap. destruct limit as [n|]; [|reflexivity].
  destruct (Z.eqb_spec n 0); simpl; [reflexivity|].
  destruct (Z.ltb_spec 0 n).
  - destruct (Z.geb_spec (Z.of_nat (length messages)) n),
      (Nat.leb_spec (Z.to_nat n) (length messages)); try reflexivity; lia.
  - destruct (Z.geb_spec (Z.of_nat (length messages)) n),
      (Nat.leb_spec 1 (length messages)); try reflexivity; lia.
Qed.

Lemma read_lines_take (limit : option Z) (lines : list string) (messages : list J) :
  (forall c, cap limit = Some c -> (length messages < c)%nat) ->
  read_lines J json_loads limit lines messages
  = take_opt (cap limit) (messages ++ parsed J json_loads lines).
Proof.
  revert messages. induction lines as [|line lines IH]; intros messages Hroom.
  { unfold parsed. simpl. rewrite app_nil_r. unfold take_opt.
    destruct (cap limit) as [c|] eqn:E; [|reflexivity].
    specialize (Hroom c eq_refl). rewrite firstn_all2 by lia. reflexivity. }
  unfold parsed. cbn [read_lines List.filter].
  destruct (str_truthy (strip line)); [|apply IH; exact Hroom].
  cbn [omap list_omap]. destruct (json_loads line) as [value|]; [|apply IH; exact Hroom].
  rewrite limit_reached_cap by (destruct messages; discriminate).
  rewrite length_app. cbn [length].
  change (value :: omap json_loads (List.filter (fun l => str_truthy (strip l)) lines))
    with ([value] ++ parsed J json_loads lines)%list.
  rewrite app_assoc.
  destruct (cap limit) as [c|] eqn:E.
  - destruct (Nat.leb_spec c (length messages + 1)) as [Hle|Hgt].
    + unfold take_opt. specialize (Hroom c eq_refl).
      rewrite firstn_app.
      replace (c - length (messages ++ [value]))%nat with 0%nat
        by (rewrite length_app; simpl; lia).
      rewrite firstn_O, app_nil_r, firstn_all2; [reflexivity|].
      rewrite length_app. simpl. lia.
    + rewrite IH; [try rewrite E; reflexivity|].
      intros c' Hc'. try rewrite E in Hc'. injection Hc' as <-.
      rewrite length_app. simpl. lia.
  - rewrite IH; [try rewrite E; reflexivity|]. intros c' Hc'. try rewrite E in Hc'. discriminate.
Qed.

(** [read_jsonl] returns the values of the lines that are not blank
    and parse, in order: all of them without a limit or with limit 0, the
    first [limit] of them for a positive limit, and only the first one for a
    negative limit; a missing file reads as no values. *)
Theorem read_jsonl_limit (lines : list string) (limit : option Z) :
  read_jsonl J json_loads (Some lines) limit
  = match limit with
    | None => parsed J json_loads lines
    | Some n =>
        if n =? 0 then parsed J json_loads lines
        else if 0 <? n then firstn (Z.to_nat n) (parsed J json_loads lines)
        else firstn 1 (parsed J json_loads lines)
    end
  /\ read_jsonl J json_loads None limit = [].
Proof.
  split; [|reflexivity].
  unfold read_jsonl. rewrite read_lines_take.
  - unfold cap, take_opt. simpl. destruct limit as [n|]; [|reflexivity].
    destruct (n =? 0); [reflexivity|]. destruct (0 <? n); reflexivity.
  - intros c Hc. unfold cap in Hc. destruct limit as [n|]; [|discriminate].
    destruct (Z.eqb_spec n 0); [discriminate|].
    destruct (Z.ltb_spec 0 n); injection Hc as <-; simpl; lia.
Qed.

End ReadJsonl.

End FileUtilsProps.

(** ** Encoding texts *)

Module EncodeProps.

Import VectorStore VectorStoreProps StoreInvariant StoreMore Embeddings.

(** *** [_clean_text] *)

Lemma string_length_app (a b : string) :
  String.length (a ++ b) = (String.length a + String.length b)%nat.
Proof.
  induction a as [|c a IH]; simpl; [reflexivity | rewrite IH; reflexivity].
Qed.

Lemma substring_length_le (n : nat) (s : string) :
  (String.length (String.substring 0 n s) <= n)%nat.
Proof.
  revert s. induction n as [|n IH]; intros [|c s]; simpl; try lia.
  specialize (IH s). lia.
Qed.

Lemma lstrip_chars_nil (l : list ascii) :
  lstrip_chars l = [] -> Forall (fun c => is_py_space c = true) l.
Proof.
  induction l as [|c l IH]; simpl; [constructor|].
  destruct (is_py_space c) eqn:E; [|discriminate].
  intros H. constructor; [exact E | apply IH; exact H].
Qed.

Lemma lstrip_chars_head (l : list ascii) :
  lstrip_chars l = [] \/ exists c r, lstrip_chars l = c :: r /\ is_py_space c = false.
Proof.
  induction l as [|c l IH]; simpl; [left; reflexivity|].
  destruct (is_py_space c) eqn:E; [exact IH|]. right. eauto.
Qed.

Lemma string_of_list_ascii_nil (l : list ascii) :
  string_of_list_ascii l = EmptyString -> l = [].
Proof.
  destruct l; [reflexivity | discriminate].
Qed.

(** A text that strips to nothing is white space throughout. *)
Lemma strip_empty (text : string) :
  strip text = EmptyString ->
  Forall (fun c => is_py_space c = true) (list_ascii_of_string text).
Proof.
  unfold strip. intros H. apply string_of_list_ascii_nil in H.
  assert (Hrev : lstrip_chars (rev (lstrip_chars (list_ascii_of_string text))) = []).
  { destruct (lstrip_chars (rev _)); [reflexivity|].
    simpl in H. destruct (rev l); discriminate. }
  apply lstrip_chars_nil in Hrev.
  destruct (lstrip_chars_head (list_ascii_of_string text)) as [Hnil|(c & r & Hcr & Hc)].
  - apply lstrip_chars_nil. exact Hnil.
  - rewrite Hcr in Hrev. rewrite List.Forall_forall in Hrev.
    rewrite (Hrev c) in Hc; [discriminate|].
    apply in_rev. rewrite rev_involutive. left. reflexivity.
Qed.

Lemma words_blank (l : list ascii) :
  Forall (fun c => is_py_space c = true) l -> words l [] = [].
Proof.
  induction 1 as [|c l Hc _ IH]; simpl; [reflexivity|]. rewrite Hc. exact IH.
Qed.

(** [_clean_text] returns at most 8003 characters, and nothing for a
    text that is empty or white space only. *)
Theorem clean_text_bounds (text : string) :
  str_len (_clean_text text) <= 8003
  /\ (strip text = EmptyString -> _clean_text text = EmptyString).
Proof.
  split.
  - unfold _clean_text. destruct (negb (str_truthy text)); [simpl; unfold str_len; simpl; lia|].
    cbv zeta. destruct (Z.gtb_spec (str_len (Retrieval.join " " (split text))) 8000) as [H|H].
    + unfold str_len. rewrite string_length_app.
      pose proof (substring_length_le (Z.to_nat 8000) (Retrieval.join " " (split text))).
      simpl String.length. lia.
    + lia.
  - intros Hblank. unfold _clean_text. destruct (negb (str_truthy text)); [reflexivity|].
    unfold split. rewrite words_blank by (apply strip_empty; exact Hblank).
    reflexivity.
Qed.

(** *** [encode_text] *)

Lemma dot_zeros (n : nat) (v : vector) : dot (zeros n) v = 0%R.
Proof.
  revert v. induction n as [|n IH]; intros [|y v]; simpl; try reflexivity.
  unfold zeros in IH. rewrite IH. ring.
Qed.

Lemma normalize_zeros (n : nat) : normalize_row (zeros n) = zeros n.
Proof.
  apply normalize_row_zero_norm. unfold l2norm. rewrite dot_zeros. apply sqrt_0.
Qed.

(** Every result found for a zero query has similarity 0. *)
Lemma zero_query_similarity (s : Store) (n : nat) (k : Z) (min_similarity : R)
    (r : SearchResult) :
  In r (search s (zeros n) k min_similarity) -> similarity r = 0%R.
Proof.
  unfold search. destruct (ntotal s =? 0)%nat; [intros []|].
  destruct (candidates s (zeros n) k) as [cands|e] eqn:Hc; [|intros []].
  intros Hin. apply search_loop_sound in Hin as [[]|(sim & fid & Hcand & _ & _ & -> & _)].
  destruct (SearchOrder.candidates_sound _ _ _ _ _ _ Hc Hcand) as (_ & v & _ & ->).
  rewrite normalize_zeros. apply dot_zeros.
Qed.

Lemma zero_query_nothing (s : Store) (n : nat) (k : Z) (min_similarity : R) :
  (0 < min_similarity)%R -> search s (zeros n) k min_similarity = [].
Proof.
  intros Hpos. destruct (search s (zeros n) k min_similarity) as [|r rest] eqn:E;
    [reflexivity|]. exfalso.
  assert (Hin : In r (search s (zeros n) k min_similarity)) by (rewrite E; left; reflexivity).
  pose proof (zero_query_similarity _ _ _ _ _ Hin) as H0.
  destruct (search_sound _ _ _ _ _ Hin) as (_ & _ & _ & Hge). lra.
Qed.

Section Model.

Variable _load_model : result unit.
Variable embedding_dim : nat.
Variable model_encode : string -> result vector.
Variable list_sources : result (list RetrieveContext.Source).

(** When the embedding model cannot encode the query (it raises, or it
    cannot be loaded), [retrieve_context] does not raise: every result it
    returns has similarity exactly 0, and with a positive [min_similarity] it
    returns nothing. *)
Theorem failed_model_retrieves_nothing (s : Store) (query : string) (max_items : Z)
    (min_similarity : R) (source_filter : option (list string)) :
  (exists e, _load_model = Raise e)
  \/ (exists e, model_encode (_clean_text query) = Raise e) ->
  let out := RetrieveContext.retrieve_context
               (encode_text _load_model embedding_dim model_encode) list_sources
               s query max_items min_similarity source_filter in
  Forall (fun r => RetrieveContext.er_similarity r = 0%R) out
  /\ ((0 < min_similarity)%R -> out = []).
Proof.
  intros Hfail out. subst out. unfold RetrieveContext.retrieve_context.
  destruct (negb (str_truthy query) || negb (str_truthy (strip query))) eqn:Hblank;
    [split; [constructor | reflexivity]|].
  assert (Henc : (exists e, encode_text _load_model embedding_dim model_encode query
                            = Raise e)
                 \/ encode_text _load_model embedding_dim model_encode query
                    = Ok (zeros embedding_dim)).
  { unfold encode_text, mbind, result_bind, rbind.
    destruct _load_model as [[]|e'] eqn:Hload; [|left; eauto].
    right. rewrite Hblank.
    destruct Hfail as [[e H]|[e H]]; [discriminate|]. rewrite H. reflexivity. }
  destruct Henc as [[e ->]| ->]; [split; [constructor | reflexivity]|].
  set (found := search s (zeros embedding_dim) (max_items * 2) min_similarity).
  set (kept := match source_filter with
               | Some ((_ :: _) as allowed) =>
                   List.filter (fun r => RetrieveContext.in_filter
                                           (RetrieveContext.source_id r) allowed) found
               | _ => found
               end).
  assert (Hkept : sublist kept found).
  { unfold kept. destruct source_filter as [[|a allowed]|];
      [reflexivity | apply RetrieveContextProps.filter_sublist | reflexivity]. }
  split.
  - apply List.Forall_forall. intros r Hr.
    apply RetrieveContextProps.enrich_sound in Hr as (r0 & _ & Hin & _ & _ & -> & _).
    apply (zero_query_similarity s embedding_dim (max_items * 2) min_similarity).
    eapply RetrieveContextProps.sublist_In; [exact Hkept|].
    eapply RetrieveContextProps.sublist_In;
      [apply RetrieveContextProps.slice_to_sublist | exact Hin].
  - intros Hpos.
    assert (Hnone : found = []) by (apply zero_query_nothing; exact Hpos).
    rewrite Hnone in Hkept. apply sublist_nil_r in Hkept. rewrite Hkept.
    unfold RetrieveContext.slice_to. rewrite !firstn_nil.
    destruct (0 <=? max_items); reflexivity.
Qed.

End Model.

Lemma failed_model_retrieves_nothing_witness :
  let out := RetrieveContext.retrieve_context
               (encode_text (Ok tt) 2 EngineSamples.failing_model)
               (Ok []) (mem Samples.two_axes) "query" 5 1 None in
  Forall (fun r => RetrieveContext.er_similarity r = 0%R) out
  /\ ((0 < 1)%R -> out = []).
Proof.
  apply (failed_model_retrieves_nothing (Ok tt) 2 EngineSamples.failing_model (Ok [])
           (mem Samples.two_axes) "query" 5 1 None).
  right. exists (RuntimeError "out of memory"). reflexivity.
Defined.

End EncodeProps.

(** ** The store with its dictionaries as objects *)

Module ObjectStoreProps.

Import ObjectStore.

Lemma batch_frame (h : Heap) (ml : list ref) (s : Store) (start : nat) :
  dimension (snd (store_batch h s start ml)) = dimension s
  /\ index (snd (store_batch h s start ml)) = index s
  /\ next_faiss_id (snd (store_batch h s start ml)) = next_faiss_id s.
Proof.
  revert s start. induction ml as [|m ml IH]; intros s start; cbn [store_batch]; [auto|].
  destruct (d_item_id (h m)) as [item|]; [|auto].
  destruct (IH (record s start m item) (S start)) as (H1 & H2 & H3). auto.
Qed.

Lemma batch_returns (h : Heap) (ml : list ref) (s : Store) (start : nat) :
  Forall (fun m => d_item_id (h m) <> None) ml ->
  fst (store_batch h s start ml) = Ok tt.
Proof.
  revert s start. induction ml as [|m ml IH]; intros s start Hk; cbn [store_batch];
    [reflexivity|].
  inversion Hk as [|? ? Hm Hrest]; subst.
  destruct (d_item_id (h m)) as [item|]; [apply IH; exact Hrest | contradiction].
Qed.

(** The loop stops at the first dictionary without ['item_id'], with
    what it stored for the dictionaries before it. *)
Lemma batch_raises (h : Heap) (before : list ref) (m : ref) (after : list ref)
    (s : Store) (start : nat) :
  Forall (fun m' => d_item_id (h m') <> None) before ->
  d_item_id (h m) = None ->
  store_batch h s start (before ++ m :: after)
  = (Raise (KeyError "item_id"), snd (store_batch h s start before)).
Proof.
  revert s start. induction before as [|m0 before IH]; intros s start Hk Hm;
    cbn [store_batch app].
  { rewrite Hm. reflexivity. }
  inversion Hk as [|? ? Hm0 Hrest]; subst.
  destruct (d_item_id (h m0)) as [item|]; [apply IH; assumption | contradiction].
Qed.

(** The records after the loop, when every dictionary has its
    ['item_id']: the batch in the slots from [start] on, the others as they
    were. *)
Lemma batch_lookup (h : Heap) (ml : list ref) (s : Store) (start j : nat) :
  Forall (fun m => d_item_id (h m) <> None) ml ->
  metadata (snd (store_batch h s start ml)) !! j
  = if decide (start <= j < start + length ml)%nat
    then ml !! (j - start)%nat
    else metadata s !! j.
Proof.
  revert s start. induction ml as [|m ml IH]; intros s start Hk; cbn [store_batch].
  { destruct (decide _) as [H|_]; [simpl in H; lia | reflexivity]. }
  inversion Hk as [|? ? Hm Hrest]; subst.
  destruct (d_item_id (h m)) as [item|]; [|contradiction].
  rewrite IH by exact Hrest. cbn [length record metadata].
  destruct (decide (S start <= j < S start + length ml)%nat) as [Hin|Hout].
  - destruct (decide (start <= j < start + S (length ml))%nat) as [_|Hbad]; [|lia].
    replace (j - start)%nat with (S (j - S start)) by lia. reflexivity.
  - destruct (decide (j = start)) as [->|Hne].
    + rewrite lookup_insert_eq.
      destruct (decide (start <= start < start + S (length ml))%nat) as [_|Hbad]; [|lia].
      rewrite Nat.sub_diag. reflexivity.
    + rewrite lookup_insert_ne by congruence.
      destruct (decide (start <= j < start + S (length ml))%nat) as [Hbad|_];
        [lia | reflexivity].
Qed.

Lemma batch_size (h : Heap) (ml : list ref) (s : Store) (start : nat) :
  Forall (fun m => d_item_id (h m) <> None) ml ->
  (forall i m, metadata s !! i = Some m -> (i < start)%nat) ->
  size (metadata (snd (store_batch h s start ml))) = (size (metadata s) + length ml)%nat.
Proof.
  revert s start. induction ml as [|m ml IH]; intros s start Hk Hb; cbn [store_batch].
  { simpl. lia. }
  inversion Hk as [|? ? Hm Hrest]; subst.
  destruct (d_item_id (h m)) as [item|]; [|contradiction].
  rewrite IH; [|exact Hrest|].
  - cbn [record metadata length]. rewrite map_size_insert_None; [lia|].
    destruct (metadata s !! start) as [m0|] eqn:E; [|reflexivity].
    apply Hb in E. lia.
  - intros i m0. cbn [record metadata].
    destruct (decide (i = start)) as [->|Hne]; [lia|].
    rewrite lookup_insert_ne by congruence. intros H. apply Hb in H. lia.
Qed.

(** What [add_embeddings] does with a batch that passes the checks of
    count and dimension. *)
Lemma add_embeddings_stores (w : World) (embeddings : list VectorStore.vector) (ml : list ref) :
  length embeddings = length ml ->
  embeddings <> [] ->
  Forall (fun row => length row = dimension (mem w)) embeddings ->
  add_embeddings w embeddings ml
  = match store_batch (heap w)
            (set_index (mem w)
               (index (mem w) ++ VectorStore._normalize_embeddings embeddings))
            (next_faiss_id (mem w)) ml with
    | (Raise e, s) => (Raise e, {| heap := heap w; mem := s; disk := disk w |})
    | (Ok _, s) => (Ok tt, _save_index (heap w) (bump_next s (length embeddings)))
    end.
Proof.
  intros Hlen Hne Hdim. unfold add_embeddings.
  rewrite Hlen, Nat.eqb_refl. cbn [negb].
  destruct (Nat.eqb_spec (length ml) 0) as [H0|_].
  { destruct embeddings; [contradiction | rewrite <- Hlen in H0; discriminate H0]. }
  cbv zeta. unfold VectorStore.index_add.
  assert (Hall : forallb (fun row => Nat.eqb (length row) (dimension (mem w)))
                   (VectorStore._normalize_embeddings embeddings) = true).
  { apply forallb_forall. intros row Hin. unfold VectorStore._normalize_embeddings in Hin.
    apply in_map_iff in Hin as (row0 & <- & Hin0).
    rewrite VectorStoreProps.normalize_row_length. apply Nat.eqb_eq.
    rewrite List.Forall_forall in Hdim. apply Hdim. exact Hin0. }
  rewrite Hall. reflexivity.
Qed.

(** The ways [add_embeddings] ends. *)
Lemma add_embeddings_cases (w : World) (embeddings : list VectorStore.vector) (ml : list ref) :
  snd (add_embeddings w embeddings ml) = w
  \/ (length embeddings = length ml /\ embeddings <> []
      /\ add_embeddings w embeddings ml
         = match store_batch (heap w)
                   (set_index (mem w)
                      (index (mem w) ++ VectorStore._normalize_embeddings embeddings))
                   (next_faiss_id (mem w)) ml with
           | (Raise e, s) => (Raise e, {| heap := heap w; mem := s; disk := disk w |})
           | (Ok _, s) => (Ok tt, _save_index (heap w) (bump_next s (length embeddings)))
           end).
Proof.
  unfold add_embeddings.
  destruct (Nat.eqb_spec (length embeddings) (length ml)) as [Hlen|]; cbn [negb];
    [|left; reflexivity].
  destruct (Nat.eqb_spec (length embeddings) 0) as [H0|H0]; [left; reflexivity|].
  cbv zeta. unfold VectorStore.index_add.
  destruct (forallb _ _); [|left; reflexivity].
  right. split; [exact Hlen|]. split; [|reflexivity].
  intros ->. apply H0. reflexivity.
Qed.

(** *** Updating with a dictionary the store already holds *)

Lemma add_one (w : World) (embedding : VectorStore.vector) (m : ref) (item : string) :
  length embedding = dimension (mem w) ->
  d_item_id (heap w m) = Some item ->
  add_embeddings w [embedding] [m]
  = (Ok tt,
     _save_index (heap w)
       (bump_next
          (record (set_index (mem w)
                     (index (mem w) ++ [VectorStore.normalize_row embedding]))
                  (next_faiss_id (mem w)) m item) 1)).
Proof.
  intros Hdim Hid.
  rewrite add_embeddings_stores;
    [|reflexivity | discriminate | constructor; [exact Hdim | constructor]].
  cbn [store_batch VectorStore._normalize_embeddings map length]. rewrite Hid. reflexivity.
Qed.

Lemma get_after_add_one (h : Heap) (s : Store) (idx : list VectorStore.vector) (m : ref)
    (item : string) :
  get_embedding_metadata
    (_save_index h (bump_next (record (set_index s idx) (next_faiss_id s) m item) 1)) item
  = if dict_truthy (h m) && negb (is_deleted (h m)) then Some m else None.
Proof.
  unfold get_embedding_metadata.
  cbn [_save_index mem heap bump_next record set_index id_to_faiss metadata next_faiss_id].
  rewrite !lookup_insert_eq. reflexivity.
Qed.

Lemma keyed_truthy (d : Dict) (item : string) : d_item_id d = Some item -> dict_truthy d = true.
Proof.
  intros H. unfold dict_truthy. rewrite H. reflexivity.
Qed.

(** When [update_embedding] is given a vector of the store's dimension
    and a dictionary that carries the item's id and is not flagged deleted,
    it returns, and the normalised vector is appended to the index.  If the
    dictionary is not the object stored in the slot the item is mapped to,
    [get_embedding_metadata] then returns that very dictionary, unchanged.
    If it is that object, as when the caller passes what
    [get_embedding_metadata] returned for the item, the removal has flagged it
    deleted before it is stored again: the update returns normally and
    [get_embedding_metadata] finds nothing for the item. *)
Theorem update_embedding_stored_object (w : World) (item : string) (embedding : VectorStore.vector)
    (m : ref) :
  length embedding = dimension (mem w) ->
  d_item_id (heap w m) = Some item ->
  is_deleted (heap w m) = false ->
  let stored := match id_to_faiss (mem w) !! item with
                | Some faiss_id => metadata (mem w) !! faiss_id
                | None => None
                end in
  let w' := snd (update_embedding w item embedding m) in
  fst (update_embedding w item embedding m) = Ok tt
  /\ index (mem w') = index (mem w) ++ [VectorStore.normalize_row embedding]
  /\ (stored <> Some m ->
      get_embedding_metadata w' item = Some m /\ heap w' m = heap w m)
  /\ (stored = Some m ->
      get_embedding_metadata w' item = None /\ heap w' m = set_deleted (heap w m))
  /\ (get_embedding_metadata w item = Some m -> stored = Some m).
Proof.
  intros Hdim Hid Hlive stored w'. subst stored w'.
  assert (Hlast : get_embedding_metadata w item = Some m ->
                  match id_to_faiss (mem w) !! item with
                  | Some faiss_id => metadata (mem w) !! faiss_id
                  | None => None
                  end = Some m).
  { unfold get_embedding_metadata. destruct (id_to_faiss (mem w) !! item); [|discriminate].
    destruct (metadata (mem w) !! n) as [m0|]; [|discriminate].
    destruct (_ && _); [|discriminate]. intros [= ->]. reflexivity. }
  unfold update_embedding.
  destruct (id_to_faiss (mem w) !! item) as [faiss_id|] eqn:Hmap.
  - unfold remove_embedding. rewrite Hmap.
    destruct (metadata (mem w) !! faiss_id) as [m0|] eqn:Hrec.
    + destruct (Nat.eqb_spec m m0) as [<-|Hne].
      * rewrite (add_one _ embedding m item);
          [|exact Hdim | cbn [_save_index heap]; unfold heap_set; rewrite Nat.eqb_refl;
                         exact Hid].
        cbn [fst snd]. split; [reflexivity|]. split; [reflexivity|].
        split; [intros H; contradiction H; reflexivity|].
        split; [|exact Hlast]. intros _.
        rewrite get_after_add_one. cbn [_save_index heap]. unfold heap_set.
        rewrite Nat.eqb_refl. split; [|reflexivity].
        unfold is_deleted, set_deleted. cbn. rewrite andb_false_r. reflexivity.
      * assert (Hsame : heap_set (heap w) m0 (set_deleted (heap w m0)) m = heap w m).
        { unfold heap_set. destruct (Nat.eqb_spec m m0); [contradiction | reflexivity]. }
        rewrite (add_one _ embedding m item);
          [|exact Hdim | cbn [_save_index heap]; rewrite Hsame; exact Hid].
        cbn [fst snd]. split; [reflexivity|]. split; [reflexivity|].
        split; [|split; [intros [= E]; congruence | exact Hlast]].
        intros _. rewrite get_after_add_one. cbn [_save_index heap]. rewrite Hsame.
        rewrite (keyed_truthy _ _ Hid), Hlive. split; reflexivity.
    + rewrite (add_one _ embedding m item); [|exact Hdim | exact Hid].
      cbn [fst snd]. split; [reflexivity|]. split; [reflexivity|].
      split; [|split; [discriminate | exact Hlast]].
      intros _. rewrite get_after_add_one. cbn [_save_index heap].
      rewrite (keyed_truthy _ _ Hid), Hlive. split; reflexivity.
  - rewrite (add_one _ embedding m item); [|exact Hdim | exact Hid].
    cbn [fst snd]. split; [reflexivity|]. split; [reflexivity|].
    split; [|split; [discriminate | exact Hlast]].
    intros _. rewrite get_after_add_one.
    rewrite (keyed_truthy _ _ Hid), Hlive. split; reflexivity.
Qed.

Lemma update_embedding_stored_object_witness :
  get_embedding_metadata ObjectSamples.holds_a "a" = Some 0%nat
  /\ fst (update_embedding ObjectSamples.holds_a "a" Samples.e2 0%nat) = Ok tt
  /\ get_embedding_metadata
       (snd (update_embedding ObjectSamples.holds_a "a" Samples.e2 0%nat)) "a" = None.
Proof.
  destruct (update_embedding_stored_object ObjectSamples.holds_a "a" Samples.e2 0%nat)
    as (Hret & _ & _ & Hshared & _); [reflexivity | reflexivity | reflexivity |].
  split; [reflexivity|]. split; [exact Hret|].
  apply Hshared. reflexivity.
Defined.

(** *** Histories in which every dictionary has its item id *)

Lemma filter_split_length {A : Type} (p : A -> bool) (l : list A) :
  (length (List.filter (fun x => negb (p x)) l) + length (List.filter p l))%nat = length l.
Proof.
  induction l as [|x l IH]; simpl; [reflexivity|].
  destruct (p x); simpl; lia.
Qed.

Lemma dense_fresh (d : nat) : dense (_create_new_index d).
Proof.
  split; [reflexivity|]. split; [reflexivity|].
  intros i m. simpl. rewrite lookup_empty. discriminate.
Qed.

Lemma add_embeddings_keyed (d : nat) (w : World) (embeddings : list VectorStore.vector) (ml : list ref) :
  Forall (fun m => d_item_id (heap w m) <> None) ml ->
  synced d w -> dense (mem w) ->
  let w' := snd (add_embeddings w embeddings ml) in
  synced d w' /\ dense (mem w') /\ heap w' = heap w.
Proof.
  intros Hk Hs Hd w'. subst w'.
  destruct (add_embeddings_cases w embeddings ml) as [->|(Hlen & Hne & ->)]; [auto|].
  set (s0 := set_index (mem w)
               (index (mem w) ++ VectorStore._normalize_embeddings embeddings)).
  pose proof (batch_returns (heap w) ml s0 (next_faiss_id (mem w)) Hk) as Hok.
  destruct (batch_frame (heap w) ml s0 (next_faiss_id (mem w))) as (_ & Fi & Fn).
  destruct Hd as (Hn & Hsz & Hb).
  pose proof (batch_size (heap w) ml s0 (next_faiss_id (mem w)) Hk Hb) as Ssz.
  pose proof (fun j => batch_lookup (heap w) ml s0 (next_faiss_id (mem w)) j Hk)
    as Slook.
  destruct (store_batch (heap w) s0 (next_faiss_id (mem w)) ml) as [[[]|e] s1];
    cbn [fst snd] in *; [|discriminate Hok].
  split; [left; reflexivity|]. split; [|reflexivity].
  cbn [_save_index mem]. split; [|split].
  - unfold ntotal. cbn [bump_next next_faiss_id index]. rewrite Fn, Fi.
    unfold s0. cbn [set_index next_faiss_id index]. rewrite length_app.
    unfold VectorStore._normalize_embeddings. rewrite length_map.
    unfold ntotal in Hn. lia.
  - cbn [bump_next next_faiss_id metadata]. rewrite Ssz, Fn.
    unfold s0. cbn [set_index next_faiss_id metadata]. lia.
  - intros i m. cbn [bump_next next_faiss_id metadata]. rewrite Slook, Fn.
    unfold s0. cbn [set_index next_faiss_id metadata].
    destruct (decide _) as [Hin|_]; [intros _; lia|].
    intros H. apply Hb in H. lia.
Qed.

Lemma remove_embedding_keyed (d : nat) (w : World) (item : string) :
  synced d w -> dense (mem w) ->
  let w' := remove_embedding w item in
  synced d w' /\ dense (mem w')
  /\ (forall m, d_item_id (heap w' m) = d_item_id (heap w m)).
Proof.
  intros Hs Hd w'. subst w'. unfold remove_embedding.
  destruct (id_to_faiss (mem w) !! item) as [faiss_id|]; [|auto].
  split; [left; reflexivity|]. split; [exact Hd|].
  intros m. cbn [_save_index heap].
  destruct (metadata (mem w) !! faiss_id) as [m0|]; [|reflexivity].
  unfold heap_set. destruct (Nat.eqb_spec m m0) as [->|_]; reflexivity.
Qed.

Lemma step_keyed (d : nat) (h : Heap) (w : World) (op : Op) :
  keyed h op ->
  (forall m, d_item_id (heap w m) = d_item_id (h m)) ->
  synced d w -> dense (mem w) ->
  synced d (step w op) /\ dense (mem (step w op))
  /\ (forall m, d_item_id (heap (step w op) m) = d_item_id (h m)).
Proof.
  intros Hk Hids Hs Hd. destruct op as [embeddings ml|item embedding m|item]; cbn [step].
  - destruct (add_embeddings_keyed d w embeddings ml) as (Hs' & Hd' & Hh); [|assumption..|].
    { cbn [keyed] in Hk. eapply Forall_impl; [exact Hk|]. intros m. simpl.
      rewrite Hids. auto. }
    rewrite Hh. auto.
  - unfold update_embedding.
    set (w1 := match id_to_faiss (mem w) !! item with
               | Some _ => remove_embedding w item
               | None => w
               end).
    assert (H1 : synced d w1 /\ dense (mem w1)
                 /\ (forall m0, d_item_id (heap w1 m0) = d_item_id (h m0))).
    { unfold w1. destruct (id_to_faiss (mem w) !! item); [|auto].
      destruct (remove_embedding_keyed d w item Hs Hd) as (A & B & C).
      split; [exact A|]. split; [exact B|]. intros m0. rewrite C. apply Hids. }
    destruct H1 as (Hs1 & Hd1 & Hids1).
    destruct (add_embeddings_keyed d w1 [embedding] [m]) as (Hs' & Hd' & Hh);
      [|assumption..|].
    { constructor; [|constructor]. rewrite Hids1. exact Hk. }
    rewrite Hh. auto.
  - destruct (remove_embedding_keyed d w item Hs Hd) as (A & B & C).
    split; [exact A|]. split; [exact B|]. intros m. rewrite C. apply Hids.
Qed.

Lemma run_keyed (d : nat) (h : Heap) (ops : list Op) (w : World) :
  Forall (keyed h) ops ->
  (forall m, d_item_id (heap w m) = d_item_id (h m)) ->
  synced d w -> dense (mem w) ->
  synced d (run w ops) /\ dense (mem (run w ops)).
Proof.
  revert w. induction ops as [|op ops IH]; intros w Hk Hids Hs Hd; [auto|].
  inversion Hk as [|? ? Hop Hrest]; subst.
  change (run w (op :: ops)) with (run (step w op) ops).
  destruct (step_keyed d h w op Hop Hids Hs Hd) as (A & B & C).
  apply IH; assumption.
Qed.

Lemma add_embeddings_dimension (w : World) (embeddings : list VectorStore.vector)
    (ml : list ref) :
  dimension (mem (snd (add_embeddings w embeddings ml))) = dimension (mem w).
Proof.
  destruct (add_embeddings_cases w embeddings ml) as [->|(_ & _ & ->)]; [reflexivity|].
  match goal with |- context [store_batch ?h ?s ?n ?l] =>
    destruct (batch_frame h l s n) as (Fd & _);
    destruct (store_batch h s n l) as [[[]|e] s1]
  end; cbn [fst snd _save_index mem bump_next dimension] in *; rewrite Fd; reflexivity.
Qed.

Lemma remove_embedding_dimension (w : World) (item : string) :
  dimension (mem (remove_embedding w item)) = dimension (mem w).
Proof.
  unfold remove_embedding. destruct (id_to_faiss (mem w) !! item); reflexivity.
Qed.

Lemma run_dimension (ops : list Op) (w : World) :
  dimension (mem (run w ops)) = dimension (mem w).
Proof.
  revert w. induction ops as [|op ops IH]; intros w; [reflexivity|].
  change (run w (op :: ops)) with (run (step w op) ops). rewrite IH.
  destruct op as [embeddings ml|item embedding m|item]; cbn [step].
  - apply add_embeddings_dimension.
  - unfold update_embedding. rewrite add_embeddings_dimension.
    destruct (id_to_faiss (mem w) !! item); [apply remove_embedding_dimension | reflexivity].
  - apply remove_embedding_dimension.
Qed.

(** Whatever calls were made on a store since it was created empty,
    returning or raising, each with dictionaries that have the key
    ['item_id']: what [_save_index] last wrote is the store in memory with
    the content of its dictionaries, or nothing was written and the store is
    still as created.  Writing is taken to succeed. *)
Theorem keyed_histories_are_saved (h : Heap) (d : nat) (ops : list Op) :
  Forall (keyed h) ops ->
  synced d (run (fresh_world h d) ops).
Proof.
  intros Hk.
  destruct (run_keyed d h ops (fresh_world h d) Hk) as (Hs & _).
  - reflexivity.
  - right. split; reflexivity.
  - apply dense_fresh.
  - exact Hs.
Qed.

Lemma keyed_histories_are_saved_witness :
  synced 2 (run (fresh_world ObjectSamples.objects 2) ObjectSamples.keyed_ops).
Proof.
  apply (keyed_histories_are_saved ObjectSamples.objects 2 ObjectSamples.keyed_ops).
  repeat constructor; discriminate.
Defined.

(** Whatever calls were made on a store since it was created empty,
    returning or raising, each with dictionaries that have the key
    ['item_id']: [get_stats] reports a total that is the sum of its active
    and deleted counts, the total is the value of the slot counter (no slot
    is reclaimed, and none is left without a record), and the dimension is
    the one the store was created with. *)
Theorem get_stats_totals (h : Heap) (d : nat) (ops : list Op) :
  Forall (keyed h) ops ->
  let w := run (fresh_world h d) ops in
  VectorStore.total_embeddings (get_stats w)
  = (VectorStore.active_embeddings (get_stats w)
     + VectorStore.deleted_embeddings (get_stats w))%nat
  /\ VectorStore.total_embeddings (get_stats w) = next_faiss_id (mem w)
  /\ VectorStore.total_embeddings (get_stats w) = size (metadata (mem w))
  /\ VectorStore.stats_dimension (get_stats w) = d.
Proof.
  intros Hk w.
  destruct (run_keyed d h ops (fresh_world h d) Hk) as (_ & Hn & Hsz & _).
  - reflexivity.
  - right. split; reflexivity.
  - apply dense_fresh.
  - unfold get_stats.
    cbn [VectorStore.total_embeddings VectorStore.active_embeddings
         VectorStore.deleted_embeddings VectorStore.stats_dimension].
    rewrite filter_split_length, length_map, length_map_to_list.
    subst w. split; [lia|]. split; [lia|]. split; [lia|].
    apply (run_dimension ops (fresh_world h d)).
Qed.

Lemma get_stats_totals_witness :
  let w := run (fresh_world ObjectSamples.objects 2) ObjectSamples.keyed_ops in
  VectorStore.total_embeddings (get_stats w)
  = (VectorStore.active_embeddings (get_stats w)
     + VectorStore.deleted_embeddings (get_stats w))%nat
  /\ VectorStore.total_embeddings (get_stats w) = next_faiss_id (mem w)
  /\ VectorStore.total_embeddings (get_stats w) = size (metadata (mem w))
  /\ VectorStore.stats_dimension (get_stats w) = 2%nat.
Proof.
  apply (get_stats_totals ObjectSamples.objects 2 ObjectSamples.keyed_ops).
  repeat constructor; discriminate.
Defined.

(** *** A dictionary without its item id *)

(** When [add_embeddings] is given a batch that passes the checks of
    count and dimension and holds a dictionary without ['item_id'], it raises
    [KeyError] after the whole batch of vectors is in the index: the records
    of the dictionaries before the offending one are stored, the slot counter
    is not advanced, and nothing is saved, so that a store that was saved is
    no longer.  The counter now lags behind the index, and the next vector
    added gets a slot that belongs to a vector of the failed batch: its
    record is filed under that slot, and the position of the new vector has
    no record. *)
Theorem missing_item_id_leaves_store_askew (w : World) (embeddings : list VectorStore.vector)
    (before : list ref) (m : ref) (after : list ref) :
  length embeddings = length (before ++ m :: after) ->
  Forall (fun row => length row = dimension (mem w)) embeddings ->
  Forall (fun m' => d_item_id (heap w m') <> None) before ->
  d_item_id (heap w m) = None ->
  dense (mem w) ->
  let w' := snd (add_embeddings w embeddings (before ++ m :: after)) in
  fst (add_embeddings w embeddings (before ++ m :: after)) = Raise (KeyError "item_id")
  /\ heap w' = heap w
  /\ disk w' = disk w
  /\ index (mem w') = index (mem w) ++ VectorStore._normalize_embeddings embeddings
  /\ next_faiss_id (mem w') = next_faiss_id (mem w)
  /\ (next_faiss_id (mem w') < ntotal (mem w'))%nat
  /\ (forall i m', before !! i = Some m' ->
        metadata (mem w') !! (next_faiss_id (mem w) + i)%nat = Some m')
  /\ (forall d, synced d w -> ~ synced d w')
  /\ (forall v m2 item2,
        length v = dimension (mem w) ->
        d_item_id (heap w m2) = Some item2 ->
        let w2 := snd (add_embeddings w' [v] [m2]) in
        fst (add_embeddings w' [v] [m2]) = Ok tt
        /\ metadata (mem w2) !! next_faiss_id (mem w) = Some m2
        /\ index (mem w2) !! next_faiss_id (mem w)
           = VectorStore._normalize_embeddings embeddings !! 0%nat
        /\ index (mem w2) !! (ntotal (mem w) + length embeddings)%nat
           = Some (VectorStore.normalize_row v)
        /\ metadata (mem w2) !! (ntotal (mem w) + length embeddings)%nat = None).
Proof.
  intros Hlen Hdim Hk Hm (Hn & Hsz & Hb) w'. subst w'.
  assert (Hne : embeddings <> []).
  { intros ->. rewrite length_app in Hlen. simpl in Hlen. lia. }
  rewrite (add_embeddings_stores w embeddings _ Hlen Hne Hdim).
  set (s0 := set_index (mem w)
               (index (mem w) ++ VectorStore._normalize_embeddings embeddings)).
  rewrite (batch_raises (heap w) before m after s0 _ Hk Hm).
  destruct (batch_frame (heap w) before s0 (next_faiss_id (mem w)))
    as (Fd & Fi & Fn).
  pose proof (fun j => batch_lookup (heap w) before s0 (next_faiss_id (mem w)) j Hk)
    as Slook.
  set (s1 := snd (store_batch (heap w) s0 (next_faiss_id (mem w)) before)) in *.
  cbn [fst snd heap mem disk].
  assert (Hlong : (length before < length embeddings)%nat).
  { rewrite Hlen, length_app. simpl. lia. }
  assert (Hidx : index s1 = index (mem w) ++ VectorStore._normalize_embeddings embeddings)
    by (rewrite Fi; reflexivity).
  assert (Hnext : next_faiss_id s1 = next_faiss_id (mem w)) by (rewrite Fn; reflexivity).
  assert (Hrows : length (VectorStore._normalize_embeddings embeddings) = length embeddings)
    by (unfold VectorStore._normalize_embeddings; apply length_map).
  split; [reflexivity|]. split; [reflexivity|]. split; [reflexivity|].
  split; [exact Hidx|]. split; [exact Hnext|].
  split.
  { unfold ntotal. rewrite Hnext, Hidx, length_app, Hrows. unfold ntotal in Hn. lia. }
  split.
  { intros i m' Hi. rewrite Slook.
    pose proof (lookup_lt_Some _ _ _ Hi) as Hlt.
    destruct (decide _) as [_|Hbad]; [|lia].
    replace (next_faiss_id (mem w) + i - next_faiss_id (mem w))%nat with i by lia.
    exact Hi. }
  split.
  { intros d Hs [Hsaved|[Hnone Hfresh]]; cbn [disk heap mem] in *.
    - destruct Hs as [Hs|[Hs _]]; [|congruence].
      assert (Hi : saved_index (snapshot (heap w) (mem w))
                   = saved_index (snapshot (heap w) s1)) by congruence.
      cbn [snapshot saved_index] in Hi.
      rewrite Hidx in Hi. apply (f_equal length) in Hi.
      rewrite length_app, Hrows in Hi. lia.
    - apply (f_equal index) in Hfresh. rewrite Hidx in Hfresh. cbn in Hfresh.
      apply (f_equal length) in Hfresh. rewrite length_app, Hrows in Hfresh.
      simpl in Hfresh. lia. }
  intros v m2 item2 Hv Hid2.
  rewrite (add_one _ v m2 item2); [|cbn [mem]; rewrite Fd; exact Hv | exact Hid2].
  cbn [fst snd _save_index mem bump_next record set_index metadata index].
  rewrite Hnext, Hidx.
  split; [reflexivity|].
  split; [apply lookup_insert_eq|].
  split.
  { rewrite <- app_assoc, lookup_app_r by (unfold ntotal in Hn; lia).
    replace (next_faiss_id (mem w) - length (index (mem w)))%nat with 0%nat
      by (unfold ntotal in Hn; lia).
    destruct (VectorStore._normalize_embeddings embeddings) as [|row rows] eqn:E;
      [simpl in Hrows; lia | reflexivity]. }
  split.
  { unfold ntotal. rewrite lookup_app_r by (rewrite length_app, Hrows; lia).
    rewrite length_app, Hrows, Nat.sub_diag. reflexivity. }
  rewrite lookup_insert_ne by (unfold ntotal in *; lia).
  rewrite Slook. unfold s0. cbn [set_index metadata].
  destruct (decide _) as [Hin|_]; [unfold ntotal in *; lia|].
  destruct (metadata (mem w) !! (ntotal (mem w) + length embeddings)%nat) as [m0|] eqn:E;
    [|reflexivity].
  apply Hb in E. unfold ntotal in *. lia.
Qed.

Lemma missing_item_id_leaves_store_askew_witness :
  fst (add_embeddings ObjectSamples.holds_a [Samples.e1; Samples.e2] [1%nat; 2%nat])
  = Raise (KeyError "item_id")
  /\ (next_faiss_id
        (mem (snd (add_embeddings ObjectSamples.holds_a [Samples.e1; Samples.e2]
                     [1%nat; 2%nat])))
      < ntotal
          (mem (snd (add_embeddings ObjectSamples.holds_a [Samples.e1; Samples.e2]
                       [1%nat; 2%nat]))))%nat.
Proof.
  destruct (missing_item_id_leaves_store_askew ObjectSamples.holds_a
              [Samples.e1; Samples.e2] [1%nat] 2%nat [])
    as (Hraise & _ & _ & _ & _ & Hlag & _).
  - reflexivity.
  - repeat constructor.
  - repeat constructor. discriminate.
  - reflexivity.
  - split; [reflexivity|]. split; [reflexivity|].
    intros i m0 Hi. cbn.
    destruct (decide (i = 0%nat)) as [->|Hne]; [lia|].
    change (metadata (mem ObjectSamples.holds_a)) with (<[0%nat := 0%nat]> (∅ : gmap nat ref)) in Hi.
    rewrite lookup_insert_ne, lookup_empty in Hi by congruence. discriminate.
  - split; [exact Hraise | exact Hlag].
Defined.

End ObjectStoreProps.
